(** * CarGeek front-end: streaming-event ingestion and the agent-result reducer

    A shallow embedding of
    - [src/lib/utils/agent-data-parser.ts] (class [AgentDataParser]: the
      envelope decoder, the spawn/complete handlers, the state parser and the
      listener registry),
    - the stream consumer of [src/components/vehicle-profile-dashboard-old.tsx]
      (the [onData] callback that feeds the parser),
    - the two stream-proxy routes ([/api/cargeek-stream], whose source is the
      second document of [src/app/vehicle/page.tsx], and
      [src/app/api/vehicle-stream/route.ts]).

    Conventions.
    - A JavaScript string is a sequence of UTF-16 code units.  It is carried
      by a Rocq [string] in which every code unit is written with the one, two
      or three bytes UTF-8 uses for that number; ASCII text is therefore
      itself, and [startsWith], [substring], [split] and [===] against ASCII
      literals are byte operations.
    - JavaScript numbers that count things ([total_agents],
      [completed_agents], lengths) are integers far below 2^53 and are
      modelled in [Z].
    - [try { ... } catch] becomes [option] ([None] is the caught exception).
    - [console.log]/[console.warn]/[console.error] calls are not modelled.
    - [new Date().toISOString()] and [Date.now()] are read from a [Clock]
      that the caller supplies for each call. *)

From Stdlib Require Import Bool Arith ZArith NArith Lia List Ascii String DecimalString.
Import ListNotations.

Local Open Scope list_scope.
Local Open Scope string_scope.

Set Warnings "-register-all".

(* ================================================================== *)
(** * JavaScript values and strings *)
(* ================================================================== *)

Module JS.

(** A value as [JSON.parse] builds it, plus [undefined] (what reading a
    missing property gives).  A number keeps the exact decimal value of its
    literal, [mantissa * 10 ^ exponent]; its rounding to a double is not
    modelled (no number is compared or added here, and only a literal too
    small for a double would change its truth value). *)
Inductive jsval : Type :=
| JUndefined
| JNull
| JBool (b : bool)
| JNum (mantissa exponent : Z)
| JStr (s : string)
| JArr (items : list jsval)
| JObj (fields : list (string * jsval)).

(** [!!v] *)
Definition truthy (v : jsval) : bool :=
  match v with
  | JUndefined | JNull => false
  | JBool b => b
  | JNum m _ => negb (m =? 0)%Z
  | JStr s => negb (s =? "")
  | JArr _ | JObj _ => true
  end.

(** Own property lookup in an object literal: a repeated key keeps its
    last value. *)
Fixpoint lookup_field (k : string) (fs : list (string * jsval)) : option jsval :=
  match fs with
  | [] => None
  | (k', v) :: rest =>
      match lookup_field k rest with
      | Some w => Some w
      | None => if k' =? k then Some v else None
      end
  end.

(** [v.k] on a value that is neither [null] nor [undefined], for the
    property names this program reads (none of them is defined on a
    prototype). *)
Definition get (v : jsval) (k : string) : jsval :=
  match v with
  | JObj fs => match lookup_field k fs with Some w => w | None => JUndefined end
  | _ => JUndefined
  end.

(** [null] and [undefined]: reading a property of either throws. *)
Definition nullish (v : jsval) : bool :=
  match v with
  | JUndefined | JNull => true
  | _ => false
  end.

(** [a || d] *)
Definition or_else (a d : jsval) : jsval := if truthy a then a else d.

(** [s.startsWith(p)] *)
Definition startsWith (s p : string) : bool := String.prefix p s.

(** [s.substring(n)] and [s.slice(n)] for [0 <= n]. *)
Fixpoint drop (n : nat) (s : string) : string :=
  match n, s with
  | O, _ => s
  | S _, EmptyString => EmptyString
  | S n', String _ r => drop n' r
  end.

(** The UTF-16 code units a string stands for. *)
Fixpoint units (s : string) : list N :=
  match s with
  | EmptyString => []
  | String a r =>
      let b := N_of_ascii a in
      if (b <? 128)%N then b :: units r
      else if ((192 <=? b) && (b <? 224))%N then
        match r with
        | String a1 r1 =>
            ((b - 192) * 64 + (N_of_ascii a1 - 128))%N :: units r1
        | EmptyString => [b]
        end
      else if ((224 <=? b) && (b <? 240))%N then
        match r with
        | String a1 (String a2 r2) =>
            ((b - 224) * 4096 + (N_of_ascii a1 - 128) * 64
             + (N_of_ascii a2 - 128))%N :: units r2
        | _ => [b]
        end
      else b :: units r
  end.

(** The bytes of one code unit. *)
Definition encode_unit (u : N) : string :=
  if (u <? 128)%N then String (ascii_of_N u) ""
  else if (u <? 2048)%N then
    String (ascii_of_N (192 + u / 64))
      (String (ascii_of_N (128 + u mod 64)) "")
  else
    String (ascii_of_N (224 + u / 4096))
      (String (ascii_of_N (128 + (u / 64) mod 64))
        (String (ascii_of_N (128 + u mod 64)) "")).

(** ECMAScript [WhiteSpace] and [LineTerminator] code units: what
    [String.prototype.trim] removes. *)
Definition isWhiteSpace (u : N) : bool :=
  ((9 <=? u) && (u <=? 13) || (u =? 32) || (u =? 160) || (u =? 5760)
   || (8192 <=? u) && (u <=? 8202) || (u =? 8232) || (u =? 8233)
   || (u =? 8239) || (u =? 8287) || (u =? 12288) || (u =? 65279))%N.

(** [!s.trim()]: the string holds nothing but white space. *)
Definition trim_is_empty (s : string) : bool := forallb isWhiteSpace (units s).

Definition LF : ascii := "010"%char.
Definition quotation_mark : ascii := "034"%char.
Definition backslash : ascii := "092"%char.

(** A text written with an apostrophe wherever it has a quotation mark:
    [dq "{'a': 1}"] is the seven characters of the JSON text of an object
    with one member. *)
Fixpoint dq (s : string) : string :=
  match s with
  | EmptyString => EmptyString
  | String c r => String (if (c =? "'")%char then quotation_mark else c) (dq r)
  end.

(** [s.split('\n')]: never empty; the last element is the text after the
    last line feed. *)
Fixpoint split_lines (s : string) : list string :=
  match s with
  | EmptyString => [""]
  | String c r =>
      if (c =? LF)%char then "" :: split_lines r
      else
        match split_lines r with
        | l :: ls => String c l :: ls
        | [] => [String c ""]
        end
  end.

(** Decimal text of a non-negative integer, as a template literal prints it. *)
Definition decimal (n : N) : string := NilEmpty.string_of_uint (N.to_uint n).

End JS.
Import JS.

(* ================================================================== *)
(** * [JSON.parse] and [JSON.stringify] *)
(* ================================================================== *)

Module Json.

Inductive token : Type :=
| TLBrace | TRBrace | TLBracket | TRBracket | TColon | TComma
| TString (s : string)
| TNumber (mantissa exponent : Z)
| TTrue | TFalse | TNull.

(** Where the scanner stands inside a number literal: an optional minus,
    then 0 or a digit string that does not start with 0, then optionally a
    dot with one digit or more, then optionally e or E, a sign and one digit
    or more. *)
Inductive numstage : Type :=
| NMinus | NZero | NInt | NDot | NFrac | NExpMark | NExpSign | NExp.

Record numacc : Type := mkNum {
  n_neg : bool;      (* leading minus *)
  n_mant : Z;        (* digits read so far, integer and fraction *)
  n_scale : Z;       (* number of fraction digits *)
  n_eneg : bool;     (* minus in the exponent *)
  n_exp : Z          (* exponent digits *)
}.

Inductive lexmode : Type :=
| LStart                                   (* between tokens *)
| LWord (rest : string) (t : token)        (* inside true / false / null *)
| LNum (st : numstage) (a : numacc)
| LStr (acc : string)                      (* inside a string literal *)
| LEsc (acc : string)                      (* after a backslash *)
| LHex (acc : string) (todo : nat) (v : N) (* inside \uXXXX *).

Definition code (c : ascii) : N := N_of_ascii c.

Definition is_digit (c : ascii) : bool := ((48 <=? code c) && (code c <=? 57))%N.
Definition digit (c : ascii) : Z := Z.of_N (code c - 48).

Definition hex_digit (c : ascii) : option N :=
  let n := code c in
  if ((48 <=? n) && (n <=? 57))%N then Some (n - 48)%N
  else if ((65 <=? n) && (n <=? 70))%N then Some (n - 55)%N
  else if ((97 <=? n) && (n <=? 102))%N then Some (n - 87)%N
  else None.

(** JSON white space: space, tab, line feed, carriage return. *)
Definition is_ws (c : ascii) : bool :=
  let n := code c in ((n =? 32) || (n =? 9) || (n =? 10) || (n =? 13))%N.

Definition number_token (a : numacc) : token :=
  TNumber (if n_neg a then - n_mant a else n_mant a)%Z
          ((if n_eneg a then - n_exp a else n_exp a) - n_scale a)%Z.

Definition push_digit (a : numacc) (c : ascii) (frac : bool) : numacc :=
  mkNum (n_neg a) (n_mant a * 10 + digit c)%Z
        (if frac then n_scale a + 1 else n_scale a)%Z (n_eneg a) (n_exp a).

Definition push_exp (a : numacc) (c : ascii) : numacc :=
  mkNum (n_neg a) (n_mant a) (n_scale a) (n_eneg a) (n_exp a * 10 + digit c)%Z.

Definition fresh_num (neg : bool) : numacc := mkNum neg 0 0 false 0.

(** One character read between tokens. *)
Definition step_start (c : ascii) : option (list token * lexmode) :=
  if is_ws c then Some ([], LStart)
  else if (c =? "{")%char then Some ([TLBrace], LStart)
  else if (c =? "}")%char then Some ([TRBrace], LStart)
  else if (c =? "[")%char then Some ([TLBracket], LStart)
  else if (c =? "]")%char then Some ([TRBracket], LStart)
  else if (c =? ":")%char then Some ([TColon], LStart)
  else if (c =? ",")%char then Some ([TComma], LStart)
  else if (c =? quotation_mark)%char then Some ([], LStr "")
  else if (c =? "-")%char then Some ([], LNum NMinus (fresh_num true))
  else if (c =? "0")%char then Some ([], LNum NZero (fresh_num false))
  else if is_digit c then Some ([], LNum NInt (push_digit (fresh_num false) c false))
  else if (c =? "t")%char then Some ([], LWord "rue" TTrue)
  else if (c =? "f")%char then Some ([], LWord "alse" TFalse)
  else if (c =? "n")%char then Some ([], LWord "ull" TNull)
  else None.

(** A character that cannot continue the number ends it and is then read
    between tokens. *)
Definition end_number (a : numacc) (c : ascii) : option (list token * lexmode) :=
  match step_start c with
  | Some (ts, m) => Some (number_token a :: ts, m)
  | None => None
  end.

Definition is_e (c : ascii) : bool := ((c =? "e") || (c =? "E"))%char.

Definition step_number (st : numstage) (a : numacc) (c : ascii)
  : option (list token * lexmode) :=
  match st with
  | NMinus =>
      if (c =? "0")%char then Some ([], LNum NZero a)
      else if is_digit c then Some ([], LNum NInt (push_digit a c false))
      else None
  | NZero =>
      if (c =? ".")%char then Some ([], LNum NDot a)
      else if is_e c then Some ([], LNum NExpMark a)
      else if is_digit c then None
      else end_number a c
  | NInt =>
      if is_digit c then Some ([], LNum NInt (push_digit a c false))
      else if (c =? ".")%char then Some ([], LNum NDot a)
      else if is_e c then Some ([], LNum NExpMark a)
      else end_number a c
  | NDot =>
      if is_digit c then Some ([], LNum NFrac (push_digit a c true)) else None
  | NFrac =>
      if is_digit c then Some ([], LNum NFrac (push_digit a c true))
      else if is_e c then Some ([], LNum NExpMark a)
      else end_number a c
  | NExpMark =>
      if (c =? "+")%char then Some ([], LNum NExpSign a)
      else if (c =? "-")%char then
        Some ([], LNum NExpSign (mkNum (n_neg a) (n_mant a) (n_scale a) true (n_exp a)))
      else if is_digit c then Some ([], LNum NExp (push_exp a c))
      else None
  | NExpSign =>
      if is_digit c then Some ([], LNum NExp (push_exp a c)) else None
  | NExp =>
      if is_digit c then Some ([], LNum NExp (push_exp a c))
      else end_number a c
  end.

Definition snoc (acc : string) (c : ascii) : string := acc ++ String c "".

Definition step_escape (acc : string) (c : ascii) : option (list token * lexmode) :=
  if (c =? quotation_mark)%char then Some ([], LStr (snoc acc c))
  else if (c =? backslash)%char then Some ([], LStr (snoc acc c))
  else if (c =? "/")%char then Some ([], LStr (snoc acc c))
  else if (c =? "b")%char then Some ([], LStr (snoc acc "008"%char))
  else if (c =? "f")%char then Some ([], LStr (snoc acc "012"%char))
  else if (c =? "n")%char then Some ([], LStr (snoc acc "010"%char))
  else if (c =? "r")%char then Some ([], LStr (snoc acc "013"%char))
  else if (c =? "t")%char then Some ([], LStr (snoc acc "009"%char))
  else if (c =? "u")%char then Some ([], LHex acc 4 0%N)
  else None.

Definition step (m : lexmode) (c : ascii) : option (list token * lexmode) :=
  match m with
  | LStart => step_start c
  | LWord EmptyString _ => None
  | LWord (String e rest) t =>
      if (c =? e)%char then
        match rest with
        | EmptyString => Some ([t], LStart)
        | _ => Some ([], LWord rest t)
        end
      else None
  | LNum st a => step_number st a c
  | LStr acc =>
      if (c =? quotation_mark)%char then Some ([TString acc], LStart)
      else if (c =? backslash)%char then Some ([], LEsc acc)
      else if (code c <? 32)%N then None
      else Some ([], LStr (snoc acc c))
  | LEsc acc => step_escape acc c
  | LHex acc todo v =>
      match hex_digit c with
      | None => None
      | Some h =>
          let v' := (v * 16 + h)%N in
          match todo with
          | 1%nat => Some ([], LStr (acc ++ encode_unit v'))
          | _ => Some ([], LHex acc (pred todo) v')
          end
      end
  end.

(** End of input. *)
Definition finish (m : lexmode) : option (list token) :=
  match m with
  | LStart => Some []
  | LNum NZero a | LNum NInt a | LNum NFrac a | LNum NExp a => Some [number_token a]
  | _ => None
  end.

Fixpoint lex (m : lexmode) (s : string) : option (list token) :=
  match s with
  | EmptyString => finish m
  | String c r =>
      match step m c with
      | None => None
      | Some (ts, m') =>
          match lex m' r with
          | None => None
          | Some rest => Some (ts ++ rest)%list
          end
      end
  end.

(** The enclosing containers still open, innermost first. *)
Inductive frame : Type :=
| FArr (done : list jsval)                          (* elements read, last first *)
| FObj (done : list (string * jsval)) (key : string). (* members read, and the key awaiting its value *)

Inductive pstate : Type :=
| SValue (stk : list frame)                               (* a value must start *)
| SArrOpen (stk : list frame)                             (* after [ *)
| SArrNext (done : list jsval) (stk : list frame)         (* after an element *)
| SObjOpen (stk : list frame)                             (* after { *)
| SObjKey (done : list (string * jsval)) (stk : list frame)   (* after , in an object *)
| SObjColon (done : list (string * jsval)) (key : string) (stk : list frame)
| SObjNext (done : list (string * jsval)) (stk : list frame)  (* after a member *)
| SDone (v : jsval).

(** A value is complete: hand it to the innermost open container. *)
Definition complete (v : jsval) (stk : list frame) : pstate :=
  match stk with
  | [] => SDone v
  | FArr done :: stk' => SArrNext (v :: done) stk'
  | FObj done key :: stk' => SObjNext ((key, v) :: done) stk'
  end.

Definition start_value (t : token) (stk : list frame) : option pstate :=
  match t with
  | TLBracket => Some (SArrOpen stk)
  | TLBrace => Some (SObjOpen stk)
  | TString s => Some (complete (JStr s) stk)
  | TNumber m e => Some (complete (JNum m e) stk)
  | TTrue => Some (complete (JBool true) stk)
  | TFalse => Some (complete (JBool false) stk)
  | TNull => Some (complete JNull stk)
  | _ => None
  end.

Definition feed (st : pstate) (t : token) : option pstate :=
  match st, t with
  | SValue stk, _ => start_value t stk
  | SArrOpen stk, TRBracket => Some (complete (JArr []) stk)
  | SArrOpen stk, _ => start_value t (FArr [] :: stk)
  | SArrNext done stk, TComma => Some (SValue (FArr done :: stk))
  | SArrNext done stk, TRBracket => Some (complete (JArr (rev done)) stk)
  | SObjOpen stk, TRBrace => Some (complete (JObj []) stk)
  | SObjOpen stk, TString k => Some (SObjColon [] k stk)
  | SObjKey done stk, TString k => Some (SObjColon done k stk)
  | SObjColon done k stk, TColon => Some (SValue (FObj done k :: stk))
  | SObjNext done stk, TComma => Some (SObjKey done stk)
  | SObjNext done stk, TRBrace => Some (complete (JObj (rev done)) stk)
  | _, _ => None
  end.

Fixpoint parse_tokens (st : pstate) (ts : list token) : option jsval :=
  match ts with
  | [] => match st with SDone v => Some v | _ => None end
  | t :: rest =>
      match feed st t with
      | None => None
      | Some st' => parse_tokens st' rest
      end
  end.

(** [JSON.parse(text)]; [None] is the [SyntaxError] it throws. *)
Definition JSON_parse (text : string) : option jsval :=
  match lex LStart text with
  | None => None
  | Some ts => parse_tokens (SValue []) ts
  end.

Definition hex_char (n : N) : ascii :=
  if (n <? 10)%N then ascii_of_N (48 + n) else ascii_of_N (87 + n).

(** A backslash and one more character. *)
Definition escape (c : ascii) : string := String backslash (String c "").

(** The characters [JSON.stringify] writes for one byte of a string. *)
Definition quote_char (c : ascii) : string :=
  if (c =? quotation_mark)%char then escape quotation_mark
  else if (c =? backslash)%char then escape backslash
  else if (c =? "008")%char then escape "b"
  else if (c =? "012")%char then escape "f"
  else if (c =? "010")%char then escape "n"
  else if (c =? "013")%char then escape "r"
  else if (c =? "009")%char then escape "t"
  else if (code c <? 32)%N then
    escape "u" ++ "00"
      ++ String (hex_char (code c / 16)) (String (hex_char (code c mod 16)) "")
  else String c "".

Fixpoint quote_body (s : string) : string :=
  match s with
  | EmptyString => ""
  | String c r => quote_char c ++ quote_body r
  end.

(** [JSON.stringify(s)] for a string [s] without surrogate code units. *)
Definition quote (s : string) : string :=
  String quotation_mark (quote_body s ++ String quotation_mark "").

(** [JSON.stringify(o)] for an object literal [o] whose properties, in
    order, all hold strings. *)
Fixpoint stringify_members (fields : list (string * string)) : string :=
  match fields with
  | [] => ""
  | [(k, v)] => quote k ++ ":" ++ quote v
  | (k, v) :: rest => quote k ++ ":" ++ quote v ++ "," ++ stringify_members rest
  end.

Definition stringify (fields : list (string * string)) : string :=
  "{" ++ stringify_members fields ++ "}".

End Json.
Import Json.

(* ================================================================== *)
(** * Agent data types ([lib/types/agent-data]) *)
(* ================================================================== *)

(** What [new Date().toISOString()] and [Date.now()] give during one call. *)
Record Clock : Type := mkClock {
  iso : string;
  millis : N
}.

(** [AgentResults].  A payload slot holds the result object itself;
    [None] is an absent ([undefined]) slot. *)
Record AgentResults : Type := mkResults {
  listings : option jsval;
  research : option jsval;
  sentiment : option jsval;
  media : option jsval;
  total_agents : Z;
  completed_agents : Z;
  active_agents : list string;
  last_updated : string
}.

(** [AgentSpawnEvent.data]; [priority], [reason] and [agent_id] are only
    logged and are left out. *)
Record AgentSpawnEvent : Type := mkSpawn {
  agent : string
}.

(** [AgentCompleteEvent.data]; [result] is [JUndefined] when absent;
    [agent_id] and [processing_time_ms] are only logged and are left out. *)
Record AgentCompleteEvent : Type := mkComplete {
  agent_type : string;
  success : bool;
  result : jsval
}.

(** [AgentDataItem]; [metadata] and [timestamp] are never read. *)
Record AgentDataItem : Type := mkItem {
  data : jsval
}.

(** [CarGeekState], with the fields the program reads.  [agent_data] and
    [current_results] are [None] when the property is missing; an object is
    its list of entries in [Object.entries] order. *)
Record CarGeekState : Type := mkState {
  agent_data : option (list (string * list AgentDataItem));
  state_active_agents : list string;
  current_results : option (list (string * jsval))
}.

(** [v === s] for a string literal [s]. *)
Definition is_string (v : jsval) (s : string) : bool :=
  match v with
  | JStr t => t =? s
  | _ => false
  end.

(** The type guards. *)
Definition isListingsResult (r : jsval) : bool := is_string (get r "agent_type") "listings".
Definition isResearchResult (r : jsval) : bool := is_string (get r "agent_type") "research".
Definition isSentimentResult (r : jsval) : bool := is_string (get r "agent_type") "sentiment".
Definition isMediaResult (r : jsval) : bool := is_string (get r "agent_type") "media".

(** Field updates, [r.f = v]. *)
Definition set_listings (v : option jsval) (r : AgentResults) : AgentResults :=
  mkResults v (research r) (sentiment r) (media r)
            (total_agents r) (completed_agents r) (active_agents r) (last_updated r).
Definition set_research (v : option jsval) (r : AgentResults) : AgentResults :=
  mkResults (listings r) v (sentiment r) (media r)
            (total_agents r) (completed_agents r) (active_agents r) (last_updated r).
Definition set_sentiment (v : option jsval) (r : AgentResults) : AgentResults :=
  mkResults (listings r) (research r) v (media r)
            (total_agents r) (completed_agents r) (active_agents r) (last_updated r).
Definition set_media (v : option jsval) (r : AgentResults) : AgentResults :=
  mkResults (listings r) (research r) (sentiment r) v
            (total_agents r) (completed_agents r) (active_agents r) (last_updated r).
Definition set_total_agents (n : Z) (r : AgentResults) : AgentResults :=
  mkResults (listings r) (research r) (sentiment r) (media r)
            n (completed_agents r) (active_agents r) (last_updated r).
Definition set_completed_agents (n : Z) (r : AgentResults) : AgentResults :=
  mkResults (listings r) (research r) (sentiment r) (media r)
            (total_agents r) n (active_agents r) (last_updated r).
Definition set_active_agents (l : list string) (r : AgentResults) : AgentResults :=
  mkResults (listings r) (research r) (sentiment r) (media r)
            (total_agents r) (completed_agents r) l (last_updated r).
Definition set_last_updated (t : string) (r : AgentResults) : AgentResults :=
  mkResults (listings r) (research r) (sentiment r) (media r)
            (total_agents r) (completed_agents r) (active_agents r) t.

(** The four agent kinds and the slot of each. *)
Inductive AgentType : Type := Listings | Research | Sentiment | Media.

Definition kind_name (k : AgentType) : string :=
  match k with
  | Listings => "listings"
  | Research => "research"
  | Sentiment => "sentiment"
  | Media => "media"
  end.

Definition slot (k : AgentType) (r : AgentResults) : option jsval :=
  match k with
  | Listings => listings r
  | Research => research r
  | Sentiment => sentiment r
  | Media => media r
  end.

Definition set_slot (k : AgentType) (v : option jsval) (r : AgentResults) : AgentResults :=
  match k with
  | Listings => set_listings v r
  | Research => set_research v r
  | Sentiment => set_sentiment v r
  | Media => set_media v r
  end.

Definition all_kinds : list AgentType := [Listings; Research; Sentiment; Media].

(** Number of populated payload slots. *)
Definition populated_slots (r : AgentResults) : Z :=
  Z.of_nat (List.length (filter (fun k => match slot k r with Some _ => true | None => false end)
                                all_kinds)).

(** [arr.includes(x)] on an array of strings. *)
Definition includes (l : list string) (x : string) : bool := existsb (String.eqb x) l.

(* ================================================================== *)
(** * class [AgentDataParser] *)
(* ================================================================== *)

Module AgentDataParser.

(** The object's two fields.  A listener is kept by its key, in [Map]
    insertion order; its callback is the subscriber's own code and is
    represented by the calls it receives. *)
Record t : Type := mk {
  agentResults : AgentResults;
  listeners : list string
}.

(** One call [callback(results)] made to the listener registered under
    [to]. *)
Record Call : Type := mkCall {
  to : string;
  snapshot : AgentResults
}.

(** One run of [notifyListeners]: the calls it made, in order. *)
Definition Pass : Type := list Call.

(** What the constructor and [reset] store. *)
Definition empty_results (c : Clock) : AgentResults :=
  mkResults None None None None 0 0 [] (iso c).

Definition new (c : Clock) : t := mk (empty_results c) [].

(** The first lines of [parseStreamingEvent]: the text without its SSE
    field marker. *)
Definition cleanData (eventData : string) : string :=
  if startsWith eventData "data: " then drop 6 eventData else eventData.

(** [parseStreamingEvent(eventData)].  The result is the parsed value
    itself, cast to [StreamingEvent] without any check; [JNull] is the
    [null] it returns, also from the [catch]. *)
Definition parseStreamingEvent (eventData : string) : jsval :=
  let cleanData := cleanData eventData in
  if trim_is_empty cleanData || (cleanData =? "[DONE]") then JNull
  else
    match JSON_parse cleanData with
    | Some parsed => parsed
    | None => JNull
    end.

(** [getResults()]: a shallow copy of the aggregate.  The copy shares
    the [active_agents] array with the aggregate, and [handleAgentSpawn]
    pushes onto that array; each push is followed at once by a pass that
    hands out the new aggregate, so a subscriber that keeps the latest copy
    sees the same values as here. *)
Definition getResults (p : t) : AgentResults := agentResults p.

(** [notifyListeners()]: every registered callback is called once with the
    same copy; an exception in one callback is caught and the loop goes on. *)
Definition notifyListeners (p : t) : Pass :=
  map (fun id => mkCall id (getResults p)) (listeners p).

(** [onUpdate(id, callback)]: [Map.set] keeps the place of a key that is
    already present. *)
Definition onUpdate (id : string) (p : t) : t :=
  if includes (listeners p) id then p
  else mk (agentResults p) (listeners p ++ [id]).

(** [offUpdate(id)] *)
Definition offUpdate (id : string) (p : t) : t :=
  mk (agentResults p) (filter (fun k => negb (k =? id)) (listeners p)).

(** [handleAgentSpawn(event)]: the new object state and the notification
    passes made. *)
Definition handleAgentSpawn (c : Clock) (event : AgentSpawnEvent) (p : t)
  : t * list Pass :=
  let agentType := agent event in
  let r := agentResults p in
  let r1 :=
    if negb (includes (active_agents r) agentType) then
      set_total_agents (total_agents r + 1)
        (set_active_agents (active_agents r ++ [agentType]) r)
    else r in
  let r2 := set_last_updated (iso c) r1 in
  let p' := mk r2 (listeners p) in
  (p', [notifyListeners p']).

(** The [if / else if] chain of [handleAgentComplete] that stores the
    result in the slot its own [agent_type] names. *)
Definition store_result (res : jsval) (r : AgentResults) : AgentResults :=
  if isListingsResult res then set_listings (Some res) r
  else if isResearchResult res then set_research (Some res) r
  else if isSentimentResult res then set_sentiment (Some res) r
  else if isMediaResult res then set_media (Some res) r
  else r.

(** [handleAgentComplete(event)] *)
Definition handleAgentComplete (c : Clock) (event : AgentCompleteEvent) (p : t)
  : t * list Pass :=
  if negb (success event) || negb (truthy (result event)) then (p, [])
  else
    let r := agentResults p in
    let r1 :=
      set_active_agents
        (filter (fun a => negb (a =? agent_type event)) (active_agents r)) r in
    let r2 := set_completed_agents (completed_agents r1 + 1) r1 in
    let r3 := store_result (result event) r2 in
    let r4 := set_last_updated (iso c) r3 in
    let p' := mk r4 (listeners p) in
    (p', [notifyListeners p']).

(** A run of spawn events through [handleAgentSpawn]. *)
Definition spawn_each (evs : list (Clock * AgentSpawnEvent)) (p : t) : t :=
  fold_left (fun p ce => fst (handleAgentSpawn (fst ce) (snd ce) p)) evs p.

(** [reset()] *)
Definition reset (c : Clock) (p : t) : t * list Pass :=
  let p' := mk (empty_results c) (listeners p) in
  (p', [notifyListeners p']).

(** [isComplete()] *)
Definition isComplete (p : t) : bool :=
  (List.length (active_agents (agentResults p)) =? 0)%nat
  && (0 <? completed_agents (agentResults p))%Z.

Definition field (k : string) (v : jsval) : string * jsval := (k, v).

(** [parseListingsData(data)]; [None] is the [TypeError] of reading a
    property of [null] or [undefined]. *)
Definition parseListingsData (c : Clock) (d : jsval) : option jsval :=
  if nullish d then None
  else Some (JObj [
    field "agent_type" (JStr "listings");
    field "agent_id" (or_else (get d "agent_id") (JStr ("listings_" ++ decimal (millis c))));
    field "success" (JBool true);
    field "total_found" (or_else (get d "total_found") (JNum 0 0));
    field "returned_count" (or_else (get d "returned_count") (JNum 0 0));
    field "listings" (or_else (get d "listings") (JArr []));
    field "market_intelligence" (get d "market_intelligence");
    field "search_context" (get d "search_context");
    field "recommendations" (get d "recommendations");
    field "executive_summary" (get d "executive_summary");
    field "key_insights" (or_else (get d "key_insights") (JArr []));
    field "search_duration_ms" (get d "search_duration_ms");
    field "data_sources" (or_else (get d "data_sources") (JArr []));
    field "warnings" (or_else (get d "warnings") (JArr []))
  ]).

(** [parseResearchData(data)] *)
Definition parseResearchData (c : Clock) (d : jsval) : option jsval :=
  if nullish d then None
  else Some (JObj [
    field "agent_type" (JStr "research");
    field "agent_id" (or_else (get d "agent_id") (JStr ("research_" ++ decimal (millis c))));
    field "success" (JBool true);
    field "technical_specs" (get d "technical_specs");
    field "features" (get d "features");
    field "performance" (get d "performance");
    field "research_summary" (get d "research_summary");
    field "data_sources" (or_else (get d "data_sources") (JArr []));
    field "reliability_rating" (get d "reliability_rating")
  ]).

(** [parseSentimentData(data)] *)
Definition parseSentimentData (c : Clock) (d : jsval) : option jsval :=
  if nullish d then None
  else Some (JObj [
    field "agent_type" (JStr "sentiment");
    field "agent_id" (or_else (get d "agent_id") (JStr ("sentiment_" ++ decimal (millis c))));
    field "success" (JBool true);
    field "overall_sentiment" (or_else (get d "overall_sentiment") (JStr "neutral"));
    field "sentiment_score" (or_else (get d "sentiment_score") (JNum 0 0));
    field "categories" (get d "categories");
    field "positive_highlights" (or_else (get d "positive_highlights") (JArr []));
    field "negative_concerns" (or_else (get d "negative_concerns") (JArr []));
    field "common_complaints" (or_else (get d "common_complaints") (JArr []));
    field "owner_recommendations" (or_else (get d "owner_recommendations") (JArr []));
    field "review_count" (get d "review_count");
    field "sources" (or_else (get d "sources") (JArr []));
    field "analysis_date" (get d "analysis_date")
  ]).

(** [parseMediaData(data)] *)
Definition parseMediaData (c : Clock) (d : jsval) : option jsval :=
  if nullish d then None
  else Some (JObj [
    field "agent_type" (JStr "media");
    field "agent_id" (or_else (get d "agent_id") (JStr ("media_" ++ decimal (millis c))));
    field "success" (JBool true);
    field "images" (or_else (get d "images") (JArr []));
    field "videos" (or_else (get d "videos") (JArr []));
    field "galleries" (or_else (get d "galleries") (JArr []));
    field "total_media_count" (or_else (get d "total_media_count") (JNum 0 0));
    field "media_sources" (or_else (get d "media_sources") (JArr []));
    field "featured_media" (or_else (get d "featured_media") (JArr []));
    field "high_quality_count" (or_else (get d "high_quality_count") (JNum 0 0));
    field "official_media_count" (or_else (get d "official_media_count") (JNum 0 0))
  ]).

(** The [switch (agentType)] of [parseStateData]; [None] is an exception
    thrown inside the [try]. *)
Definition parse_into (c : Clock) (agentType : string) (d : jsval)
                      (results : AgentResults) : option AgentResults :=
  if agentType =? "listings" then
    option_map (fun v => set_listings (Some v) results) (parseListingsData c d)
  else if agentType =? "research" then
    option_map (fun v => set_research (Some v) results) (parseResearchData c d)
  else if agentType =? "sentiment" then
    option_map (fun v => set_sentiment (Some v) results) (parseSentimentData c d)
  else if agentType =? "media" then
    option_map (fun v => set_media (Some v) results) (parseMediaData c d)
  else Some results.

(** The body of the [forEach] over [Object.entries(state.agent_data)]. *)
Definition parse_entry (c : Clock) (results : AgentResults)
                       (entry : string * list AgentDataItem) : AgentResults :=
  let '(agentType, dataItems) := entry in
  match rev dataItems with            (* dataItems[dataItems.length - 1] *)
  | [] => results
  | latestData :: _ =>
      match parse_into c agentType (data latestData) results with
      | Some results' =>
          set_completed_agents (completed_agents results' + 1) results'
      | None => results
      end
  end.

(** [parseStateData(state)]: it reads neither [this.agentResults] nor the
    listeners and changes no field of the object. *)
Definition parseStateData (c : Clock) (state : CarGeekState) : AgentResults :=
  let results := mkResults None None None None 0 0 (state_active_agents state) (iso c) in
  let results :=
    match agent_data state with
    | Some entries => fold_left (parse_entry c) entries results
    | None => results
    end in
  set_total_agents
    (completed_agents results + Z.of_nat (List.length (active_agents results)))
    results.

End AgentDataParser.

(* ================================================================== *)
(** * The stream consumer ([vehicle-profile-dashboard-old.tsx]) *)
(* ================================================================== *)

Module Dashboard.

Import AgentDataParser.

(** The component: its React state [agentResults], the key under which its
    callback [updateAgentResults] is registered, and the parser singleton. *)
Record t : Type := mk {
  parserId : string;
  parser : AgentDataParser.t;
  agentResults : AgentResults
}.

(** [updateAgentResults] is [setAgentResults(newResults)]: each call
    addressed to this component replaces its state. *)
Definition receive (id : string) (passes : list Pass) (view : AgentResults)
  : AgentResults :=
  fold_left
    (fun v pass => fold_left (fun v call => if to call =? id then snapshot call else v) pass v)
    passes view.

(** The three envelopes the component acts on, at the types their
    handlers declare. *)
Inductive Envelope : Type :=
| agent_spawn (e : AgentSpawnEvent)
| agent_complete (e : AgentCompleteEvent)
| state_snapshot (s : CarGeekState).

(** The branch of [onData] for an object: [parseStateData] and
    [setAgentResults(parsedResults)]. *)
Definition onStateObject (c : Clock) (rawData : CarGeekState) (d : t) : t :=
  match agent_data rawData, current_results rawData with
  | None, None => d
  | _, _ => mk (parserId d) (parser d) (parseStateData c rawData)
  end.

Definition after_handler (d : t) (r : AgentDataParser.t * list Pass) : t :=
  mk (parserId d) (fst r) (receive (parserId d) (snd r) (agentResults d)).

(** One envelope applied: the handler runs on the parser, and the calls it
    makes reach the component. *)
Definition apply (c : Clock) (env : Envelope) (d : t) : t :=
  match env with
  | agent_spawn e => after_handler d (handleAgentSpawn c e (parser d))
  | agent_complete e => after_handler d (handleAgentComplete c e (parser d))
  | state_snapshot s => onStateObject c s d
  end.

(** Where the [switch (streamEvent.type)] sends a decoded value. *)
Inductive Routed : Type :=
| ToHandler (env : Envelope)
| HandlerThrows   (* [event.data] is null or undefined: the handler throws
                     on its first line and [onData] catches *)
| NoHandler       (* falsy value, or no [case] for its [type] *)
| OutsideTypes.   (* the handler would run on a value that does not have
                     its parameter type; not modelled *)

Definition route (streamEvent : jsval) : Routed :=
  if truthy streamEvent then
    let d := get streamEvent "data" in
    if is_string (get streamEvent "type") "agent_spawn" then
      if nullish d then HandlerThrows
      else
        match get d "agent" with
        | JStr a => ToHandler (agent_spawn (mkSpawn a))
        | _ => OutsideTypes
        end
    else if is_string (get streamEvent "type") "agent_complete" then
      if nullish d then HandlerThrows
      else
        match get d "agent_type" with
        | JStr a =>
            ToHandler (agent_complete
                         (mkComplete a (truthy (get d "success")) (get d "result")))
        | _ => OutsideTypes
        end
    else NoHandler
  else NoHandler.

(** The branch of [onData] for a string; [None] when the value is outside
    the handlers' types. *)
Definition onString (c : Clock) (rawData : string) (d : t) : option t :=
  match route (parseStreamingEvent rawData) with
  | ToHandler env => Some (apply c env d)
  | HandlerThrows | NoHandler => Some d
  | OutsideTypes => None
  end.

(** A run: every state the component goes through, first to last. *)
Fixpoint trajectory (evs : list (Clock * Envelope)) (d : t) : list t :=
  match evs with
  | [] => [d]
  | (c, env) :: rest => d :: trajectory rest (apply c env d)
  end.

Definition run (evs : list (Clock * Envelope)) (d : t) : t :=
  fold_left (fun d ce => apply (fst ce) (snd ce) d) evs d.

(** The component as it mounts: an empty aggregate, and its callback
    registered with a fresh parser. *)
Definition mount (c : Clock) (id : string) : t :=
  mk id (onUpdate id (AgentDataParser.new c)) (empty_results c).

(** A successful completion is announced when its kind is in flight. *)
Definition announced (env : Envelope) (d : t) : bool :=
  match env with
  | agent_complete e =>
      if success e && truthy (result e) then
        includes (active_agents (AgentDataParser.agentResults (parser d))) (agent_type e)
      else true
  | _ => true
  end.

Fixpoint all_announced (evs : list (Clock * Envelope)) (d : t) : bool :=
  match evs with
  | [] => true
  | (c, env) :: rest => announced env d && all_announced rest (apply c env d)
  end.

End Dashboard.

(* ================================================================== *)
(** * The stream proxies *)
(* ================================================================== *)

Module Proxy.

Definition nl : string := String LF "".

(** How the upstream body ends: normally, with an error whose message
    contains "timeout", or with another error. *)
Inductive Ending : Type := EndOfStream | Timeout | Fault.

(** The upstream response: its status and its body as the text
    [TextDecoder] gives for each chunk read. *)
Record Upstream : Type := mkUpstream {
  up_status : N;
  up_chunks : list string;
  up_ending : Ending
}.

(** The outcome of everything up to and including [await fetch(...)]:
    a response, or an exception thrown on the way (reading the request
    body, building the message, or the fetch itself) with its message
    when it is an [Error]. *)
Inductive Fetched : Type :=
| Responded (u : Upstream)
| Threw (message : option string).

Inductive Body : Type :=
| Text (s : string)
| Streamed (chunks : list string) (errored : bool).

Record Response : Type := mkResponse {
  status : N;
  headers : list (string * string);
  body : Body
}.

Definition header (name : string) (r : Response) : option string :=
  match find (fun h => fst h =? name) (headers r) with
  | Some h => Some (snd h)
  | None => None
  end.

(** [response.ok] *)
Definition ok (u : Upstream) : bool := (200 <=? up_status u)%N && (up_status u <=? 299)%N.

(** The [try] block up to the [throw]: the upstream response when it is
    2xx, otherwise what the [catch] receives. *)
Definition attempt (f : Fetched) : Upstream + option string :=
  match f with
  | Responded u =>
      if negb (ok u) then inr (Some ("Backend returned " ++ decimal (up_status u)))
      else inl u
  | Threw m => inr m
  end.

(** [error instanceof Error ? error.message : 'Unknown error'] *)
Definition message_of (e : option string) : string :=
  match e with
  | Some m => m
  | None => "Unknown error"
  end.

(** ** [/api/cargeek-stream] *)
Module CargeekStream.

(** [transform(chunk, controller)] on the decoded text of a chunk: the new
    [buffer] and the events enqueued.  The [JSON.parse] inside only feeds
    the log, in a [try] of its own. *)
Definition transform (buffer text : string) : string * list string :=
  let buffer := buffer ++ text in
  let lines := split_lines buffer in
  let buffer' := last lines "" in         (* lines.pop() || '' *)
  let lines := removelast lines in
  (buffer',
   flat_map (fun line =>
               if startsWith line "data: " then
                 let data := drop 6 line in
                 ["data: " ++ data ++ nl ++ nl]
               else []) lines).

(** [flush(controller)] *)
Definition flush (buffer : string) : list string :=
  if negb (trim_is_empty buffer) then
    if startsWith buffer "data: " then [buffer ++ nl ++ nl] else []
  else [].

(** The read loop writing every chunk to the transform; what has been
    enqueued and the buffer left. *)
Fixpoint write_all (buffer : string) (chunks : list string) : string * list string :=
  match chunks with
  | [] => (buffer, [])
  | text :: rest =>
      let '(buffer1, out1) := transform buffer text in
      let '(buffer2, out2) := write_all buffer1 rest in
      (buffer2, out1 ++ out2)%list
  end.

(** The whole pipe: [writer.close()] runs [flush]; [writer.abort] does not. *)
Definition pipe (u : Upstream) : Body :=
  let '(buffer, out) := write_all "" (up_chunks u) in
  match up_ending u with
  | EndOfStream | Timeout => Streamed (out ++ flush buffer)%list false
  | Fault => Streamed out true
  end.

Definition stream_headers : list (string * string) :=
  [("Content-Type", "text/event-stream");
   ("Cache-Control", "no-cache");
   ("Connection", "keep-alive");
   ("x-vercel-ai-ui-message-stream", "v1")].

(** [POST(request)]; a [Response] built without [status] has status 200. *)
Definition POST (f : Fetched) : Response :=
  match attempt f with
  | inl u => mkResponse 200 stream_headers (pipe u)
  | inr e =>
      let errorMessage := message_of e in
      let errorEvent := [("type", "error"); ("errorText", errorMessage)] in
      mkResponse 200 stream_headers
        (Text ("data: " ++ stringify errorEvent ++ nl ++ nl ++ "data: [DONE]" ++ nl ++ nl))
  end.

End CargeekStream.

(** ** [/api/vehicle-stream] *)
Module VehicleStream.

(** The [ReadableStream]: every chunk is decoded, encoded again and
    enqueued; a read error makes the stream fail. *)
Definition forward (u : Upstream) : Body :=
  match up_ending u with
  | EndOfStream => Streamed (up_chunks u) false
  | Timeout | Fault => Streamed (up_chunks u) true
  end.

Definition stream_headers (sessionId : string) : list (string * string) :=
  [("Content-Type", "text/event-stream");
   ("Cache-Control", "no-cache, no-store, must-revalidate");
   ("Connection", "keep-alive");
   ("Access-Control-Allow-Origin", "*");
   ("Access-Control-Allow-Methods", "GET, POST, OPTIONS");
   ("Access-Control-Allow-Headers", "Content-Type, Authorization");
   ("X-Vehicle-Request", "true");
   ("X-Session-ID", sessionId)].

(** [POST(request)] *)
Definition POST (sessionId : string) (f : Fetched) : Response :=
  match attempt f with
  | inl u => mkResponse 200 (stream_headers sessionId) (forward u)
  | inr e =>
      mkResponse 500 [("Content-Type", "application/json")]
        (Text (stringify [("error", "Vehicle stream failed");
                          ("details", message_of e)]))
  end.

End VehicleStream.

End Proxy.

(* ================================================================== *)
(** * The properties, in the specification's words *)
(* ================================================================== *)

Module Claimed.

Import Proxy.

(** All the upstream text, chunk boundaries forgotten. *)
Definition whole (chunks : list string) : string := fold_right append "" chunks.

(** The complete lines of a text: those ended by a line feed. *)
Definition complete_lines (text : string) : list string := removelast (split_lines text).

(** The incomplete trailing line: what follows the last line feed. *)
Definition trailing_line (text : string) : string := last (split_lines text) "".

(** Only complete lines beginning with the data marker are forwarded, each
    as the marker, its body unmodified, and two newlines. *)
Definition forwarded (text : string) : list string :=
  map (fun line => "data: " ++ drop 6 line ++ nl ++ nl)
      (filter (fun line => startsWith line "data: ") (complete_lines text)).

(** At end of stream the trailing line is flushed only if it begins with
    the data marker. *)
Definition flushed (text : string) : list string :=
  let rest := trailing_line text in
  if startsWith rest "data: " then [rest ++ nl ++ nl] else [].

(** The snapshot's payload for a kind: the data of the latest item of the
    entry of [agent_data] under the kind's name. *)
Definition latest (items : list AgentDataItem) : option jsval :=
  match rev items with
  | [] => None
  | item :: _ => Some (data item)
  end.

Definition parse_kind (c : Clock) (k : AgentType) (d : jsval) : option jsval :=
  match k with
  | Listings => AgentDataParser.parseListingsData c d
  | Research => AgentDataParser.parseResearchData c d
  | Sentiment => AgentDataParser.parseSentimentData c d
  | Media => AgentDataParser.parseMediaData c d
  end.

Definition snapshot_slot (c : Clock) (k : AgentType)
                         (entries : list (string * list AgentDataItem)) : option jsval :=
  match find (fun e => fst e =? kind_name k) entries with
  | Some (_, items) =>
      match latest items with
      | Some d => parse_kind c k d
      | None => None
      end
  | None => None
  end.

Definition kind_of_name (name : string) : option AgentType :=
  find (fun k => name =? kind_name k) all_kinds.

(** An entry that is counted as completed: it has items, and when its key
    names one of the four kinds its latest data is an object to read. *)
Definition counted (e : string * list AgentDataItem) : bool :=
  match latest (snd e) with
  | None => false
  | Some d =>
      match kind_of_name (fst e) with
      | Some _ => negb (nullish d)
      | None => true
      end
  end.

(** Every spawned agent is in flight or has completed: the bound that
    keeps [completed_agents] below [total_agents]. *)
Definition accounted (r : AgentResults) : Prop :=
  NoDup (active_agents r)
  /\ (completed_agents r + Z.of_nat (List.length (active_agents r)) <= total_agents r)%Z.

Definition completed_le_total (r : AgentResults) : Prop :=
  (completed_agents r <= total_agents r)%Z.

(** The invariant of a run: the parser accounts for every spawned agent,
    and the aggregate the component shows keeps the bound. *)
Definition steady (d : Dashboard.t) : Prop :=
  accounted (AgentDataParser.agentResults (Dashboard.parser d))
  /\ completed_le_total (Dashboard.agentResults d).

End Claimed.

(* ================================================================== *)
(** * Concrete inputs *)
(* ================================================================== *)

Module Scenario.

Import AgentDataParser.

Definition t0 : Clock := mkClock "2025-03-01T10:00:00.000Z" 1740823200000.
Definition t1 : Clock := mkClock "2025-03-01T10:00:05.000Z" 1740823205000.

(** Scenario 2 of the specification: [research] then [media] are
    spawned, then [research] reports a failure. *)
Definition two_spawned : AgentDataParser.t :=
  spawn_each [(t0, mkSpawn "research"); (t0, mkSpawn "media")] (AgentDataParser.new t0).

Definition research_failed : AgentCompleteEvent := mkComplete "research" false JUndefined.

(** A parser with one listener in which [listings] is in flight. *)
Definition listings_spawned : AgentDataParser.t :=
  fst (handleAgentSpawn t0 (mkSpawn "listings") (onUpdate "vehicle-tesla-model-3" (AgentDataParser.new t0))).

Definition five_found : jsval :=
  JObj [("agent_type", JStr "listings"); ("agent_id", JStr "a1"); ("success", JBool true);
        ("total_found", JNum 5 0)].

Definition seven_found : jsval :=
  JObj [("agent_type", JStr "listings"); ("agent_id", JStr "a2"); ("success", JBool true);
        ("total_found", JNum 7 0)].

(** The same kind is spawned once more while it is in flight. *)
Definition duplicate_spawn : AgentDataParser.t * list Pass :=
  handleAgentSpawn t1 (mkSpawn "listings") listings_spawned.

(** [listings] has completed once, with five listings found. *)
Definition listings_completed : AgentDataParser.t :=
  fst (handleAgentComplete t0 (mkComplete "listings" true five_found) listings_spawned).

(** A line whose JSON is well formed and whose type is none of the three
    kinds. *)
Definition orchestration_line : string := dq "data: {'type': 'orchestration_complete'}".

(** A snapshot that carries a [listings] payload and data of a fifth
    agent. *)
Definition snapshot_seven : CarGeekState :=
  mkState (Some [("listings", [mkItem seven_found])]) [] None.

Definition snapshot_analytics : CarGeekState :=
  mkState (Some [("analytics", [mkItem (JObj [("trend", JStr "up")])])]) [] None.

(** The component after [listings] completed locally with five found. *)
Definition dashboard_five : Dashboard.t :=
  Dashboard.run [(t0, Dashboard.agent_spawn (mkSpawn "listings"));
                 (t0, Dashboard.agent_complete (mkComplete "listings" true five_found))]
                (Dashboard.mount t0 "vehicle-tesla-model-3").

(** A successful completion that no spawn announced. *)
Definition unannounced : Dashboard.t :=
  Dashboard.apply t0 (Dashboard.agent_complete (mkComplete "listings" true five_found))
                  (Dashboard.mount t0 "vehicle-tesla-model-3").

(** Two spawns, a failure, a success, a repeated spawn and a snapshot. *)
Definition full_run : list (Clock * Dashboard.Envelope) :=
  [(t0, Dashboard.agent_spawn (mkSpawn "listings"));
   (t0, Dashboard.agent_spawn (mkSpawn "research"));
   (t1, Dashboard.agent_complete research_failed);
   (t1, Dashboard.agent_complete (mkComplete "listings" true five_found));
   (t1, Dashboard.agent_spawn (mkSpawn "research"));
   (t1, Dashboard.state_snapshot snapshot_seven)].

(** An upstream that answers 503. *)
Definition unavailable : Proxy.Upstream := Proxy.mkUpstream 503 [] Proxy.EndOfStream.

End Scenario.

(* ================================================================== *)
(** * Server-sent events as the proxy writes them *)
(* ================================================================== *)

Module Sse.

(** The text holds no line feed. *)
Fixpoint no_line_feed (s : string) : bool :=
  match s with
  | EmptyString => true
  | String c r => negb (c =? LF)%char && no_line_feed r
  end.

(** One event in the shape the chat-stream proxy writes: the data marker,
    a body, two line feeds. *)
Definition event (body : string) : string := "data: " ++ body ++ Proxy.nl ++ Proxy.nl.

(** A stream of such events, one after the other. *)
Definition stream (bodies : list string) : string :=
  fold_right (fun b rest => event b ++ rest) "" bodies.

(** A text given by its lines: every complete line followed by a line
    feed, then the unterminated rest. *)
Definition text_of_lines (ls : list string) (rest : string) : string :=
  fold_right (fun l text => l ++ Proxy.nl ++ text) rest ls.

(** The lines that begin with the data marker. *)
Definition data_lines (ls : list string) : list string :=
  filter (String.prefix "data: ") ls.

(** A line sent on as an event: the line as it came, then two line
    feeds. *)
Definition as_event (l : string) : string := l ++ Proxy.nl ++ Proxy.nl.

(** A scanner mode in which a line feed cannot be the awaited character. *)
Definition settled (m : Json.lexmode) : Prop :=
  match m with
  | Json.LWord rest _ => no_line_feed rest = true
  | _ => True
  end.

(** The first line of the body the chat-stream proxy answers with when it
    has caught an error with this message. *)
Definition error_line (message : string) : string :=
  "data: " ++ stringify [("type", "error"); ("errorText", message)].

End Sse.

(* ================================================================== *)
(** * More of class [AgentDataParser] *)
(* ================================================================== *)

Module ParserOps.

Import AgentDataParser.

(** The object [getLoadingState()] returns. *)
Record LoadingState : Type := mkLoading {
  loading_listings : bool;
  loading_research : bool;
  loading_sentiment : bool;
  loading_media : bool
}.

Definition loading (k : AgentType) (s : LoadingState) : bool :=
  match k with
  | Listings => loading_listings s
  | Research => loading_research s
  | Sentiment => loading_sentiment s
  | Media => loading_media s
  end.

(** [getLoadingState()] *)
Definition getLoadingState (p : t) : LoadingState :=
  let active := active_agents (agentResults p) in
  mkLoading
    (includes active "listings" || includes active "listings_agent")
    (includes active "research" || includes active "research_agent")
    (includes active "sentiment" || includes active "sentiment_agent")
    (includes active "media" || includes active "media_agent").

(** The calls a client can make on the parser object. *)
Inductive Op : Type :=
| Subscribe (id : string)                          (* onUpdate(id, callback) *)
| Unsubscribe (id : string)                        (* offUpdate(id) *)
| Spawn (c : Clock) (e : AgentSpawnEvent)          (* handleAgentSpawn(event) *)
| Complete (c : Clock) (e : AgentCompleteEvent)    (* handleAgentComplete(event) *)
| Reset (c : Clock).                               (* reset() *)

Definition perform (op : Op) (p : t) : t * list Pass :=
  match op with
  | Subscribe id => (onUpdate id p, [])
  | Unsubscribe id => (offUpdate id p, [])
  | Spawn c e => handleAgentSpawn c e p
  | Complete c e => handleAgentComplete c e p
  | Reset c => reset c p
  end.

(** A sequence of calls: the final object and every pass made, in order. *)
Fixpoint perform_all (ops : list Op) (p : t) : t * list Pass :=
  match ops with
  | [] => (p, [])
  | op :: rest =>
      let '(p1, passes1) := perform op p in
      let '(p2, passes2) := perform_all rest p1 in
      (p2, passes1 ++ passes2)%list
  end.

(** The fields each of the four parsers gives a default with [||]. *)
Definition defaulted (k : AgentType) : list string :=
  match k with
  | Listings =>
      ["agent_id"; "total_found"; "returned_count"; "listings"; "key_insights";
       "data_sources"; "warnings"]
  | Research => ["agent_id"; "data_sources"]
  | Sentiment =>
      ["agent_id"; "overall_sentiment"; "sentiment_score"; "positive_highlights";
       "negative_concerns"; "common_complaints"; "owner_recommendations"; "sources"]
  | Media =>
      ["agent_id"; "images"; "videos"; "galleries"; "total_media_count";
       "media_sources"; "featured_media"; "high_quality_count"; "official_media_count"]
  end.

(** Every slot filled has been counted. *)
Definition counted_slots (p : t) : Prop :=
  (populated_slots (agentResults p) <= completed_agents (agentResults p))%Z.

End ParserOps.

(* ================================================================== *)
(** * The widgets' helpers ([modular-vehicle-dashboard.tsx],
      [agent-status-grid.tsx]) *)
(* ================================================================== *)

Module Widgets.

(** [!!slot] *)
Definition present (o : option jsval) : bool :=
  match o with
  | Some v => truthy v
  | None => false
  end.

(** The [completedCount] of [calculateProgress]. *)
Definition completedCount (results : AgentResults) : nat :=
  List.length
    (filter (fun b : bool => b)
       [present (listings results); present (research results);
        present (sentiment results); present (media results)]).

(** [calculateProgress(results)]: [(completedCount / 4) * 100].  The
    count is at most four, so the quotient and the product are exact and
    the value is the integer written here. *)
Definition calculateProgress (results : AgentResults) : Z :=
  let totalAgents := 4%Z in
  (Z.of_nat (completedCount results) * 100 / totalAgents)%Z.

(** [isAnyLoading(results)] *)
Definition isAnyLoading (results : AgentResults) : bool :=
  (0 <? List.length (active_agents results))%nat.

(** [hasAnyData(results)] *)
Definition hasAnyData (results : AgentResults) : bool :=
  present (listings results) || present (research results)
  || present (sentiment results) || present (media results).

(** [getWidgetLoadingStates(results)] *)
Definition getWidgetLoadingStates (results : AgentResults) : ParserOps.LoadingState :=
  ParserOps.mkLoading
    (includes (active_agents results) "listings")
    (includes (active_agents results) "research")
    (includes (active_agents results) "sentiment")
    (includes (active_agents results) "media").

(** What an [AgentStatusCard] shows. *)
Inductive CardStatus : Type := Complete | Processing | Pending.

(** The label of [AgentStatusCard]. *)
Definition card_label (isActive hasData : bool) : CardStatus :=
  let isComplete := hasData && negb isActive in
  if isComplete then Complete else if isActive then Processing else Pending.

(** The card [AgentStatusGrid] renders for one kind. *)
Definition card (k : AgentType) (agentResults : AgentResults) : CardStatus :=
  card_label (includes (active_agents agentResults) (kind_name k))
             (present (slot k agentResults)).

End Widgets.

(* ================================================================== *)
(** * class [SessionManager] ([lib/session-manager.ts]) *)
(* ================================================================== *)

Module SessionManager.

(** ['chat' | 'vehicle-profile'] *)
Inductive Interface : Type := chat | vehicle_profile.

Definition Interface_eqb (a b : Interface) : bool :=
  match a, b with
  | chat, chat | vehicle_profile, vehicle_profile => true
  | _, _ => false
  end.

(** [SessionInfo]; the two dates are kept as their milliseconds, and the
    [Set] of interfaces as its elements in insertion order. *)
Record SessionInfo : Type := mkSession {
  sessionId : string;
  vehicleId : string;
  userId : option string;
  createdAt : N;
  lastActivity : N;
  activeInterfaces : list Interface
}.

(** The [activeSessions] map: its entries in insertion order. *)
Definition t : Type := list (string * SessionInfo).

(** [`${userId || 'anonymous'}-${vehicleId}`]: a missing and an empty
    [userId] are both falsy. *)
Definition sessionKey (vehicleId : string) (userId : option string) : string :=
  (match userId with
   | Some u => if u =? "" then "anonymous" else u
   | None => "anonymous"
   end) ++ "-" ++ vehicleId.

(** [activeSessions.get(key)] *)
Definition session_of_key (key : string) (m : t) : option SessionInfo :=
  match find (fun e => fst e =? key) m with
  | Some e => Some (snd e)
  | None => None
  end.

Definition set_lastActivity (now : N) (s : SessionInfo) : SessionInfo :=
  mkSession (sessionId s) (vehicleId s) (userId s) (createdAt s) now (activeInterfaces s).

(** [session.lastActivity = new Date()] on the record stored under a key. *)
Fixpoint touch (now : N) (key : string) (m : t) : t :=
  match m with
  | [] => []
  | (k, s) :: rest =>
      if k =? key then (k, set_lastActivity now s) :: rest
      else (k, s) :: touch now key rest
  end.

(** The record [getVehicleSession] creates. *)
Definition fresh (c : Clock) (vehicleId : string) (userId : option string) : SessionInfo :=
  mkSession ("session-" ++ vehicleId ++ "-" ++ decimal (millis c))
            vehicleId userId (millis c) (millis c) [vehicle_profile].

(** [getVehicleSession(vehicleId, userId)]: the map afterwards and the
    session id returned.  A record just created already has the current
    time as its last activity. *)
Definition getVehicleSession (c : Clock) (vehicleId : string) (userId : option string)
                             (m : t) : t * string :=
  let sessionKey := sessionKey vehicleId userId in
  match session_of_key sessionKey m with
  | None =>
      let sessionInfo := fresh c vehicleId userId in
      ((m ++ [(sessionKey, sessionInfo)])%list, sessionId sessionInfo)
  | Some session => (touch (millis c) sessionKey m, sessionId session)
  end.

(** [activeInterfaces.add(interfaceType)] *)
Definition add_interface (i : Interface) (l : list Interface) : list Interface :=
  if existsb (Interface_eqb i) l then l else (l ++ [i])%list.

(** [shareSession(sessionId, interfaceType)]: the first record with that
    session id, then [break]. *)
Fixpoint shareSession (c : Clock) (sid : string) (interfaceType : Interface) (m : t) : t :=
  match m with
  | [] => []
  | (k, s) :: rest =>
      if sessionId s =? sid then
        (k, mkSession (sessionId s) (vehicleId s) (userId s) (createdAt s) (millis c)
                      (add_interface interfaceType (activeInterfaces s))) :: rest
      else (k, s) :: shareSession c sid interfaceType rest
  end.

(** [getSessionInfo(sessionId)] *)
Definition getSessionInfo (sid : string) (m : t) : option SessionInfo :=
  match find (fun e => sessionId (snd e) =? sid) m with
  | Some e => Some (snd e)
  | None => None
  end.

(** Twenty-four hours, in milliseconds. *)
Definition retention : Z := 24 * 60 * 60 * 1000.

(** [session.lastActivity < cutoff] *)
Definition expired (c : Clock) (s : SessionInfo) : bool :=
  (Z.of_N (lastActivity s) <? Z.of_N (millis c) - retention)%Z.

(** [cleanupOldSessions()] *)
Definition cleanupOldSessions (c : Clock) (m : t) : t :=
  filter (fun e => negb (expired c (snd e))) m.

End SessionManager.

(* ================================================================== *)
(** * The reducers inside the components ([chat.tsx],
      [vehicle-profile-dashboard.tsx]) *)
(* ================================================================== *)

Module Components.

Import Widgets.

(** What a run of component code does to the React state [agentResults]. *)
Inductive Outcome : Type :=
| Updated (r : AgentResults)   (* [setAgentResults(r)] was called *)
| Unchanged                    (* it was not called *)
| Untyped.                     (* an agent name that is no string would be
                                  stored in [active_agents]: not modelled *)

(** [slot = v]: a slot that is assigned [undefined] reads as an absent
    one. *)
Definition assign (v : jsval) : option jsval :=
  match v with
  | JUndefined => None
  | _ => Some v
  end.

(** [Array.isArray(data) ? data[0] : data] *)
Definition first_or_self (data : jsval) : jsval :=
  match data with
  | JArr [] => JUndefined
  | JArr (x :: _) => x
  | _ => data
  end.

(** A part of a message: its [type] and its [data] ([JUndefined] when the
    part has none). *)
Record Part : Type := mkPart {
  part_type : string;
  part_data : jsval
}.

(** A message: its [parts], [None] when it has none. *)
Record Message : Type := mkMessage {
  parts : option (list Part)
}.

(** The kind a [data-<kind>] type names. *)
Definition kind_of_dataType (dataType : string) : option AgentType :=
  if dataType =? "research" then Some Research
  else if dataType =? "listings" then Some Listings
  else if dataType =? "sentiment" then Some Sentiment
  else if dataType =? "media" then Some Media
  else None.

(** ** [chat.tsx]: the effect that reads the message parts *)
Module Chat.

(** The four [case]s of a payload part: the slot is written only while it
    is falsy. *)
Definition payload_part (k : AgentType) (data : jsval) (st : AgentResults * bool)
  : AgentResults * bool :=
  let '(updatedResults, hasUpdates) := st in
  if truthy data && negb (present (slot k updatedResults)) then
    let item := first_or_self data in
    (set_completed_agents (completed_agents updatedResults + 1)
       (set_slot k (assign item) updatedResults), true)
  else st.

(** [a !== agent] for an element [a] of [active_agents]. *)
Definition differs (a : string) (agent : jsval) : bool :=
  match agent with
  | JStr s => negb (a =? s)
  | _ => true
  end.

(** [case 'agent-status']; [None] when a name that is no string would be
    pushed. *)
Definition status_part (data : jsval) (st : AgentResults * bool)
  : option (AgentResults * bool) :=
  let '(updatedResults, hasUpdates) := st in
  if truthy data && truthy (get data "agent") then
    if is_string (get data "status") "started" then
      match get data "agent" with
      | JStr a =>
          if negb (includes (active_agents updatedResults) a) then
            Some (set_total_agents (total_agents updatedResults + 1)
                    (set_active_agents (active_agents updatedResults ++ [a])%list
                                       updatedResults), true)
          else Some st
      | _ => None
      end
    else if is_string (get data "status") "completed" then
      Some (set_active_agents
              (filter (fun a => differs a (get data "agent"))
                      (active_agents updatedResults))
              updatedResults, true)
    else Some st
  else Some st.

(** One of the four [if]s of a part of type [data]. *)
Definition custom_field (k : AgentType) (data : jsval) (st : AgentResults * bool)
  : AgentResults * bool :=
  let '(updatedResults, hasUpdates) := st in
  if truthy (get data (kind_name k)) && negb (present (slot k updatedResults)) then
    (set_completed_agents (completed_agents updatedResults + 1)
       (set_slot k (assign (get data (kind_name k))) updatedResults), true)
  else st.

(** The body of [message.parts.forEach]; [None] when an agent name is no
    string. *)
Definition process_part (st : AgentResults * bool) (part : Part)
  : option (AgentResults * bool) :=
  if negb (part_type part =? "") && startsWith (part_type part) "data-" then
    let dataType := drop 5 (part_type part) in       (* replace('data-', '') *)
    match kind_of_dataType dataType with
    | Some k => Some (payload_part k (part_data part) st)
    | None =>
        if dataType =? "agent-status" then status_part (part_data part) st
        else Some st
    end
  else if (part_type part =? "data") && truthy (part_data part) then
    Some (custom_field Media (part_data part)
            (custom_field Sentiment (part_data part)
               (custom_field Listings (part_data part)
                  (custom_field Research (part_data part) st))))
  else Some st.

Fixpoint process_parts (st : AgentResults * bool) (ps : list Part)
  : option (AgentResults * bool) :=
  match ps with
  | [] => Some st
  | part :: rest =>
      match process_part st part with
      | Some st' => process_parts st' rest
      | None => None
      end
  end.

(** The body of [messages.forEach]. *)
Fixpoint process_messages (st : AgentResults * bool) (messages : list Message)
  : option (AgentResults * bool) :=
  match messages with
  | [] => Some st
  | message :: rest =>
      match parts message with
      | Some ps =>
          match process_parts st ps with
          | Some st' => process_messages st' rest
          | None => None
          end
      | None => process_messages st rest
      end
  end.

(** The effect: what it does to the state [agentResults] it was rendered
    with, given all the messages. *)
Definition effect (c : Clock) (agentResults : AgentResults) (messages : list Message)
  : Outcome :=
  match process_messages (agentResults, false) messages with
  | Some (updatedResults, hasUpdates) =>
      if hasUpdates then Updated (set_last_updated (iso c) updatedResults)
      else Unchanged
  | None => Untyped
  end.

(** The state after the effect. *)
Definition state_after (agentResults : AgentResults) (o : Outcome) : option AgentResults :=
  match o with
  | Updated r => Some r
  | Unchanged => Some agentResults
  | Untyped => None
  end.

(** The effect run once per clock reading on the same messages (the
    array is rebuilt, its data parts are the same), each time from the
    state the run before has left. *)
Fixpoint rerun (clocks : list Clock) (agentResults : AgentResults)
               (messages : list Message) : option AgentResults :=
  match clocks with
  | [] => Some agentResults
  | c :: rest =>
      match state_after agentResults (effect c agentResults messages) with
      | Some r => rerun rest r messages
      | None => None
      end
  end.

(** All the parts, in the order [forEach] meets them. *)
Definition all_parts (messages : list Message) : list Part :=
  flat_map (fun message => match parts message with
                           | Some ps => ps
                           | None => []
                           end) messages.

(** A status part that names agent [a] with this [status]. *)
Definition is_status (a status : string) (part : Part) : bool :=
  (part_type part =? "data-agent-status")
  && is_string (get (part_data part) "agent") a
  && is_string (get (part_data part) "status") status.

(** Some part says that [a] has started. *)
Definition announces (a : string) (messages : list Message) : bool :=
  existsb (is_status a "started") (all_parts messages).

(** Whether the status parts leave [a] started, [b] being how it stood
    before them. *)
Fixpoint open_after (a : string) (b : bool) (ps : list Part) : bool :=
  match ps with
  | [] => b
  | part :: rest =>
      open_after a (if is_status a "started" part then true
                    else if is_status a "completed" part then false
                    else b) rest
  end.

(** How a state of the loop stands towards agent [a]: whether [a] is
    active, the total, and the total with one taken off while [a] is
    active. *)
Definition is_active (a : string) (st : AgentResults * bool) : bool :=
  includes (active_agents (fst st)) a.
Definition running_total (st : AgentResults * bool) : Z := total_agents (fst st).
Definition spare_total (a : string) (st : AgentResults * bool) : Z :=
  (running_total st - Z.b2z (is_active a st))%Z.

(** What a part says of [a], [b] being how it stood before. *)
Definition status_after (a : string) (part : Part) (b : bool) : bool :=
  if is_status a "started" part then true
  else if is_status a "completed" part then false
  else b.

(** Every status part that starts an agent names it by a string. *)
Definition typed_part (part : Part) : bool :=
  negb ((part_type part =? "data-agent-status")
        && truthy (get (part_data part) "agent")
        && is_string (get (part_data part) "status") "started")
  || match get (part_data part) "agent" with JStr _ => true | _ => false end.

Definition typed (messages : list Message) : bool :=
  forallb typed_part (all_parts messages).

(** All four slots hold a payload. *)
Definition saturated (r : AgentResults) : bool :=
  forallb (fun k => present (slot k r)) all_kinds.

(** A part that cannot make the effect set the state [r]: one the effect
    does not look into, or, once [r] is saturated, any part but a status
    part. *)
Definition plain (part : Part) : bool :=
  negb (startsWith (part_type part) "data-") && negb (part_type part =? "data").

Definition inert (r : AgentResults) (part : Part) : bool :=
  plain part || (saturated r && negb (part_type part =? "data-agent-status")).

(** Which of its branches [process_part] takes. *)
Inductive Branch (st : AgentResults * bool) (part : Part)
  : option (AgentResults * bool) -> Prop :=
| OnPayload (k : AgentType) :
    (part_type part =? "data-agent-status") = false ->
    startsWith (part_type part) "data-" = true ->
    Branch st part (Some (payload_part k (part_data part) st))
| OnStatus :
    (part_type part =? "data-agent-status") = true ->
    Branch st part (status_part (part_data part) st)
| OnCustom :
    (part_type part =? "data-agent-status") = false ->
    (part_type part =? "data") = true ->
    Branch st part
      (Some (custom_field Media (part_data part)
               (custom_field Sentiment (part_data part)
                  (custom_field Listings (part_data part)
                     (custom_field Research (part_data part) st)))))
| OnOther :
    (part_type part =? "data-agent-status") = false ->
    Branch st part (Some st).

(** The counter is at least the number of slots that hold a payload. *)
Definition covered (st : AgentResults * bool) : Prop :=
  (Z.of_nat (completedCount (fst st)) <= completed_agents (fst st))%Z.

End Chat.

(** ** [vehicle-profile-dashboard.tsx]: [onData] *)
Module VehicleProfile.

(** [a.agent_type || a.agent] for one element of [agents]; the outer
    [None] is the [TypeError] on [null], the inner one a name that is no
    string. *)
Definition agent_name (a : jsval) : option (option string) :=
  if nullish a then None
  else
    match or_else (get a "agent_type") (get a "agent") with
    | JStr s => Some (Some s)
    | _ => Some None
    end.

Fixpoint agent_names (agents : list jsval) : option (option (list string)) :=
  match agents with
  | [] => Some (Some [])
  | a :: rest =>
      match agent_name a, agent_names rest with
      | None, _ => None
      | _, None => None
      | Some (Some s), Some (Some l) => Some (Some (s :: l))
      | _, _ => Some None
      end
  end.

(** The four payload [case]s: a non-empty array replaces the slot by its
    first item. *)
Definition payload (k : AgentType) (agentData : jsval) (updatedResults : AgentResults)
  : AgentResults :=
  match agentData with
  | JArr (x :: _) => set_slot k (assign x) updatedResults
  | _ => updatedResults
  end.

(** [onData(dataPart)] on a part with this [type] ([None] when it has
    none) and this [data], from the state [agentResults]. *)
Definition onData (c : Clock) (agentResults : AgentResults)
                  (type : option string) (agentData : jsval) : Outcome :=
  match type with
  | None => Unchanged
  | Some ty =>
      if startsWith ty "data-" then
        let agentType := drop 5 ty in
        let stamp := fun r => Updated (set_last_updated (iso c) r) in
        match kind_of_dataType agentType with
        | Some k => stamp (payload k agentData agentResults)
        | None =>
            if agentType =? "agent-status" then
              if negb (nullish agentData) && truthy (get agentData "agents") then
                match get agentData "agents" with
                | JArr agents =>
                    match agent_names agents with
                    | None => Unchanged                (* thrown and caught *)
                    | Some None => Untyped
                    | Some (Some names) => stamp (set_active_agents names agentResults)
                    end
                | _ => Unchanged                       (* no [map]: thrown and caught *)
                end
              else stamp agentResults
            else stamp agentResults
        end
      else Unchanged
  end.

End VehicleProfile.

End Components.

(* ================================================================== *)
(** * What the two routes send upstream ([cargeek-stream], [vehicle-stream]) *)
(* ================================================================== *)

Module Requests.

(** The outcome of the lines between [request.json()] and [fetch]. *)
Inductive Prepared (A : Type) : Type :=
| Ready (a : A)
| Throws          (* a [TypeError], which the route's [catch] receives *)
| Untyped.        (* a value that is no string where the code goes on as
                     with a string: not modelled *)
Arguments Ready {A} a.
Arguments Throws {A}.
Arguments Untyped {A}.

(** [typeof v === 'object'] for a truthy [v]. *)
Definition is_object (v : jsval) : bool :=
  match v with
  | JObj _ | JArr _ => true
  | _ => false
  end.

(** [parts.filter(p => p.type === 'text')]; [None] when an element is
    [null], on which [p.type] throws. *)
Fixpoint filter_text (ps : list jsval) : option (list jsval) :=
  match ps with
  | [] => Some []
  | p :: rest =>
      if nullish p then None
      else
        match filter_text rest with
        | Some l => Some (if is_string (get p "type") "text" then p :: l else l)
        | None => None
        end
  end.

(** [p.text || ''] *)
Definition text_of (p : jsval) : jsval := or_else (get p "text") (JStr "").

(** The elements when all of them are strings. *)
Fixpoint strings (l : list jsval) : option (list string) :=
  match l with
  | [] => Some []
  | JStr s :: rest =>
      match strings rest with
      | Some ss => Some (s :: ss)
      | None => None
      end
  | _ :: _ => None
  end.

(** [l.join(' ')] *)
Fixpoint join (l : list string) : string :=
  match l with
  | [] => ""
  | [s] => s
  | s :: rest => s ++ " " ++ join rest
  end.

(** The message of the AI SDK format, from a truthy [message.parts]. *)
Definition from_parts (ps : jsval) : Prepared string :=
  match ps with
  | JArr items =>
      match filter_text items with
      | Some textParts =>
          match strings (map text_of textParts) with
          | Some l => Ready (join l)
          | None => Untyped
          end
      | None => Throws
      end
  | _ => Throws                                    (* no [filter] *)
  end.

(** [body.message] when it is a string, [''] otherwise (the initial
    value). *)
Definition from_string (m : jsval) : string :=
  match m with
  | JStr s => s
  | _ => ""
  end.

(** [body.id || body.session_id || `<prefix>-${Date.now()}`] *)
Definition session_of (pre : string) (c : Clock) (body : jsval) : jsval :=
  or_else (get body "id")
          (or_else (get body "session_id") (JStr (pre ++ "-" ++ decimal (millis c)))).

(** The object sent upstream.  [user_context] is an object given by its
    own properties, read with [get]. *)
Record BackendBody : Type := mkBody {
  message : string;
  session_id : jsval;
  user_context : jsval
}.

(** ** [src/app/api/cargeek-stream/route.ts] *)
Module Cargeek.

Definition extract (body : jsval) : Prepared string :=
  let m := get body "message" in
  if truthy m && is_object m && truthy (get m "parts") then from_parts (get m "parts")
  else Ready (from_string m).

Definition prepare (c : Clock) (body : jsval) : Prepared BackendBody :=
  if nullish body then Throws                        (* [body.id] *)
  else
    match extract body with
    | Ready message =>
        Ready (mkBody message (session_of "session" c body)
                      (or_else (get body "user_context") (JObj [])))
    | Throws => Throws
    | Untyped => Untyped
    end.

End Cargeek.

(** ** [src/app/api/vehicle-stream/route.ts] *)
Module Vehicle.

Definition extract (body : jsval) : Prepared string :=
  let m := get body "message" in
  if truthy m && is_object m && truthy (get m "content") then
    match get m "content" with
    | JStr s => Ready s
    | _ => Untyped
    end
  else if truthy m && is_object m && truthy (get m "parts") then from_parts (get m "parts")
  else Ready (from_string m).

(** The template literal. *)
Definition vehicleQuery (message : string) : string :=
  "COMPREHENSIVE VEHICLE PROFILE REQUEST for " ++ message ++ ":
" ++ "
I need ALL agents to provide data:
1. LISTINGS: Search current marketplace listings, pricing, and availability
2. RESEARCH: Get technical specifications, features, and performance data
3. SENTIMENT: Analyze consumer sentiment from owner reviews and forums
4. MEDIA: Find photos, videos, and visual content
5. ANALYTICS: Provide market trends and pricing analytics

This is a vehicle profile request requiring comprehensive multi-agent analysis.
Please spawn all relevant agents for complete vehicle intelligence.

Target vehicle: " ++ message ++ "
Request type: Full vehicle profile analysis
UI format: Structured data for generative UI components".

(** [{ request_type, vehicle_query, ui_format, ...(body.user_context || {}) }]:
    the own properties in the order they are written, a later one
    overriding an earlier one of the same name under [get].  [None] for a
    string or an array, which spread their indices. *)
Definition context (message : string) (given : jsval) : option jsval :=
  let base := [("request_type", JStr "vehicle_profile");
               ("vehicle_query", JStr message);
               ("ui_format", JStr "generative")] in
  match or_else given (JObj []) with
  | JObj fs => Some (JObj (base ++ fs)%list)
  | JStr _ | JArr _ => None
  | _ => Some (JObj base)
  end.

Definition prepare (c : Clock) (body : jsval) : Prepared BackendBody :=
  if nullish body then Throws                        (* [body.id] *)
  else
    match extract body with
    | Ready message =>
        match context message (get body "user_context") with
        | Some uc => Ready (mkBody (vehicleQuery message)
                                   (session_of "vehicle" c body) uc)
        | None => Untyped
        end
    | Throws => Throws
    | Untyped => Untyped
    end.

End Vehicle.

End Requests.

(* ================================================================== *)
(** * The request the chat component posts ([chat.tsx],
      [prepareSendMessagesRequest]) *)
(* ================================================================== *)

Module ChatClient.

(** A part of a user message: its [type] and its [text]. *)
Definition ui_part (p : string * string) : jsval :=
  JObj [("type", JStr (fst p)); ("text", JStr (snd p))].

(** A message with these parts, whatever else it holds. *)
Definition ui_message (others : list (string * jsval)) (ps : list (string * string)) : jsval :=
  JObj (others ++ [("parts", JArr (map ui_part ps))])%list.

(** [{ id, message: messages.at(-1), selectedChatModel,
       selectedVisibilityType, ...body }] *)
Definition request (id : string) (last : jsval) (model visibility : string)
                   (extra : list (string * jsval)) : jsval :=
  JObj ([("id", JStr id); ("message", last);
         ("selectedChatModel", JStr model);
         ("selectedVisibilityType", JStr visibility)] ++ extra)%list.

(** The texts of the parts of type [text]. *)
Definition texts (ps : list (string * string)) : list string :=
  map snd (filter (fun p => fst p =? "text") ps).

End ChatClient.

(* ================================================================== *)
(** * Lemmas on strings and lines *)
(* ================================================================== *)

Section Lines.

Lemma append_empty_r (s : string) : s ++ "" = s.
Proof. induction s as [|c r IH]; simpl; [reflexivity | now rewrite IH]. Qed.

Lemma append_assoc (a b c : string) : (a ++ b) ++ c = a ++ (b ++ c).
Proof. induction a as [|x r IH]; simpl; [reflexivity | now rewrite IH]. Qed.

Lemma split_lines_not_nil (s : string) : split_lines s <> [].
Proof.
  induction s as [|c r IH]; simpl; [discriminate|].
  destruct (c =? LF)%char; [discriminate|].
  destruct (split_lines r); discriminate.
Qed.

Lemma last_app_r {A} (l l' : list A) (d : A) :
  l' <> [] -> last (l ++ l')%list d = last l' d.
Proof.
  intros Hne. induction l as [|x l IH]; simpl; [reflexivity|].
  destruct (l ++ l')%list eqn:E; [|exact IH].
  apply app_eq_nil in E. destruct E as [_ E]. contradiction.
Qed.

(** Splitting a concatenation: the complete lines of the first part stay,
    and its trailing line is continued by the second part. *)
Lemma split_lines_app (a b : string) :
  split_lines (a ++ b)
  = (removelast (split_lines a) ++ split_lines (last (split_lines a) "" ++ b))%list.
Proof.
  induction a as [|c r IH]; [reflexivity|].
  cbn [append split_lines].
  destruct (c =? LF)%char eqn:Ec.
  - rewrite IH.
    pose proof (split_lines_not_nil r) as Hr.
    destruct (split_lines r) as [|l ls]; [contradiction|].
    reflexivity.
  - rewrite IH.
    pose proof (split_lines_not_nil r) as Hr.
    destruct (split_lines r) as [|l [|l2 ls]]; [contradiction| |].
    + cbn [removelast last app append split_lines]. rewrite Ec. reflexivity.
    + reflexivity.
Qed.

(** The trailing line holds no line feed. *)
Lemma split_lines_trailing (s : string) :
  split_lines (last (split_lines s) "") = [last (split_lines s) ""].
Proof.
  induction s as [|c r IH]; [reflexivity|].
  cbn [split_lines].
  pose proof (split_lines_not_nil r) as Hr.
  destruct (c =? LF)%char eqn:Ec.
  - destruct (split_lines r) as [|l ls]; [contradiction|]. exact IH.
  - destruct (split_lines r) as [|l [|l2 ls]]; [contradiction| |].
    + cbn [last] in *. cbn [split_lines]. rewrite Ec, IH. reflexivity.
    + exact IH.
Qed.

Lemma prefix_drop (p s : string) :
  String.prefix p s = true -> p ++ drop (String.length p) s = s.
Proof.
  revert s. induction p as [|c r IH]; intros s H; [reflexivity|].
  destruct s as [|c' r']; [discriminate|].
  cbn [prefix] in H. destruct (ascii_dec c c') as [->|]; [|discriminate].
  simpl. now rewrite IH.
Qed.

Lemma startsWith_data (line : string) :
  startsWith line "data: " = true -> "data: " ++ drop 6 line = line.
Proof. intros H. apply (prefix_drop "data: " line H). Qed.

(** A string that begins with the data marker does not trim to nothing. *)
Lemma startsWith_data_not_blank (s : string) :
  startsWith s "data: " = true -> trim_is_empty s = false.
Proof.
  unfold startsWith. intros H.
  destruct s as [|c r]; cbn [prefix] in H; [discriminate|].
  destruct (ascii_dec "d" c) as [<-|]; [|discriminate].
  reflexivity.
Qed.

End Lines.

(* ================================================================== *)
(** * The chat-stream transform *)
(* ================================================================== *)

Section Transform.

Import Proxy Proxy.CargeekStream Claimed.

(** What one call of [transform] enqueues, read off the lines. *)
Lemma emitted_forwarded (ls : list string) :
  flat_map (fun line =>
              if startsWith line "data: " then ["data: " ++ drop 6 line ++ nl ++ nl] else []) ls
  = map (fun line => "data: " ++ drop 6 line ++ nl ++ nl)
        (filter (fun line => startsWith line "data: ") ls).
Proof.
  induction ls as [|l ls IH]; [reflexivity|].
  cbn [flat_map filter]. rewrite IH.
  destruct (startsWith l "data: "); reflexivity.
Qed.

Lemma transform_spec (buffer text : string) :
  transform buffer text = (trailing_line (buffer ++ text), forwarded (buffer ++ text)).
Proof.
  unfold transform, trailing_line, forwarded, complete_lines.
  now rewrite emitted_forwarded.
Qed.

Lemma trailing_line_app (a b : string) :
  trailing_line (a ++ b) = trailing_line (trailing_line a ++ b).
Proof.
  unfold trailing_line. rewrite split_lines_app.
  apply last_app_r, split_lines_not_nil.
Qed.

Lemma forwarded_app (a b : string) :
  forwarded (a ++ b) = (forwarded a ++ forwarded (trailing_line a ++ b))%list.
Proof.
  unfold forwarded, complete_lines, trailing_line.
  rewrite split_lines_app, removelast_app by apply split_lines_not_nil.
  now rewrite filter_app, map_app.
Qed.

Lemma trailing_line_idem (s : string) : trailing_line (trailing_line s) = trailing_line s.
Proof. unfold trailing_line. now rewrite split_lines_trailing. Qed.

Lemma forwarded_trailing (s : string) : forwarded (trailing_line s) = [].
Proof.
  unfold forwarded, complete_lines, trailing_line. now rewrite split_lines_trailing.
Qed.

(** The read loop, whatever the chunk boundaries: the buffer never holds
    a line feed, and what has been enqueued is what the whole text asks. *)
Lemma write_all_spec (chunks : list string) (buffer : string) :
  trailing_line buffer = buffer ->
  write_all buffer chunks
  = (trailing_line (buffer ++ whole chunks), forwarded (buffer ++ whole chunks)).
Proof.
  revert buffer. induction chunks as [|text rest IH]; intros buffer E.
  - cbn [write_all whole fold_right].
    rewrite append_empty_r, <- E, trailing_line_idem, forwarded_trailing.
    reflexivity.
  - cbn [write_all whole fold_right]. rewrite transform_spec.
    rewrite (IH _ (trailing_line_idem _)).
    rewrite <- append_assoc, <- trailing_line_app, <- forwarded_app.
    reflexivity.
Qed.

Lemma flush_spec (buffer : string) :
  flush buffer = if startsWith buffer "data: " then [buffer ++ nl ++ nl] else [].
Proof.
  unfold flush. destruct (startsWith buffer "data: ") eqn:E.
  - now rewrite (startsWith_data_not_blank _ E).
  - now destruct (trim_is_empty buffer).
Qed.


(** A forwarded event is the line as it came, followed by two newlines. *)
Lemma forwarded_unmodified (text : string) :
  forwarded text
  = map (fun line => line ++ nl ++ nl)
        (filter (fun line => startsWith line "data: ") (complete_lines text)).
Proof.
  unfold forwarded. induction (complete_lines text) as [|l ls IH]; [reflexivity|].
  cbn [filter]. destruct (startsWith l "data: ") eqn:E; [|exact IH].
  cbn [map]. rewrite IH. f_equal.
  rewrite <- (startsWith_data l E) at 2. now rewrite append_assoc.
Qed.

(** A timeout closes the writer, so the buffer is flushed as at a normal
    end; any other fault aborts it and the buffer is lost. *)
Lemma pipe_timeout (st : N) (chunks : list string) :
  pipe (mkUpstream st chunks Timeout) = pipe (mkUpstream st chunks EndOfStream).
Proof. reflexivity. Qed.

(** An event split over three chunks, between a comment, an [event:] field
    and the blank separators, with an unfinished data line at the end. *)
Example transform_chunked :
  pipe (mkUpstream 200
          [": ping" ++ nl ++ "event: message" ++ nl ++ dq "data: {'type':";
           dq "'finish'}";
           nl ++ nl ++ "id: 7" ++ nl ++ "data: [DONE]"]
          EndOfStream)
  = Streamed [dq "data: {'type':'finish'}" ++ nl ++ nl;
              "data: [DONE]" ++ nl ++ nl] false.
Proof. reflexivity. Qed.

End Transform.

(* ================================================================== *)
(** * The envelope decoder *)
(* ================================================================== *)

Section Decoder.

Import AgentDataParser Json.

(** A character is JSON white space, or cannot start a token, or is an
    ASCII character that [trim] keeps. *)
Lemma ascii_cases (a : ascii) :
  is_ws a = true \/ step_start a = None
  \/ ((code a <? 128)%N = true /\ isWhiteSpace (code a) = false).
Proof.
  destruct a as [[] [] [] [] [] [] [] []];
    first [ left; reflexivity
          | right; left; reflexivity
          | right; right; split; reflexivity ].
Qed.

Lemma is_ws_ascii (a : ascii) : is_ws a = true -> (code a <? 128)%N = true.
Proof.
  destruct a as [[] [] [] [] [] [] [] []]; intros H;
    first [ reflexivity | discriminate H ].
Qed.

(** A text of white space only holds no token, or a character that cannot
    start one. *)
Lemma blank_lex (s : string) :
  trim_is_empty s = true -> lex LStart s = None \/ lex LStart s = Some [].
Proof.
  induction s as [|a r IH]; intros H; [now right|].
  cbn [lex step].
  destruct (ascii_cases a) as [Hws | [Hnone | [Hlt Hnw]]].
  - pose proof (is_ws_ascii a Hws) as Hlt.
    unfold trim_is_empty in H. cbn [units] in H. unfold code in Hlt.
    rewrite Hlt in H. cbn [forallb] in H.
    apply andb_true_iff in H. destruct H as [_ H].
    unfold step_start. rewrite Hws.
    destruct (IH H) as [E | E]; rewrite E; [now left | now right].
  - rewrite Hnone. now left.
  - unfold trim_is_empty in H. cbn [units] in H. unfold code in Hlt, Hnw.
    rewrite Hlt in H. cbn [forallb] in H. rewrite Hnw in H. discriminate H.
Qed.

Lemma blank_not_json (s : string) : trim_is_empty s = true -> JSON_parse s = None.
Proof.
  intros H. unfold JSON_parse.
  destruct (blank_lex s H) as [E | E]; rewrite E; reflexivity.
Qed.

Lemma done_not_json : JSON_parse "[DONE]" = None.
Proof. reflexivity. Qed.

(** The decoder is [JSON.parse] on the text without its marker, with
    [null] for every text [JSON.parse] rejects: the two early tests only
    single out texts it would reject anyway. *)
Lemma parseStreamingEvent_spec (eventData : string) :
  parseStreamingEvent eventData
  = match JSON_parse (cleanData eventData) with
    | Some parsed => parsed
    | None => JNull
    end.
Proof.
  unfold parseStreamingEvent.
  destruct (trim_is_empty (cleanData eventData)) eqn:Eb.
  - now rewrite (blank_not_json _ Eb).
  - destruct (cleanData eventData =? "[DONE]") eqn:Ed; [|reflexivity].
    apply String.eqb_eq in Ed. rewrite Ed, done_not_json. reflexivity.
Qed.

(** A value the [switch] has no [case] for reaches no handler. *)
Lemma route_other_type (v : jsval) :
  is_string (get v "type") "agent_spawn" = false ->
  is_string (get v "type") "agent_complete" = false ->
  Dashboard.route v = Dashboard.NoHandler.
Proof.
  intros H1 H2. unfold Dashboard.route. rewrite H1, H2.
  now destruct (truthy v).
Qed.

Lemma onString_null (c : Clock) (rawData : string) (d : Dashboard.t) :
  parseStreamingEvent rawData = JNull -> Dashboard.onString c rawData d = Some d.
Proof. intros H. unfold Dashboard.onString. now rewrite H. Qed.

(** C8.  For every input string the decoder returns, and it returns null
    whenever the text after the data marker is empty or white space only,
    is the literal [DONE] marker, or is not well-formed JSON; the consumer
    then runs no handler, so the parser and the component stay as they
    were. *)
Theorem decoder_null_on_noise (eventData : string) :
  trim_is_empty (cleanData eventData) = true
  \/ cleanData eventData = "[DONE]"
  \/ JSON_parse (cleanData eventData) = None ->
  parseStreamingEvent eventData = JNull
  /\ forall c d, Dashboard.onString c eventData d = Some d.
Proof.
  intros H.
  assert (E : parseStreamingEvent eventData = JNull).
  { rewrite parseStreamingEvent_spec.
    destruct H as [H | [H | H]].
    - now rewrite (blank_not_json _ H).
    - now rewrite H, done_not_json.
    - now rewrite H. }
  split; [exact E|]. intros c d. now apply onString_null.
Qed.

Lemma decoder_null_on_noise_witness :
  JSON_parse (cleanData "data: not-json") = None
  /\ parseStreamingEvent "data: not-json" = JNull
  /\ forall c d, Dashboard.onString c "data: not-json" d = Some d.
Proof.
  split; [reflexivity|].
  apply (decoder_null_on_noise "data: not-json").
  right; right; reflexivity.
Defined.

(** The empty text, white space, and the terminal marker, with and
    without the data marker. *)
Example decoder_control_lines :
  parseStreamingEvent "" = JNull
  /\ parseStreamingEvent "data: " = JNull
  /\ parseStreamingEvent ("data:  " ++ Proxy.nl) = JNull
  /\ parseStreamingEvent "data: [DONE]" = JNull
  /\ parseStreamingEvent "[DONE]" = JNull.
Proof. repeat split; reflexivity. Qed.

(** C7, as stated, fails: a well-formed line whose type is none of the
    recognized kinds is returned as parsed, not as null. *)
Lemma unknown_type_not_null :
  JSON_parse (cleanData Scenario.orchestration_line)
  = Some (JObj [("type", JStr "orchestration_complete")])
  /\ parseStreamingEvent Scenario.orchestration_line
     = JObj [("type", JStr "orchestration_complete")]
  /\ parseStreamingEvent Scenario.orchestration_line <> JNull.
Proof. repeat split; try reflexivity. discriminate. Qed.

(** C7, amended.  For every line whose text after the data marker parses
    as JSON, the decoder returns the parsed value as it is, whatever its
    type; when the type is neither [agent_spawn] nor [agent_complete] the
    consumer's switch runs no handler, so the value changes neither the
    parser nor the component. *)
Theorem unknown_type_reaches_no_handler
    (c : Clock) (eventData : string) (d : Dashboard.t) (parsed : jsval) :
  JSON_parse (cleanData eventData) = Some parsed ->
  is_string (get parsed "type") "agent_spawn" = false ->
  is_string (get parsed "type") "agent_complete" = false ->
  parseStreamingEvent eventData = parsed
  /\ Dashboard.onString c eventData d = Some d.
Proof.
  intros Hp H1 H2.
  assert (E : parseStreamingEvent eventData = parsed).
  { now rewrite parseStreamingEvent_spec, Hp. }
  split; [exact E|].
  unfold Dashboard.onString. now rewrite E, (route_other_type _ H1 H2).
Qed.

Lemma unknown_type_reaches_no_handler_witness :
  JSON_parse (cleanData Scenario.orchestration_line)
  = Some (JObj [("type", JStr "orchestration_complete")])
  /\ parseStreamingEvent Scenario.orchestration_line
  = JObj [("type", JStr "orchestration_complete")]
  /\ Dashboard.onString Scenario.t1 Scenario.orchestration_line Scenario.dashboard_five
     = Some Scenario.dashboard_five.
Proof.
  split; [reflexivity|].
  apply (unknown_type_reaches_no_handler Scenario.t1 Scenario.orchestration_line
           Scenario.dashboard_five (JObj [("type", JStr "orchestration_complete")]));
    reflexivity.
Defined.

End Decoder.

(* ================================================================== *)
(** * The spawn and completion handlers *)
(* ================================================================== *)

Section Handlers.

Import AgentDataParser.

Lemma includes_In (l : list string) (x : string) : includes l x = true <-> In x l.
Proof.
  unfold includes. rewrite existsb_exists. split.
  - intros [y [Hy E]]. apply String.eqb_eq in E. now subst.
  - intros H. exists x. split; [exact H | apply String.eqb_refl].
Qed.

Lemma includes_not_In (l : list string) (x : string) : includes l x = false <-> ~ In x l.
Proof.
  rewrite <- includes_In. destruct (includes l x); split; intros H.
  - discriminate H.
  - now elim H.
  - intros E. discriminate E.
  - reflexivity.
Qed.

(** The aggregate after a spawn, by cases on the kind being in flight. *)
Lemma spawn_results (c : Clock) (e : AgentSpawnEvent) (p : t) :
  agentResults (fst (handleAgentSpawn c e p))
  = set_last_updated (iso c)
      (if includes (active_agents (agentResults p)) (agent e) then agentResults p
       else set_total_agents (total_agents (agentResults p) + 1)
              (set_active_agents (active_agents (agentResults p) ++ [agent e])%list
                                 (agentResults p))).
Proof.
  unfold handleAgentSpawn. cbn [fst agentResults].
  now destruct (includes (active_agents (agentResults p)) (agent e)).
Qed.

Lemma spawn_listeners (c : Clock) (e : AgentSpawnEvent) (p : t) :
  listeners (fst (handleAgentSpawn c e p)) = listeners p.
Proof. reflexivity. Qed.

(** The aggregate after a completion that reports success with a result. *)
Lemma complete_results (c : Clock) (e : AgentCompleteEvent) (p : t) :
  success e = true -> truthy (result e) = true ->
  agentResults (fst (handleAgentComplete c e p))
  = set_last_updated (iso c)
      (store_result (result e)
         (set_completed_agents (completed_agents (agentResults p) + 1)
            (set_active_agents
               (filter (fun a => negb (a =? agent_type e)) (active_agents (agentResults p)))
               (agentResults p)))).
Proof.
  intros Hs Hr. unfold handleAgentComplete. rewrite Hs, Hr. reflexivity.
Qed.

Lemma complete_failed (c : Clock) (e : AgentCompleteEvent) (p : t) :
  success e && truthy (result e) = false -> handleAgentComplete c e p = (p, []).
Proof.
  intros H. unfold handleAgentComplete.
  destruct (success e), (truthy (result e)); try discriminate H; reflexivity.
Qed.

(** [store_result] touches one slot at most: the one the result's own
    [agent_type] names. *)
Lemma store_result_slot (res : jsval) (r : AgentResults) (k : AgentType) :
  slot k (store_result res r)
  = if is_string (get res "agent_type") (kind_name k) then Some res else slot k r.
Proof.
  unfold store_result, isListingsResult, isResearchResult, isSentimentResult,
    isMediaResult.
  destruct (get res "agent_type") as [| | | |s| |]; try (destruct k; reflexivity).
  cbn [is_string].
  destruct (s =? "listings") eqn:E1.
  { apply String.eqb_eq in E1. subst s. destruct k; reflexivity. }
  destruct (s =? "research") eqn:E2.
  { apply String.eqb_eq in E2. subst s. destruct k; reflexivity. }
  destruct (s =? "sentiment") eqn:E3.
  { apply String.eqb_eq in E3. subst s. destruct k; reflexivity. }
  destruct (s =? "media") eqn:E4.
  { apply String.eqb_eq in E4. subst s. destruct k; reflexivity. }
  destruct k; cbn [kind_name]; rewrite ?E1, ?E2, ?E3, ?E4; reflexivity.
Qed.

Lemma store_result_meta (res : jsval) (r : AgentResults) :
  total_agents (store_result res r) = total_agents r
  /\ completed_agents (store_result res r) = completed_agents r
  /\ active_agents (store_result res r) = active_agents r
  /\ last_updated (store_result res r) = last_updated r.
Proof.
  unfold store_result.
  destruct (isListingsResult res), (isResearchResult res),
    (isSentimentResult res), (isMediaResult res); repeat split.
Qed.

(** C1, as stated, fails: in scenario 2 of the specification the failed
    [research] agent is still in [active_agents] after its completion. *)
Lemma failed_agent_stays_active :
  active_agents (agentResults Scenario.two_spawned) = ["research"; "media"]
  /\ active_agents
       (agentResults (fst (handleAgentComplete Scenario.t1 Scenario.research_failed
                                               Scenario.two_spawned)))
     = ["research"; "media"].
Proof. split; reflexivity. Qed.

(** C1, amended.  For every [agent_complete] with [success = false] the
    handler returns at once: [active_agents] is unchanged, so the named
    kind stays in it if it was there, [completed_agents] and the four
    payload slots are unchanged, and no listener is notified. *)
Theorem failed_completion_changes_nothing
    (c : Clock) (e : AgentCompleteEvent) (p : t) :
  success e = false ->
  let r' := agentResults (fst (handleAgentComplete c e p)) in
  active_agents r' = active_agents (agentResults p)
  /\ completed_agents r' = completed_agents (agentResults p)
  /\ (forall k, slot k r' = slot k (agentResults p))
  /\ handleAgentComplete c e p = (p, []).
Proof.
  intros Hs. cbv zeta.
  assert (E : handleAgentComplete c e p = (p, [])).
  { apply complete_failed. now rewrite Hs. }
  rewrite E. repeat split.
Qed.

Lemma failed_completion_changes_nothing_witness :
  success Scenario.research_failed = false
  /\ handleAgentComplete Scenario.t1 Scenario.research_failed Scenario.two_spawned
     = (Scenario.two_spawned, []).
Proof.
  split; [reflexivity|].
  apply (failed_completion_changes_nothing Scenario.t1 Scenario.research_failed
           Scenario.two_spawned).
  reflexivity.
Defined.

(** C2, as stated, fails: a second successful [listings] completion
    replaces the payload the first one stored. *)
Lemma second_completion_overwrites :
  listings (agentResults Scenario.listings_completed) = Some Scenario.five_found
  /\ listings
       (agentResults
          (fst (handleAgentComplete Scenario.t1
                  (mkComplete "listings" true Scenario.seven_found)
                  Scenario.listings_completed)))
     = Some Scenario.seven_found
  /\ Scenario.seven_found <> Scenario.five_found.
Proof. repeat split; try reflexivity. discriminate. Qed.

(** C2, amended.  For each of the four payload slots of the parser's
    aggregate: a spawn leaves it as it is; a completion leaves it as it is
    unless it reports success with a result whose own [agent_type] names
    the slot, and then the result replaces whatever the slot held (last
    write wins); a state snapshot does not touch the parser's aggregate. *)
Theorem slot_after_envelope (c : Clock) (k : AgentType) (p : t) :
  (forall e, slot k (agentResults (fst (handleAgentSpawn c e p))) = slot k (agentResults p))
  /\ (forall e,
        slot k (agentResults (fst (handleAgentComplete c e p)))
        = if success e && truthy (result e)
             && is_string (get (result e) "agent_type") (kind_name k)
          then Some (result e)
          else slot k (agentResults p))
  /\ (forall s d, Dashboard.parser (Dashboard.apply c (Dashboard.state_snapshot s) d)
                  = Dashboard.parser d).
Proof.
  split; [|split].
  - intros e. rewrite spawn_results.
    destruct (includes (active_agents (agentResults p)) (agent e)); destruct k; reflexivity.
  - intros e.
    destruct (success e) eqn:Hs; [destruct (truthy (result e)) eqn:Hr|].
    + rewrite (complete_results c e p Hs Hr). cbn [andb].
      transitivity
        (slot k (store_result (result e)
           (set_completed_agents (completed_agents (agentResults p) + 1)
              (set_active_agents
                 (filter (fun a => negb (a =? agent_type e))
                         (active_agents (agentResults p)))
                 (agentResults p))))).
      { destruct k; reflexivity. }
      rewrite store_result_slot.
      destruct (is_string (get (result e) "agent_type") (kind_name k));
        [reflexivity | destruct k; reflexivity].
    + rewrite complete_failed by (now rewrite Hs, Hr). reflexivity.
    + rewrite complete_failed by (now rewrite Hs). reflexivity.
  - intros s d. unfold Dashboard.apply, Dashboard.onStateObject.
    destruct (agent_data s), (current_results s); reflexivity.
Qed.

(** C3, as stated, fails: a spawn for a kind already in flight changes
    neither [active_agents] nor [total_agents], yet it stamps
    [last_updated] and makes one notification pass. *)
Lemma duplicate_spawn_notifies :
  active_agents (agentResults (fst Scenario.duplicate_spawn))
  = active_agents (agentResults Scenario.listings_spawned)
  /\ total_agents (agentResults (fst Scenario.duplicate_spawn))
     = total_agents (agentResults Scenario.listings_spawned)
  /\ last_updated (agentResults Scenario.listings_spawned) = "2025-03-01T10:00:00.000Z"
  /\ last_updated (agentResults (fst Scenario.duplicate_spawn)) = "2025-03-01T10:00:05.000Z"
  /\ snd Scenario.duplicate_spawn
     = [[mkCall "vehicle-tesla-model-3" (agentResults (fst Scenario.duplicate_spawn))]].
Proof. repeat split; reflexivity. Qed.

(** C3, amended.  A null envelope runs no handler, and a completion that
    reports failure (or carries no result) returns at once: neither
    notifies nor touches [last_updated].  Every [agent_spawn], also for a
    kind already in flight, and every successful [agent_complete], also
    onto a populated slot, sets [last_updated] to the current time and
    makes exactly one notification pass, which calls each registered
    listener once with the new aggregate. *)
Theorem notifications_per_envelope (c : Clock) (p : t) :
  (forall rawData d, parseStreamingEvent rawData = JNull ->
                     Dashboard.onString c rawData d = Some d)
  /\ (forall e, let r := handleAgentSpawn c e p in
                snd r = [notifyListeners (fst r)]
                /\ last_updated (agentResults (fst r)) = iso c)
  /\ (forall e, let r := handleAgentComplete c e p in
                if success e && truthy (result e)
                then snd r = [notifyListeners (fst r)]
                     /\ last_updated (agentResults (fst r)) = iso c
                else r = (p, []))
  /\ (forall q, map to (notifyListeners q) = listeners q
                /\ Forall (fun call => snapshot call = agentResults q) (notifyListeners q)).
Proof.
  split; [|split; [|split]].
  - intros rawData d H. now apply onString_null.
  - intros e. cbv zeta. split; [reflexivity|].
    rewrite spawn_results. reflexivity.
  - intros e. cbv zeta.
    destruct (success e) eqn:Hs; [destruct (truthy (result e)) eqn:Hr|]; cbn [andb].
    + split.
      * unfold handleAgentComplete. rewrite Hs, Hr. reflexivity.
      * rewrite (complete_results c e p Hs Hr). reflexivity.
    + apply complete_failed. now rewrite Hs, Hr.
    + apply complete_failed. now rewrite Hs.
  - intros q. unfold notifyListeners, getResults. split.
    + rewrite map_map. cbn [to]. apply map_id.
    + apply Forall_forall. intros call Hin. apply in_map_iff in Hin.
      destruct Hin as [id [<- _]]. reflexivity.
Qed.

Lemma notifications_per_envelope_witness :
  parseStreamingEvent "data: [DONE]" = JNull
  /\ Dashboard.onString Scenario.t1 "data: [DONE]" Scenario.dashboard_five
     = Some Scenario.dashboard_five.
Proof.
  split; [reflexivity|].
  apply (proj1 (notifications_per_envelope Scenario.t1 Scenario.two_spawned)).
  reflexivity.
Defined.


(** A spawn of a kind already in flight keeps the list and the counter. *)
Lemma spawn_in_flight (c : Clock) (e : AgentSpawnEvent) (p : t) :
  includes (active_agents (agentResults p)) (agent e) = true ->
  active_agents (agentResults (fst (handleAgentSpawn c e p))) = active_agents (agentResults p)
  /\ total_agents (agentResults (fst (handleAgentSpawn c e p))) = total_agents (agentResults p).
Proof. intros H. rewrite spawn_results, H. split; reflexivity. Qed.

(** A spawn of a kind not in flight appends it and counts it. *)
Lemma spawn_fresh (c : Clock) (e : AgentSpawnEvent) (p : t) :
  includes (active_agents (agentResults p)) (agent e) = false ->
  active_agents (agentResults (fst (handleAgentSpawn c e p)))
  = (active_agents (agentResults p) ++ [agent e])%list
  /\ total_agents (agentResults (fst (handleAgentSpawn c e p)))
     = (total_agents (agentResults p) + 1)%Z.
Proof. intros H. rewrite spawn_results, H. split; reflexivity. Qed.

(** Repeat spawns of a kind in flight change neither membership nor the
    counter. *)
Lemma spawn_each_in_flight (kind : string) (evs : list (Clock * AgentSpawnEvent)) (p : t) :
  Forall (fun ce => agent (snd ce) = kind) evs ->
  includes (active_agents (agentResults p)) kind = true ->
  active_agents (agentResults (spawn_each evs p)) = active_agents (agentResults p)
  /\ total_agents (agentResults (spawn_each evs p)) = total_agents (agentResults p).
Proof.
  revert p. induction evs as [|[c e] rest IH]; intros p Hall Hin; [now split|].
  apply Forall_cons_iff in Hall. destruct Hall as [He Hrest]. cbn [snd] in He.
  unfold spawn_each. cbn [fold_left fst snd].
  assert (Hin' : includes (active_agents (agentResults p)) (agent e) = true)
    by now rewrite He.
  destruct (spawn_in_flight c e p Hin') as [Ea Et].
  destruct (IH (fst (handleAgentSpawn c e p)) Hrest) as [Ea' Et'].
  { now rewrite Ea. }
  unfold spawn_each in Ea', Et'. rewrite Ea', Et', Ea, Et. now split.
Qed.

Lemma count_occ_absent (l : list string) (x : string) :
  ~ In x l -> count_occ string_dec l x = 0%nat.
Proof. intros H. now apply count_occ_not_In. Qed.

(** C5, as stated, fails: in scenario 2 of the specification [research]
    is in flight, and two more spawns of [research] leave [total_agents]
    at 2, not incremented at all. *)
Lemma spawn_in_flight_not_counted :
  active_agents (agentResults Scenario.two_spawned) = ["research"; "media"]
  /\ total_agents (agentResults Scenario.two_spawned) = 2%Z
  /\ total_agents
       (agentResults
          (spawn_each [(Scenario.t1, mkSpawn "research"); (Scenario.t1, mkSpawn "research")]
                      Scenario.two_spawned))
     = 2%Z
  /\ active_agents
       (agentResults
          (spawn_each [(Scenario.t1, mkSpawn "research"); (Scenario.t1, mkSpawn "research")]
                      Scenario.two_spawned))
     = ["research"; "media"].
Proof. repeat split; reflexivity. Qed.

(** C5.  For every non-empty sequence of [agent_spawn] events that name
    the same kind, applied to any aggregate: when the kind is not in
    [active_agents] before the sequence, [active_agents] afterwards is the
    list before with the kind appended, so it contains the kind exactly
    once, and [total_agents] is one more than before; when the kind is
    already in [active_agents], the sequence changes neither
    [active_agents] nor [total_agents]. *)
Theorem repeated_spawn_idempotent
    (kind : string) (evs : list (Clock * AgentSpawnEvent)) (p : t) :
  evs <> [] ->
  Forall (fun ce => agent (snd ce) = kind) evs ->
  if includes (active_agents (agentResults p)) kind then
    active_agents (agentResults (spawn_each evs p)) = active_agents (agentResults p)
    /\ total_agents (agentResults (spawn_each evs p)) = total_agents (agentResults p)
  else
    active_agents (agentResults (spawn_each evs p))
    = (active_agents (agentResults p) ++ [kind])%list
    /\ count_occ string_dec (active_agents (agentResults (spawn_each evs p))) kind = 1%nat
    /\ total_agents (agentResults (spawn_each evs p))
       = (total_agents (agentResults p) + 1)%Z.
Proof.
  intros Hne Hall.
  destruct (includes (active_agents (agentResults p)) kind) eqn:Hout.
  - exact (spawn_each_in_flight kind evs p Hall Hout).
  - destruct evs as [|[c e] rest]; [contradiction|].
    apply Forall_cons_iff in Hall. destruct Hall as [He Hrest]. cbn [snd] in He.
    subst kind.
    destruct (spawn_fresh c e p Hout) as [Ea Et].
    assert (Hin : includes (active_agents (agentResults (fst (handleAgentSpawn c e p))))
                           (agent e) = true).
    { apply includes_In. rewrite Ea. apply in_or_app. right. now left. }
    destruct (spawn_each_in_flight (agent e) rest _ Hrest Hin) as [Ea' Et'].
    change (spawn_each ((c, e) :: rest) p)
      with (spawn_each rest (fst (handleAgentSpawn c e p))).
    rewrite Ea', Et', Ea, Et. split; [reflexivity|]. split; [|reflexivity].
    rewrite count_occ_app, count_occ_absent by now apply includes_not_In.
    cbn [count_occ]. destruct (string_dec (agent e) (agent e)); [reflexivity | contradiction].
Qed.

Lemma repeated_spawn_idempotent_witness :
  active_agents
    (agentResults
       (spawn_each [(Scenario.t0, mkSpawn "sentiment"); (Scenario.t1, mkSpawn "sentiment");
                    (Scenario.t1, mkSpawn "sentiment")]
                   Scenario.two_spawned))
  = (active_agents (agentResults Scenario.two_spawned) ++ ["sentiment"])%list
  /\ count_occ string_dec
       (active_agents
          (agentResults
             (spawn_each [(Scenario.t0, mkSpawn "sentiment"); (Scenario.t1, mkSpawn "sentiment");
                          (Scenario.t1, mkSpawn "sentiment")]
                         Scenario.two_spawned)))
       "sentiment" = 1%nat
  /\ total_agents
       (agentResults
          (spawn_each [(Scenario.t0, mkSpawn "sentiment"); (Scenario.t1, mkSpawn "sentiment");
                       (Scenario.t1, mkSpawn "sentiment")]
                      Scenario.two_spawned))
     = (total_agents (agentResults Scenario.two_spawned) + 1)%Z.
Proof.
  refine (repeated_spawn_idempotent "sentiment"
            [(Scenario.t0, mkSpawn "sentiment"); (Scenario.t1, mkSpawn "sentiment");
             (Scenario.t1, mkSpawn "sentiment")]
            Scenario.two_spawned _ _).
  - discriminate.
  - repeat constructor.
Defined.

End Handlers.

(* ================================================================== *)
(** * State snapshots *)
(* ================================================================== *)

Section Snapshots.

Import AgentDataParser Claimed.

Lemma kind_of_name_kind (k : AgentType) : kind_of_name (kind_name k) = Some k.
Proof. destruct k; reflexivity. Qed.

Lemma kind_of_name_Some (name : string) (k : AgentType) :
  kind_of_name name = Some k -> name = kind_name k.
Proof.
  intros H. apply find_some in H. destruct H as [_ H].
  now apply String.eqb_eq in H.
Qed.

Lemma kind_of_name_None (name : string) (k : AgentType) :
  kind_of_name name = None -> (name =? kind_name k) = false.
Proof.
  intros H. apply (find_none _ _ H k). destruct k; cbn; auto.
Qed.

Lemma kind_name_inj (k k' : AgentType) : kind_name k = kind_name k' -> k = k'.
Proof. destruct k, k'; intros H; first [reflexivity | discriminate H]. Qed.

Lemma parse_into_kind (c : Clock) (k : AgentType) (d : jsval) (r : AgentResults) :
  parse_into c (kind_name k) d r
  = option_map (fun v => set_slot k (Some v) r) (parse_kind c k d).
Proof. destruct k; reflexivity. Qed.

Lemma parse_into_other (c : Clock) (name : string) (d : jsval) (r : AgentResults) :
  kind_of_name name = None -> parse_into c name d r = Some r.
Proof.
  intros H. unfold parse_into.
  pose proof (kind_of_name_None name Listings H) as H1.
  pose proof (kind_of_name_None name Research H) as H2.
  pose proof (kind_of_name_None name Sentiment H) as H3.
  pose proof (kind_of_name_None name Media H) as H4.
  cbn [kind_name] in H1, H2, H3, H4. rewrite H1, H2, H3, H4.
  reflexivity.
Qed.

(** Each of the four parsers fails exactly on [null] and [undefined]. *)
Lemma parse_kind_nullish (c : Clock) (k : AgentType) (d : jsval) :
  (nullish d = true /\ parse_kind c k d = None)
  \/ (nullish d = false /\ exists v, parse_kind c k d = Some v).
Proof.
  destruct (nullish d) eqn:E; [left | right]; (split; [reflexivity|]).
  - destruct k; cbn [parse_kind]; unfold parseListingsData, parseResearchData,
      parseSentimentData, parseMediaData; now rewrite E.
  - destruct k; cbn [parse_kind]; unfold parseListingsData, parseResearchData,
      parseSentimentData, parseMediaData; rewrite E; eexists; reflexivity.
Qed.

(** One entry of [agent_data], by cases. *)
Lemma parse_entry_spec (c : Clock) (r : AgentResults) (e : string * list AgentDataItem) :
  parse_entry c r e
  = match latest (snd e) with
    | None => r
    | Some d =>
        match kind_of_name (fst e) with
        | Some k =>
            match parse_kind c k d with
            | Some v => set_completed_agents (completed_agents r + 1) (set_slot k (Some v) r)
            | None => r
            end
        | None => set_completed_agents (completed_agents r + 1) r
        end
    end.
Proof.
  destruct e as [name items]. unfold parse_entry, latest. cbn [fst snd].
  destruct (rev items) as [|item rest]; [reflexivity|].
  destruct (kind_of_name name) as [k|] eqn:E.
  - apply kind_of_name_Some in E. subst name. rewrite parse_into_kind.
    destruct (parse_kind c k (data item)); [|reflexivity].
    destruct k; reflexivity.
  - now rewrite parse_into_other.
Qed.

Lemma counted_spec (c : Clock) (e : string * list AgentDataItem) :
  counted e
  = match latest (snd e) with
    | None => false
    | Some d =>
        match kind_of_name (fst e) with
        | Some k => match parse_kind c k d with Some _ => true | None => false end
        | None => true
        end
    end.
Proof.
  unfold counted. destruct (latest (snd e)) as [d|]; [|reflexivity].
  destruct (kind_of_name (fst e)) as [k|]; [|reflexivity].
  destruct (parse_kind_nullish c k d) as [[E1 E2] | [E1 [v E2]]]; now rewrite E1, E2.
Qed.

Lemma parse_entry_completed (c : Clock) (r : AgentResults) (e : string * list AgentDataItem) :
  completed_agents (parse_entry c r e)
  = (completed_agents r + (if counted e then 1 else 0))%Z.
Proof.
  rewrite parse_entry_spec, (counted_spec c).
  destruct (latest (snd e)) as [d|]; [|lia].
  destruct (kind_of_name (fst e)) as [k|]; [|reflexivity].
  destruct (parse_kind c k d); [reflexivity | lia].
Qed.

Lemma parse_entry_active (c : Clock) (r : AgentResults) (e : string * list AgentDataItem) :
  active_agents (parse_entry c r e) = active_agents r.
Proof.
  rewrite parse_entry_spec.
  destruct (latest (snd e)) as [d|]; [|reflexivity].
  destruct (kind_of_name (fst e)) as [k|]; [|reflexivity].
  destruct (parse_kind c k d); [destruct k|]; reflexivity.
Qed.

Lemma slot_set_slot (k k' : AgentType) (v : option jsval) (r : AgentResults) :
  slot k (set_slot k' v r) = if kind_name k' =? kind_name k then v else slot k r.
Proof. destruct k, k'; reflexivity. Qed.

Lemma parse_entry_slot (c : Clock) (r : AgentResults) (e : string * list AgentDataItem)
                       (k : AgentType) :
  slot k (parse_entry c r e)
  = if fst e =? kind_name k then
      match latest (snd e) with
      | Some d => match parse_kind c k d with Some v => Some v | None => slot k r end
      | None => slot k r
      end
    else slot k r.
Proof.
  rewrite parse_entry_spec.
  destruct (latest (snd e)) as [d|]; [|now destruct (fst e =? kind_name k)].
  destruct (kind_of_name (fst e)) as [k'|] eqn:E.
  - apply kind_of_name_Some in E. rewrite E.
    destruct (kind_name k' =? kind_name k) eqn:Ek.
    + apply String.eqb_eq, kind_name_inj in Ek. subst k'.
      destruct (parse_kind c k d); [|reflexivity].
      transitivity (slot k (set_slot k (Some j) r)); [destruct k; reflexivity|].
      now rewrite slot_set_slot, String.eqb_refl.
    + destruct (parse_kind c k' d); [|reflexivity].
      transitivity (slot k (set_slot k' (Some j) r)); [destruct k, k'; reflexivity|].
      now rewrite slot_set_slot, Ek.
  - rewrite (kind_of_name_None _ k E). destruct k; reflexivity.
Qed.

(** A slot written adds at most one to the number of populated slots. *)
Lemma populated_set_slot (k : AgentType) (v : jsval) (r : AgentResults) :
  (populated_slots (set_slot k (Some v) r) <= populated_slots r + 1)%Z.
Proof.
  unfold populated_slots, all_kinds.
  destruct r as [l rs se me tot com act upd].
  destruct k; cbn [set_slot set_listings set_research set_sentiment set_media slot
                   listings research sentiment media filter];
    destruct l, rs, se, me; cbn [List.length]; lia.
Qed.

Lemma populated_set_completed (n : Z) (r : AgentResults) :
  populated_slots (set_completed_agents n r) = populated_slots r.
Proof. reflexivity. Qed.

Lemma parse_entry_populated (c : Clock) (r : AgentResults) (e : string * list AgentDataItem) :
  (populated_slots (parse_entry c r e) - completed_agents (parse_entry c r e)
   <= populated_slots r - completed_agents r)%Z.
Proof.
  rewrite parse_entry_completed, parse_entry_spec, (counted_spec c).
  destruct (latest (snd e)) as [d|]; [|lia].
  destruct (kind_of_name (fst e)) as [k|].
  - destruct (parse_kind c k d) as [v|]; [|lia].
    rewrite populated_set_completed. pose proof (populated_set_slot k v r). lia.
  - rewrite populated_set_completed. lia.
Qed.

(** The whole [forEach]. *)
Lemma fold_completed (c : Clock) (entries : list (string * list AgentDataItem))
                     (r : AgentResults) :
  completed_agents (fold_left (parse_entry c) entries r)
  = (completed_agents r + Z.of_nat (List.length (filter counted entries)))%Z.
Proof.
  revert r. induction entries as [|e rest IH]; intros r; cbn [fold_left filter].
  - cbn [List.length]. lia.
  - rewrite IH, parse_entry_completed.
    destruct (counted e); cbn [List.length]; lia.
Qed.

Lemma fold_active (c : Clock) (entries : list (string * list AgentDataItem))
                  (r : AgentResults) :
  active_agents (fold_left (parse_entry c) entries r) = active_agents r.
Proof.
  revert r. induction entries as [|e rest IH]; intros r; cbn [fold_left]; [reflexivity|].
  now rewrite IH, parse_entry_active.
Qed.

Lemma fold_populated (c : Clock) (entries : list (string * list AgentDataItem))
                     (r : AgentResults) :
  (populated_slots (fold_left (parse_entry c) entries r)
   - completed_agents (fold_left (parse_entry c) entries r)
   <= populated_slots r - completed_agents r)%Z.
Proof.
  revert r. induction entries as [|e rest IH]; intros r; cbn [fold_left]; [lia|].
  pose proof (IH (parse_entry c r e)). pose proof (parse_entry_populated c r e). lia.
Qed.

Lemma find_absent (name : string) (entries : list (string * list AgentDataItem)) :
  ~ In name (map fst entries) ->
  find (fun e => fst e =? name) entries = None.
Proof.
  induction entries as [|e rest IH]; intros H; [reflexivity|].
  cbn [find]. destruct (fst e =? name) eqn:E.
  - apply String.eqb_eq in E. elim H. now left.
  - apply IH. intros Hin. apply H. now right.
Qed.

Lemma fold_slot (c : Clock) (k : AgentType) (entries : list (string * list AgentDataItem))
                (r : AgentResults) :
  NoDup (map fst entries) ->
  slot k (fold_left (parse_entry c) entries r)
  = match snapshot_slot c k entries with
    | Some v => Some v
    | None => slot k r
    end.
Proof.
  revert r. induction entries as [|e rest IH]; intros r Hnd; [reflexivity|].
  cbn [map] in Hnd. apply NoDup_cons_iff in Hnd. destruct Hnd as [Hnotin Hnd].
  cbn [fold_left]. rewrite (IH _ Hnd), parse_entry_slot.
  unfold snapshot_slot. cbn [find].
  destruct (fst e =? kind_name k) eqn:E.
  - apply String.eqb_eq in E. rewrite E in Hnotin.
    rewrite (find_absent _ _ Hnotin).
    destruct e as [name items]. cbn [snd].
    destruct (latest items) as [d|]; [|reflexivity].
    now destruct (parse_kind c k d).
  - reflexivity.
Qed.

Lemma populated_fill_empty (k : AgentType) (v : jsval) (r : AgentResults) :
  slot k r = None ->
  populated_slots (set_slot k (Some v) r) = (populated_slots r + 1)%Z.
Proof.
  destruct r as [l rs se me tot com act upd]. unfold populated_slots, all_kinds.
  destruct k, l, rs, se, me; cbn; intros H; first [discriminate H | reflexivity].
Qed.

(** When every key of [agent_data] is one of the four kinds and no key is
    repeated, each counted entry fills a slot that was empty: the count
    and the number of populated slots move together. *)
Lemma fold_exact (c : Clock) (entries : list (string * list AgentDataItem))
                 (r : AgentResults) :
  NoDup (map fst entries) ->
  (forall e, In e entries -> exists k, fst e = kind_name k /\ slot k r = None) ->
  (populated_slots (fold_left (parse_entry c) entries r)
   - completed_agents (fold_left (parse_entry c) entries r)
   = populated_slots r - completed_agents r)%Z.
Proof.
  revert r. induction entries as [|e rest IH]; intros r Hnd Hkeys; [reflexivity|].
  cbn [map] in Hnd. apply NoDup_cons_iff in Hnd. destruct Hnd as [Hnotin Hnd].
  cbn [fold_left]. rewrite IH; [|exact Hnd|].
  - destruct (Hkeys e (or_introl eq_refl)) as [k [Hk Hempty]].
    rewrite parse_entry_completed, parse_entry_spec, (counted_spec c).
    destruct (latest (snd e)) as [d|]; [|lia].
    rewrite Hk, kind_of_name_kind.
    destruct (parse_kind c k d) as [v|]; [|lia].
    rewrite populated_set_completed, (populated_fill_empty k v r Hempty). lia.
  - intros e' Hin. destruct (Hkeys e' (or_intror Hin)) as [k' [Hk' Hempty']].
    exists k'. split; [exact Hk'|].
    rewrite parse_entry_slot.
    destruct (fst e =? kind_name k') eqn:E; [|exact Hempty'].
    apply String.eqb_eq in E. elim Hnotin. rewrite E, <- Hk'. now apply in_map.
Qed.

(** For a snapshot that names only the four kinds, [completed_agents] is
    the number of populated slots. *)
Lemma snapshot_counts_slots (c : Clock) (s : CarGeekState)
                            (entries : list (string * list AgentDataItem)) :
  agent_data s = Some entries ->
  NoDup (map fst entries) ->
  (forall e, In e entries -> exists k, fst e = kind_name k) ->
  completed_agents (parseStateData c s) = populated_slots (parseStateData c s).
Proof.
  intros Hs Hnd Hkeys. unfold parseStateData. rewrite Hs.
  set (r0 := mkResults None None None None 0 0 (state_active_agents s) (iso c)).
  pose proof (fold_exact c entries r0 Hnd) as H.
  assert (Hk : forall e, In e entries -> exists k, fst e = kind_name k /\ slot k r0 = None).
  { intros e Hin. destruct (Hkeys e Hin) as [k Hk]. exists k. split; [exact Hk|].
    destruct k; reflexivity. }
  specialize (H Hk).
  change (populated_slots r0) with 0%Z in H. change (completed_agents r0) with 0%Z in H.
  change (completed_agents (set_total_agents _ ?x)) with (completed_agents x).
  change (populated_slots (set_total_agents _ ?x)) with (populated_slots x).
  lia.
Qed.

Lemma parseStateData_bound (c : Clock) (s : CarGeekState) :
  completed_le_total (parseStateData c s).
Proof.
  unfold completed_le_total, parseStateData, set_total_agents.
  cbn [total_agents completed_agents]. lia.
Qed.

(** C4, as stated, fails twice.  The component held a [listings] payload
    with five found; the snapshot's payload, with seven found, replaces
    it.  And a snapshot with data of a fifth agent gives
    [completed_agents = 1] with no slot populated. *)
Lemma snapshot_overwrites_and_miscounts :
  option_map (fun v => get v "total_found")
    (listings (Dashboard.agentResults Scenario.dashboard_five))
  = Some (JNum 5 0)
  /\ option_map (fun v => get v "total_found")
       (listings (Dashboard.agentResults
                    (Dashboard.apply Scenario.t1
                       (Dashboard.state_snapshot Scenario.snapshot_seven)
                       Scenario.dashboard_five)))
     = Some (JNum 7 0)
  /\ completed_agents (parseStateData Scenario.t1 Scenario.snapshot_analytics) = 1%Z
  /\ populated_slots (parseStateData Scenario.t1 Scenario.snapshot_analytics) = 0%Z.
Proof. repeat split; reflexivity. Qed.

(** C4, amended.  A state snapshot replaces the component's aggregate
    wholesale by one built from the snapshot alone: [active_agents] is the
    snapshot's; each of the four slots holds the parsed latest payload the
    snapshot carries for that kind, and is empty when it carries none,
    whatever the aggregate held before; [completed_agents] is the number
    of non-empty entries of [agent_data] that were read without an
    exception, which is at least the number of populated slots; and
    [total_agents] is [completed_agents] plus the active count. *)
Theorem snapshot_rebuilds_aggregate
    (c : Clock) (s : CarGeekState) (d : Dashboard.t)
    (entries : list (string * list AgentDataItem)) :
  agent_data s = Some entries ->
  NoDup (map fst entries) ->
  let r := Dashboard.agentResults (Dashboard.apply c (Dashboard.state_snapshot s) d) in
  r = parseStateData c s
  /\ active_agents r = state_active_agents s
  /\ (forall k, slot k r = snapshot_slot c k entries)
  /\ completed_agents r = Z.of_nat (List.length (filter counted entries))
  /\ total_agents r = (completed_agents r + Z.of_nat (List.length (active_agents r)))%Z
  /\ (populated_slots r <= completed_agents r)%Z.
Proof.
  intros Hs Hnd. cbv zeta.
  assert (E : Dashboard.agentResults (Dashboard.apply c (Dashboard.state_snapshot s) d)
              = parseStateData c s).
  { unfold Dashboard.apply, Dashboard.onStateObject. rewrite Hs.
    now destruct (current_results s). }
  rewrite E. unfold parseStateData. rewrite Hs.
  set (r0 := mkResults None None None None 0 0 (state_active_agents s) (iso c)).
  set (r1 := fold_left (parse_entry c) entries r0).
  assert (Hact : active_agents r1 = state_active_agents s) by apply fold_active.
  assert (Hcom : completed_agents r1 = Z.of_nat (List.length (filter counted entries))).
  { unfold r1. rewrite fold_completed. reflexivity. }
  assert (Hpop : (populated_slots r1 <= completed_agents r1)%Z).
  { pose proof (fold_populated c entries r0) as H. fold r1 in H.
    change (populated_slots r0) with 0%Z in H.
    change (completed_agents r0) with 0%Z in H. lia. }
  split; [reflexivity|]. split; [exact Hact|]. split; [|split; [exact Hcom|split]].
  - intros k.
    transitivity (slot k r1); [destruct k; reflexivity|].
    unfold r1. rewrite (fold_slot c k entries r0 Hnd).
    destruct (snapshot_slot c k entries); [reflexivity | destruct k; reflexivity].
  - reflexivity.
  - exact Hpop.
Qed.

Lemma snapshot_rebuilds_aggregate_witness :
  agent_data Scenario.snapshot_seven = Some [("listings", [mkItem Scenario.seven_found])]
  /\ NoDup (map fst [("listings", [mkItem Scenario.seven_found])])
  /\ Dashboard.agentResults
       (Dashboard.apply Scenario.t1 (Dashboard.state_snapshot Scenario.snapshot_seven)
                        Scenario.dashboard_five)
     = parseStateData Scenario.t1 Scenario.snapshot_seven.
Proof.
  assert (Hnd : NoDup (map fst [("listings", [mkItem Scenario.seven_found])])).
  { repeat constructor. intros H. exact H. }
  split; [reflexivity|]. split; [exact Hnd|].
  exact (proj1 (snapshot_rebuilds_aggregate Scenario.t1 Scenario.snapshot_seven
                  Scenario.dashboard_five
                  [("listings", [mkItem Scenario.seven_found])] eq_refl Hnd)).
Defined.

End Snapshots.

(* ================================================================== *)
(** * The counters along a run *)
(* ================================================================== *)

Section Counters.

Import AgentDataParser Claimed.

Lemma accounted_bound (r : AgentResults) : accounted r -> completed_le_total r.
Proof. unfold accounted, completed_le_total. intros [_ H]. lia. Qed.

(** Removing a kind that is in flight once shortens the list by one. *)
Lemma filter_out_length (l : list string) (x : string) :
  NoDup l -> In x l ->
  S (List.length (filter (fun a => negb (a =? x)) l)) = List.length l.
Proof.
  induction l as [|a l IH]; intros Hnd Hin; [contradiction|].
  apply NoDup_cons_iff in Hnd. destruct Hnd as [Hnotin Hnd].
  cbn [filter List.length]. destruct (a =? x) eqn:E; cbn [negb].
  - apply String.eqb_eq in E. subst a. f_equal.
    clear IH Hin Hnd. induction l as [|b l IH]; [reflexivity|].
    cbn [filter]. destruct (b =? x) eqn:Eb.
    + apply String.eqb_eq in Eb. subst b. elim Hnotin. now left.
    + cbn [negb List.length]. f_equal. apply IH. intros H. apply Hnotin. now right.
  - cbn [List.length]. f_equal. apply IH; [exact Hnd|].
    destruct Hin as [Hin | Hin]; [|exact Hin].
    subst a. rewrite String.eqb_refl in E. discriminate E.
Qed.

Lemma accounted_spawn (c : Clock) (e : AgentSpawnEvent) (p : t) :
  accounted (agentResults p) -> accounted (agentResults (fst (handleAgentSpawn c e p))).
Proof.
  intros [Hnd Hle]. rewrite spawn_results.
  destruct (includes (active_agents (agentResults p)) (agent e)) eqn:E.
  - split; [exact Hnd | exact Hle].
  - unfold accounted. cbn [set_last_updated set_total_agents set_active_agents
                           active_agents completed_agents total_agents].
    split.
    + apply NoDup_rev in Hnd. rewrite <- (rev_involutive (_ ++ _)%list).
      apply NoDup_rev. rewrite rev_app_distr. cbn [rev app].
      constructor; [|exact Hnd].
      rewrite <- in_rev. now apply includes_not_In.
    + rewrite length_app. cbn [List.length]. lia.
Qed.

Lemma accounted_complete (c : Clock) (e : AgentCompleteEvent) (p : t) :
  accounted (agentResults p) ->
  (success e && truthy (result e) = true ->
   includes (active_agents (agentResults p)) (agent_type e) = true) ->
  accounted (agentResults (fst (handleAgentComplete c e p))).
Proof.
  intros [Hnd Hle] Hann.
  destruct (success e && truthy (result e)) eqn:E.
  - apply andb_true_iff in E. destruct E as [Hs Hr].
    rewrite (complete_results c e p Hs Hr).
    specialize (Hann eq_refl). apply includes_In in Hann.
    pose proof (filter_out_length _ _ Hnd Hann) as Hlen.
    unfold accounted. cbn [set_last_updated active_agents completed_agents total_agents].
    destruct (store_result_meta (result e)
                (set_completed_agents (completed_agents (agentResults p) + 1)
                   (set_active_agents
                      (filter (fun a => negb (a =? agent_type e))
                              (active_agents (agentResults p)))
                      (agentResults p)))) as [Et [Ec [Ea _]]].
    rewrite Et, Ec, Ea.
    cbn [set_completed_agents set_active_agents active_agents completed_agents total_agents].
    split; [now apply NoDup_filter | lia].
  - rewrite (complete_failed c e p E). split; [exact Hnd | exact Hle].
Qed.

(** What the component holds after the calls of a handler: what it held,
    or the parser's new aggregate. *)
Lemma receive_one_pass (id : string) (q : t) (view : AgentResults) :
  Dashboard.receive id [notifyListeners q] view = view
  \/ Dashboard.receive id [notifyListeners q] view = agentResults q.
Proof.
  unfold Dashboard.receive, notifyListeners, getResults. cbn [fold_left].
  revert view. induction (listeners q) as [|k ks IH]; intros view; [now left|].
  cbn [map fold_left to snapshot].
  destruct (k =? id).
  - destruct (IH (agentResults q)) as [E | E]; right; exact E.
  - apply IH.
Qed.

Lemma steady_mount (c : Clock) (id : string) : steady (Dashboard.mount c id).
Proof.
  split.
  - unfold Dashboard.mount, onUpdate, AgentDataParser.new. cbn.
    split; [constructor | reflexivity].
  - unfold completed_le_total. cbn. lia.
Qed.

Lemma steady_apply (c : Clock) (env : Dashboard.Envelope) (d : Dashboard.t) :
  steady d -> Dashboard.announced env d = true -> steady (Dashboard.apply c env d).
Proof.
  intros [Hp Hv] Hann. destruct env as [e | e | s].
  - cbn [Dashboard.apply]. unfold Dashboard.after_handler.
    pose proof (accounted_spawn c e (Dashboard.parser d) Hp) as Hp'.
    split; cbn [Dashboard.parser Dashboard.agentResults]; [exact Hp'|].
    change (snd (handleAgentSpawn c e (Dashboard.parser d)))
      with [notifyListeners (fst (handleAgentSpawn c e (Dashboard.parser d)))].
    destruct (receive_one_pass (Dashboard.parserId d)
                (fst (handleAgentSpawn c e (Dashboard.parser d)))
                (Dashboard.agentResults d)) as [E | E]; rewrite E;
      [exact Hv | now apply accounted_bound].
  - cbn [Dashboard.apply]. unfold Dashboard.after_handler.
    cbn [Dashboard.announced] in Hann.
    assert (Hann' : success e && truthy (result e) = true ->
                    includes (active_agents (agentResults (Dashboard.parser d)))
                             (agent_type e) = true).
    { intros E. now rewrite E in Hann. }
    pose proof (accounted_complete c e (Dashboard.parser d) Hp Hann') as Hp'.
    split; cbn [Dashboard.parser Dashboard.agentResults]; [exact Hp'|].
    destruct (success e && truthy (result e)) eqn:E.
    + assert (Hs : snd (handleAgentComplete c e (Dashboard.parser d))
                   = [notifyListeners (fst (handleAgentComplete c e (Dashboard.parser d)))]).
      { apply andb_true_iff in E. destruct E as [Hs Hr].
        unfold handleAgentComplete. rewrite Hs, Hr. reflexivity. }
      rewrite Hs.
      destruct (receive_one_pass (Dashboard.parserId d)
                  (fst (handleAgentComplete c e (Dashboard.parser d)))
                  (Dashboard.agentResults d)) as [E' | E']; rewrite E';
        [exact Hv | now apply accounted_bound].
    + rewrite (complete_failed c e _ E). exact Hv.
  - cbn [Dashboard.apply]. unfold Dashboard.onStateObject.
    destruct (agent_data s), (current_results s);
      (split; cbn [Dashboard.parser Dashboard.agentResults];
       [exact Hp | first [apply parseStateData_bound | exact Hv]]).
Qed.

Lemma steady_trajectory (evs : list (Clock * Dashboard.Envelope)) (d : Dashboard.t) :
  steady d -> Dashboard.all_announced evs d = true ->
  Forall steady (Dashboard.trajectory evs d).
Proof.
  revert d. induction evs as [|[c env] rest IH]; intros d Hd Hall.
  - constructor; [exact Hd | constructor].
  - cbn [Dashboard.all_announced] in Hall. apply andb_true_iff in Hall.
    destruct Hall as [Hann Hrest].
    cbn [Dashboard.trajectory]. constructor; [exact Hd|].
    apply IH; [now apply steady_apply | exact Hrest].
Qed.

(** C6, as stated, fails: one successful completion that no spawn
    announced gives [completed_agents = 1] with [total_agents = 0], in the
    parser and in the component. *)
Lemma unannounced_completion_exceeds_total :
  completed_agents (agentResults (Dashboard.parser Scenario.unannounced)) = 1%Z
  /\ total_agents (agentResults (Dashboard.parser Scenario.unannounced)) = 0%Z
  /\ completed_agents (Dashboard.agentResults Scenario.unannounced) = 1%Z
  /\ total_agents (Dashboard.agentResults Scenario.unannounced) = 0%Z.
Proof. repeat split; reflexivity. Qed.

(** C6, amended.  For every sequence of spawn, complete and snapshot
    envelopes applied from the initial empty aggregate in which each
    successful completion names a kind that is in [active_agents] when it
    arrives, [completed_agents <= total_agents] holds in every intermediate
    and final state, in the parser's aggregate and in the aggregate the
    component shows. *)
Theorem completed_le_total_along_run
    (c : Clock) (id : string) (evs : list (Clock * Dashboard.Envelope)) :
  Dashboard.all_announced evs (Dashboard.mount c id) = true ->
  Forall (fun d => completed_le_total (agentResults (Dashboard.parser d))
                   /\ completed_le_total (Dashboard.agentResults d))
         (Dashboard.trajectory evs (Dashboard.mount c id)).
Proof.
  intros Hall.
  pose proof (steady_trajectory evs _ (steady_mount c id) Hall) as H.
  eapply Forall_impl; [|exact H].
  intros d [Hp Hv]. split; [now apply accounted_bound | exact Hv].
Qed.

Lemma completed_le_total_along_run_witness :
  Dashboard.all_announced Scenario.full_run
    (Dashboard.mount Scenario.t0 "vehicle-tesla-model-3") = true
  /\ Forall (fun d => completed_le_total (agentResults (Dashboard.parser d))
                      /\ completed_le_total (Dashboard.agentResults d))
            (Dashboard.trajectory Scenario.full_run
               (Dashboard.mount Scenario.t0 "vehicle-tesla-model-3")).
Proof.
  split; [reflexivity|].
  apply (completed_le_total_along_run Scenario.t0 "vehicle-tesla-model-3" Scenario.full_run).
  reflexivity.
Defined.

End Counters.

(* ================================================================== *)
(** * The proxies' answer to an upstream error *)
(* ================================================================== *)

Section ProxyErrors.

Import Proxy.

Lemma attempt_not_ok (u : Upstream) :
  ok u = false ->
  attempt (Responded u) = inr (Some ("Backend returned " ++ decimal (up_status u))).
Proof. intros H. unfold attempt. now rewrite H. Qed.

(** C9, as stated, fails for the vehicle-profile endpoint: on an upstream
    503 it answers 500 with a JSON body, not a stream. *)
Lemma vehicle_stream_answers_500 :
  ok Scenario.unavailable = false
  /\ status (VehicleStream.POST "vehicle-1" (Responded Scenario.unavailable)) = 500%N
  /\ header "Content-Type" (VehicleStream.POST "vehicle-1" (Responded Scenario.unavailable))
     = Some "application/json"
  /\ body (VehicleStream.POST "vehicle-1" (Responded Scenario.unavailable))
     = Text (dq "{'error':'Vehicle stream failed','details':'Backend returned 503'}").
Proof. repeat split; reflexivity. Qed.

(** C9, amended.  For every upstream response whose status is not 2xx,
    the chat-stream endpoint answers with status 200 and content type
    [text/event-stream], its body being one error envelope followed by the
    terminal marker; the vehicle-profile endpoint answers with status 500
    and content type [application/json], its body being one JSON object
    with the error and its details. *)
Theorem upstream_error_answers (sessionId : string) (u : Upstream) :
  ok u = false ->
  let message := "Backend returned " ++ decimal (up_status u) in
  status (CargeekStream.POST (Responded u)) = 200%N
  /\ header "Content-Type" (CargeekStream.POST (Responded u)) = Some "text/event-stream"
  /\ body (CargeekStream.POST (Responded u))
     = Text ("data: " ++ stringify [("type", "error"); ("errorText", message)]
             ++ nl ++ nl ++ "data: [DONE]" ++ nl ++ nl)
  /\ status (VehicleStream.POST sessionId (Responded u)) = 500%N
  /\ header "Content-Type" (VehicleStream.POST sessionId (Responded u))
     = Some "application/json"
  /\ body (VehicleStream.POST sessionId (Responded u))
     = Text (stringify [("error", "Vehicle stream failed"); ("details", message)]).
Proof.
  intros H. cbv zeta.
  unfold CargeekStream.POST, VehicleStream.POST. rewrite (attempt_not_ok u H).
  repeat split; reflexivity.
Qed.

Lemma upstream_error_answers_witness :
  ok Scenario.unavailable = false
  /\ status (CargeekStream.POST (Responded Scenario.unavailable)) = 200%N
  /\ body (CargeekStream.POST (Responded Scenario.unavailable))
     = Text (dq "data: {'type':'error','errorText':'Backend returned 503'}"
             ++ nl ++ nl ++ "data: [DONE]" ++ nl ++ nl).
Proof.
  split; [reflexivity|].
  pose proof (upstream_error_answers "vehicle-1" Scenario.unavailable eq_refl) as H.
  cbv zeta in H. destruct H as [H1 [_ [H3 _]]].
  split; [exact H1 | exact H3].
Defined.

End ProxyErrors.

(* ================================================================== *)
(** * The scenarios of the specification *)
(* ================================================================== *)

Section Scenarios.

Import AgentDataParser.

(** Scenario 1: [listings] is spawned, then completes with five found. *)
Example scenario_spawn_then_complete :
  total_agents (agentResults Scenario.listings_spawned) = 1%Z
  /\ active_agents (agentResults Scenario.listings_spawned) = ["listings"]
  /\ active_agents (agentResults Scenario.listings_completed) = []
  /\ completed_agents (agentResults Scenario.listings_completed) = 1%Z
  /\ option_map (fun v => get v "total_found")
       (listings (agentResults Scenario.listings_completed)) = Some (JNum 5 0)
  /\ isComplete Scenario.listings_completed = true.
Proof. repeat split; reflexivity. Qed.

(** Scenario 2, up to the failure: two spawns in order. *)
Example scenario_two_spawns :
  active_agents (agentResults Scenario.two_spawned) = ["research"; "media"]
  /\ total_agents (agentResults Scenario.two_spawned) = 2%Z
  /\ completed_agents (agentResults Scenario.two_spawned) = 0%Z
  /\ research (agentResults Scenario.two_spawned) = None.
Proof. repeat split; reflexivity. Qed.

(** Scenario 3: of two subscribers, the one that unsubscribed is not
    called any more. *)
Example scenario_unsubscribe :
  map to (notifyListeners (onUpdate "chat-1" (onUpdate "vehicle-1" (AgentDataParser.new Scenario.t0))))
  = ["vehicle-1"; "chat-1"]
  /\ map to (notifyListeners
               (offUpdate "vehicle-1"
                  (onUpdate "chat-1" (onUpdate "vehicle-1" (AgentDataParser.new Scenario.t0)))))
     = ["chat-1"].
Proof. split; reflexivity. Qed.

(** What [JSON.parse] accepts and what it rejects. *)
Example json_parse_samples :
  JSON_parse (dq " {'a': [1, -2.50e3, true, null, 'xA\n'], 'a': {}} ")
  = Some (JObj [("a", JArr [JNum 1 0; JNum (-250) 1; JBool true; JNull;
                            JStr ("xA" ++ Proxy.nl)]);
                ("a", JObj [])])
  /\ get (JObj [("a", JNum 1 0); ("a", JNum 2 0)]) "a" = JNum 2 0
  /\ JSON_parse "not-json" = None
  /\ JSON_parse "" = None
  /\ JSON_parse "01" = None
  /\ JSON_parse "1." = None
  /\ JSON_parse "[1,]" = None
  /\ JSON_parse (dq "{'a':1,}") = None
  /\ JSON_parse (dq "{'a' 1}") = None
  /\ JSON_parse "[1] 2" = None
  /\ JSON_parse "nul" = None
  /\ JSON_parse "null" = Some JNull.
Proof. repeat split; reflexivity. Qed.

(** A well-formed spawn line is decoded and routed to its handler. *)
Example decode_and_route_spawn :
  Dashboard.route
    (parseStreamingEvent
       (dq "data: {'type': 'agent_spawn', 'data': {'agent': 'listings', 'priority': 'background', 'agent_id': 'a1'}}"))
  = Dashboard.ToHandler (Dashboard.agent_spawn (mkSpawn "listings")).
Proof. reflexivity. Qed.

(** The error envelope of the chat-stream proxy is no agent event: the
    decoder returns it and the consumer runs no handler. *)
Example error_envelope_is_ignored :
  Dashboard.route
    (parseStreamingEvent (dq "data: {'type':'error','errorText':'Backend returned 503'}"))
  = Dashboard.NoHandler.
Proof. reflexivity. Qed.

End Scenarios.

(* ================================================================== *)
(** * The chat-stream proxy and the decoder together *)
(* ================================================================== *)

Section ProxyAndDecoder.

Import Proxy Proxy.CargeekStream Claimed Sse AgentDataParser Json.

Lemma no_line_feed_app (a b : string) :
  no_line_feed (a ++ b) = no_line_feed a && no_line_feed b.
Proof.
  induction a as [|c r IH]; [reflexivity|].
  cbn [append no_line_feed]. rewrite IH. now rewrite andb_assoc.
Qed.

(** A line without line feed, its terminator, and what follows. *)
Lemma split_lines_line (l rest : string) :
  no_line_feed l = true ->
  split_lines (l ++ nl ++ rest) = l :: split_lines rest.
Proof.
  induction l as [|c r IH]; intros H.
  - reflexivity.
  - cbn [no_line_feed] in H. apply andb_true_iff in H. destruct H as [Hc Hr].
    cbn [append split_lines]. apply negb_true_iff in Hc. rewrite Hc.
    now rewrite (IH Hr).
Qed.

Lemma split_lines_no_line_feed (s : string) :
  Forall (fun l => no_line_feed l = true) (split_lines s).
Proof.
  induction s as [|c r IH]; cbn [split_lines].
  - repeat constructor.
  - destruct (c =? LF)%char eqn:E.
    + constructor; [reflexivity | exact IH].
    + pose proof (split_lines_not_nil r) as Hne.
      destruct (split_lines r) as [|l ls]; [contradiction|].
      inversion IH as [|? ? Hl Hls]; subst.
      constructor; [|exact Hls].
      cbn [no_line_feed]. now rewrite E, Hl.
Qed.

Lemma no_line_feed_drop (n : nat) (s : string) :
  no_line_feed s = true -> no_line_feed (drop n s) = true.
Proof.
  revert s. induction n as [|n IH]; intros s H; [exact H|].
  destruct s as [|c r]; [reflexivity|].
  cbn [no_line_feed] in H. apply andb_true_iff in H. cbn [drop]. now apply IH.
Qed.

Lemma split_lines_stream (bodies : list string) :
  Forall (fun b => no_line_feed b = true) bodies ->
  split_lines (stream bodies)
  = (flat_map (fun b => [("data: " ++ b)%string; ""]) bodies ++ [""])%list.
Proof.
  induction bodies as [|b rest IH]; intros H; [reflexivity|].
  apply Forall_cons_iff in H. destruct H as [Hb Hrest].
  cbn [stream fold_right flat_map]. fold (stream rest). unfold event.
  replace (("data: " ++ b ++ nl ++ nl) ++ stream rest)
    with (("data: " ++ b) ++ nl ++ ("" ++ nl ++ stream rest)).
  - rewrite split_lines_line by (cbn [append no_line_feed]; now rewrite Hb).
    rewrite split_lines_line by reflexivity.
    rewrite (IH Hrest). reflexivity.
  - cbn [append]. rewrite !append_assoc. reflexivity.
Qed.

Lemma forwarded_stream (bodies : list string) :
  Forall (fun b => no_line_feed b = true) bodies ->
  forwarded (stream bodies) = map event bodies
  /\ trailing_line (stream bodies) = "".
Proof.
  intros H. unfold forwarded, complete_lines, trailing_line.
  rewrite (split_lines_stream bodies H). rewrite removelast_last, last_last.
  split; [|reflexivity].
  clear H. induction bodies as [|b rest IH]; [reflexivity|].
  cbn [flat_map app filter].
  replace (startsWith ("data: " ++ b) "data: ") with true by (now destruct b).
  change (startsWith "" "data: ") with false.
  cbn [map]. rewrite IH. reflexivity.
Qed.

(** What the pipe enqueues, for each way the upstream can end. *)
Lemma pipe_output (u : Upstream) :
  pipe u
  = match up_ending u with
    | EndOfStream | Timeout =>
        Streamed (forwarded (whole (up_chunks u)) ++ flushed (whole (up_chunks u)))%list false
    | Fault => Streamed (forwarded (whole (up_chunks u))) true
    end.
Proof.
  unfold pipe. rewrite (write_all_spec (up_chunks u) "" eq_refl). cbn [append].
  rewrite flush_spec. reflexivity.
Qed.

(** X1.  An upstream that already writes its events in the proxy's own
    shape passes through unchanged: whatever the chunk boundaries, the
    chat-stream proxy enqueues exactly the upstream's events, byte for byte
    and in order. *)
Theorem canonical_stream_passes_through
    (st : N) (chunks bodies : list string) :
  Forall (fun b => no_line_feed b = true) bodies ->
  whole chunks = stream bodies ->
  pipe (mkUpstream st chunks EndOfStream) = Streamed (map event bodies) false.
Proof.
  intros Hb Hw. rewrite pipe_output. cbn [up_ending up_chunks]. rewrite Hw.
  destruct (forwarded_stream bodies Hb) as [Hf Ht].
  unfold flushed. rewrite Hf, Ht. cbn. now rewrite app_nil_r.
Qed.

End ProxyAndDecoder.

Section ProxyOutput.

Import Proxy Proxy.CargeekStream Claimed Sse AgentDataParser Json.

Lemma whole_events (bodies : list string) : whole (map event bodies) = stream bodies.
Proof.
  induction bodies as [|b rest IH]; [reflexivity|].
  cbn [map whole fold_right stream]. fold (whole (map event rest)). fold (stream rest).
  now rewrite IH.
Qed.

(** The events of a stream of canonical events, however it is chunked. *)
Lemma pipe_of_stream (st : N) (chunks bodies : list string) :
  Forall (fun b => no_line_feed b = true) bodies ->
  whole chunks = stream bodies ->
  pipe (mkUpstream st chunks EndOfStream) = Streamed (map event bodies) false.
Proof.
  intros Hb Hw. rewrite pipe_output. cbn [up_ending up_chunks]. rewrite Hw.
  destruct (forwarded_stream bodies Hb) as [Hf Ht].
  unfold flushed. rewrite Hf, Ht. cbn. now rewrite app_nil_r.
Qed.

Lemma forwarded_events (text : string) :
  exists bodies,
    forwarded text = map event bodies
    /\ Forall (fun b => no_line_feed b = true) bodies.
Proof.
  unfold forwarded, complete_lines.
  assert (Hall : Forall (fun l => no_line_feed l = true) (removelast (split_lines text))).
  { pose proof (split_lines_no_line_feed text) as H.
    rewrite (app_removelast_last "" (split_lines_not_nil text)) in H.
    apply Forall_app in H. exact (proj1 H). }
  induction (removelast (split_lines text)) as [|l ls IH].
  - exists []. split; [reflexivity | constructor].
  - apply Forall_cons_iff in Hall. destruct Hall as [Hl Hls].
    destruct (IH Hls) as [bodies [E Hb]].
    cbn [filter]. destruct (startsWith l "data: "); [|now exists bodies].
    exists (drop 6 l :: bodies). split.
    + cbn [map]. rewrite E. reflexivity.
    + constructor; [now apply no_line_feed_drop | exact Hb].
Qed.

Lemma flushed_events (text : string) :
  exists bodies,
    flushed text = map event bodies
    /\ Forall (fun b => no_line_feed b = true) bodies.
Proof.
  unfold flushed. destruct (startsWith (trailing_line text) "data: ") eqn:E.
  - exists [drop 6 (trailing_line text)]. split.
    + cbn [map]. unfold event. f_equal.
      rewrite <- (startsWith_data _ E) at 1. now rewrite append_assoc.
    + constructor; [|constructor]. apply no_line_feed_drop.
      pose proof (split_lines_no_line_feed text) as H.
      rewrite (app_removelast_last "" (split_lines_not_nil text)) in H.
      apply Forall_app in H. destruct H as [_ H]. now inversion H.
  - exists []. split; [reflexivity | constructor].
Qed.

Lemma pipe_events (u : Upstream) :
  exists bodies errored,
    pipe u = Streamed (map event bodies) errored
    /\ Forall (fun b => no_line_feed b = true) bodies.
Proof.
  rewrite pipe_output.
  destruct (forwarded_events (whole (up_chunks u))) as [b1 [E1 H1]].
  destruct (flushed_events (whole (up_chunks u))) as [b2 [E2 H2]].
  destruct (up_ending u).
  - exists (b1 ++ b2)%list, false. rewrite E1, E2, map_app.
    split; [reflexivity | now apply Forall_app].
  - exists (b1 ++ b2)%list, false. rewrite E1, E2, map_app.
    split; [reflexivity | now apply Forall_app].
  - exists b1, true. rewrite E1. split; [reflexivity | exact H1].
Qed.

(** ** The proxy's output, line by line *)

Lemma split_lines_plain (s : string) :
  no_line_feed s = true -> split_lines s = [s].
Proof.
  induction s as [|c r IH]; intros H; [reflexivity|].
  cbn [no_line_feed] in H. apply andb_true_iff in H. destruct H as [Hc Hr].
  apply negb_true_iff in Hc. cbn [split_lines]. now rewrite Hc, (IH Hr).
Qed.

Lemma split_lines_text_of_lines (ls : list string) (rest : string) :
  Forall (fun l => no_line_feed l = true) ls ->
  no_line_feed rest = true ->
  split_lines (text_of_lines ls rest) = (ls ++ [rest])%list.
Proof.
  intros Hls Hrest. induction ls as [|l ls IH]; cbn [text_of_lines fold_right app].
  - now apply split_lines_plain.
  - apply Forall_cons_iff in Hls. destruct Hls as [Hl Hls].
    fold (text_of_lines ls rest). rewrite (split_lines_line _ _ Hl). now rewrite (IH Hls).
Qed.

Lemma text_of_lines_cons (x y : string) (ys : list string) :
  text_of_lines (removelast (x :: y :: ys)) (last (x :: y :: ys) "")
  = x ++ nl ++ text_of_lines (removelast (y :: ys)) (last (y :: ys) "").
Proof. reflexivity. Qed.

(** Every text is made of lines in this way. *)
Lemma text_has_lines (text : string) :
  text_of_lines (complete_lines text) (trailing_line text) = text.
Proof.
  unfold complete_lines, trailing_line.
  induction text as [|c r IH]; [reflexivity|].
  cbn [split_lines]. pose proof (split_lines_not_nil r) as Hne.
  destruct (split_lines r) as [|l ls] eqn:Er; [contradiction|].
  destruct (c =? LF)%char eqn:E.
  - apply Ascii.eqb_eq in E. subst c.
    rewrite text_of_lines_cons, IH. reflexivity.
  - destruct ls as [|l' ls].
    + cbn in IH. subst r. reflexivity.
    + rewrite text_of_lines_cons. rewrite text_of_lines_cons in IH.
      cbn [append]. now rewrite IH.
Qed.

(** What the pipe enqueues, told by the lines of the upstream text. *)
Lemma pipe_lines (u : Upstream) (ls : list string) (rest : string) :
  Forall (fun l => no_line_feed l = true) ls ->
  no_line_feed rest = true ->
  whole (up_chunks u) = text_of_lines ls rest ->
  write_all "" (up_chunks u) = (rest, map as_event (data_lines ls))
  /\ pipe u
     = match up_ending u with
       | EndOfStream | Timeout =>
           Streamed (map as_event (data_lines ls)
                     ++ (if String.prefix "data: " rest then [as_event rest] else []))%list
                    false
       | Fault => Streamed (map as_event (data_lines ls)) true
       end.
Proof.
  intros Hls Hrest Hw.
  assert (Hf : forwarded (whole (up_chunks u)) = map as_event (data_lines ls)).
  { rewrite forwarded_unmodified. unfold complete_lines.
    rewrite Hw, (split_lines_text_of_lines ls rest Hls Hrest), removelast_last.
    reflexivity. }
  assert (Ht : trailing_line (whole (up_chunks u)) = rest).
  { unfold trailing_line.
    rewrite Hw, (split_lines_text_of_lines ls rest Hls Hrest). apply last_last. }
  split.
  - rewrite (write_all_spec (up_chunks u) "" eq_refl). cbn [append]. now rewrite Hf, Ht.
  - rewrite pipe_output, Hf. unfold flushed. rewrite Ht. reflexivity.
Qed.

(** A data line is the marker and its body, and the body holds no line
    feed when the line holds none. *)
Lemma data_lines_bodies (ls : list string) :
  Forall (fun l => no_line_feed l = true) ls ->
  map event (map (drop 6) (data_lines ls)) = map as_event (data_lines ls)
  /\ Forall (fun b => no_line_feed b = true) (map (drop 6) (data_lines ls))
  /\ map (fun b => "data: " ++ b) (map (drop 6) (data_lines ls)) = data_lines ls.
Proof.
  unfold data_lines. induction ls as [|l ls IH]; intros H.
  - repeat split. constructor.
  - apply Forall_cons_iff in H. destruct H as [Hl Hls].
    destruct (IH Hls) as (E1 & E2 & E3).
    cbn [filter]. destruct (String.prefix "data: " l) eqn:E; [|now repeat split].
    pose proof (prefix_drop _ _ E) as Hd. cbn [String.length] in Hd.
    cbn [map]. rewrite E1, E3. repeat split.
    + f_equal. unfold event, as_event. rewrite <- Hd at 2. now rewrite append_assoc.
    + constructor; [now apply no_line_feed_drop | exact E2].
    + now rewrite Hd.
Qed.

(** C10.  For every upstream text, made of complete lines [ls] and an
    unterminated rest, however it is cut into chunks: the chat-stream
    transform forwards exactly the complete lines that begin with the data
    marker, in order, each as it came (the marker and its unmodified body)
    followed by two line feeds, and no other complete line; the rest stays
    in the buffer across chunks and, when the stream ends, is flushed in
    the same way if it begins with the data marker and discarded
    otherwise. *)
Theorem transform_forwards_data_lines
    (st : N) (chunks ls : list string) (rest : string) :
  Forall (fun l => no_line_feed l = true) ls ->
  no_line_feed rest = true ->
  whole chunks = text_of_lines ls rest ->
  write_all "" chunks = (rest, map as_event (data_lines ls))
  /\ pipe (mkUpstream st chunks EndOfStream)
     = Streamed (map as_event (data_lines ls)
                 ++ (if String.prefix "data: " rest then [as_event rest] else []))%list
                false.
Proof.
  intros Hls Hrest Hw.
  exact (pipe_lines (mkUpstream st chunks EndOfStream) ls rest Hls Hrest Hw).
Qed.

Lemma transform_forwards_data_lines_witness :
  write_all "" [": keep-alive" ++ nl ++ "event: x" ++ nl ++ "da";
                "ta: {a}" ++ nl ++ nl ++ "data:no-space" ++ nl ++ "data: [DO";
                "NE]"]
  = ("data: [DONE]", ["data: {a}" ++ nl ++ nl])
  /\ pipe (mkUpstream 200
             [": keep-alive" ++ nl ++ "event: x" ++ nl ++ "da";
              "ta: {a}" ++ nl ++ nl ++ "data:no-space" ++ nl ++ "data: [DO";
              "NE]"] EndOfStream)
     = Streamed ["data: {a}" ++ nl ++ nl; "data: [DONE]" ++ nl ++ nl] false.
Proof.
  apply (transform_forwards_data_lines 200 _
           [": keep-alive"; "event: x"; "data: {a}"; ""; "data:no-space"] "data: [DONE]").
  - repeat constructor.
  - reflexivity.
  - reflexivity.
Defined.

(** X2.  Every chunk the chat-stream proxy enqueues has the shape of one
    event (the data marker, a body without line feed, two line feeds), and
    the events are, in order, exactly the upstream's lines that begin with
    the marker.  When the upstream ends normally or with a timeout, the
    unterminated rest counts as a line, so a line cut off by a timeout is
    sent on as if it were whole; after any other fault only the terminated
    lines are sent and the stream is errored. *)
Theorem proxy_emits_whole_events (u : Upstream) (ls : list string) (rest : string) :
  Forall (fun l => no_line_feed l = true) ls ->
  no_line_feed rest = true ->
  whole (up_chunks u) = text_of_lines ls rest ->
  exists bodies,
    pipe u = Streamed (map event bodies)
                      (match up_ending u with Fault => true | _ => false end)
    /\ Forall (fun b => no_line_feed b = true) bodies
    /\ map (fun b => "data: " ++ b) bodies
       = data_lines (match up_ending u with
                     | Fault => ls
                     | _ => (ls ++ [rest])%list
                     end).
Proof.
  intros Hls Hrest Hw.
  destruct (pipe_lines u ls rest Hls Hrest Hw) as [_ Hp].
  assert (Hall : Forall (fun l => no_line_feed l = true) (ls ++ [rest])%list).
  { apply Forall_app. split; [exact Hls | now constructor]. }
  assert (Hsnoc : (map as_event (data_lines ls)
                   ++ (if String.prefix "data: " rest then [as_event rest] else []))%list
                  = map as_event (data_lines (ls ++ [rest])%list)).
  { unfold data_lines. rewrite filter_app, map_app. cbn [filter].
    now destruct (String.prefix "data: " rest). }
  destruct (up_ending u).
  - exists (map (drop 6) (data_lines (ls ++ [rest])%list)).
    destruct (data_lines_bodies _ Hall) as (E1 & E2 & E3).
    rewrite Hp, Hsnoc, E1. now repeat split.
  - exists (map (drop 6) (data_lines (ls ++ [rest])%list)).
    destruct (data_lines_bodies _ Hall) as (E1 & E2 & E3).
    rewrite Hp, Hsnoc, E1. now repeat split.
  - exists (map (drop 6) (data_lines ls)).
    destruct (data_lines_bodies _ Hls) as (E1 & E2 & E3).
    rewrite Hp, E1. now repeat split.
Qed.

Lemma proxy_emits_whole_events_witness :
  exists bodies,
    pipe (mkUpstream 200 [": ping" ++ nl ++ "data: a" ++ nl; nl ++ dq "data: {'type':'listi"]
                     Timeout)
    = Streamed (map event bodies) false
    /\ Forall (fun b => no_line_feed b = true) bodies
    /\ map (fun b => "data: " ++ b) bodies
       = data_lines [": ping"; "data: a"; ""; dq "data: {'type':'listi"].
Proof.
  apply (proxy_emits_whole_events
           (mkUpstream 200 [": ping" ++ nl ++ "data: a" ++ nl; nl ++ dq "data: {'type':'listi"]
                       Timeout)
           [": ping"; "data: a"; ""] (dq "data: {'type':'listi")).
  - repeat constructor.
  - reflexivity.
  - reflexivity.
Defined.

(** X3.  The transform is idempotent: what the chat-stream proxy has
    written, sent through the proxy once more in any chunking, comes out
    as it went in. *)
Theorem proxy_twice_is_proxy_once
    (u : Upstream) (st : N) (out rechunked : list string) (errored : bool) :
  pipe u = Streamed out errored ->
  whole rechunked = whole out ->
  pipe (mkUpstream st rechunked EndOfStream) = Streamed out false.
Proof.
  intros Hp Hw.
  destruct (pipe_events u) as [bodies [e [E Hb]]].
  rewrite Hp in E. injection E as Eout _. subst out.
  apply pipe_of_stream; [exact Hb|].
  now rewrite Hw, whole_events.
Qed.

Lemma proxy_twice_is_proxy_once_witness :
  pipe (mkUpstream 200 [": ping" ++ nl ++ "data: a" ++ nl ++ "data: b"] EndOfStream)
  = Streamed ["data: a" ++ nl ++ nl; "data: b" ++ nl ++ nl] false
  /\ pipe (mkUpstream 200 ["data: a" ++ nl; nl ++ "data: b" ++ nl ++ nl] EndOfStream)
     = Streamed ["data: a" ++ nl ++ nl; "data: b" ++ nl ++ nl] false.
Proof.
  split; [reflexivity|].
  apply (proxy_twice_is_proxy_once
           (mkUpstream 200 [": ping" ++ nl ++ "data: a" ++ nl ++ "data: b"] EndOfStream)
           200 ["data: a" ++ nl ++ nl; "data: b" ++ nl ++ nl]
           ["data: a" ++ nl; nl ++ "data: b" ++ nl ++ nl] false);
    reflexivity.
Defined.

End ProxyOutput.

Lemma canonical_stream_passes_through_witness :
  Proxy.CargeekStream.pipe
    (Proxy.mkUpstream 200
       ["data: first" ++ Proxy.nl; Proxy.nl ++ "data: [DO"; "NE]" ++ Proxy.nl ++ Proxy.nl]
       Proxy.EndOfStream)
  = Proxy.Streamed (map Sse.event ["first"; "[DONE]"]) false.
Proof.
  apply (canonical_stream_passes_through 200
           ["data: first" ++ Proxy.nl; Proxy.nl ++ "data: [DO"; "NE]" ++ Proxy.nl ++ Proxy.nl]
           ["first"; "[DONE]"]).
  - repeat constructor.
  - reflexivity.
Defined.

(* ================================================================== *)
(** * The decoder on what the proxy writes *)
(* ================================================================== *)

Section DecoderOnEvents.

Import Proxy Sse AgentDataParser Json.

Lemma step_start_settled (c : ascii) (ts : list token) (m : lexmode) :
  step_start c = Some (ts, m) -> settled m.
Proof.
  unfold step_start.
  repeat match goal with
         | |- (if ?b then _ else _) = _ -> _ => destruct b
         end;
    intros H; try discriminate H; injection H as _ <-; exact I || reflexivity.
Qed.

Lemma step_settled (m m' : lexmode) (c : ascii) (ts : list token) :
  settled m -> step m c = Some (ts, m') -> settled m'.
Proof.
  intros Hm H. destruct m as [|rest t|st a|acc|acc|acc todo v]; cbn [step] in H.
  - exact (step_start_settled c ts m' H).
  - destruct rest as [|e rest]; [discriminate H|].
    cbn [settled no_line_feed] in Hm. apply andb_true_iff in Hm. destruct Hm as [_ Hm].
    destruct (c =? e)%char; [|discriminate H].
    destruct rest; injection H as _ <-; [exact I | exact Hm].
  - unfold step_number, end_number in H.
    destruct st;
      repeat match type of H with
             | (if ?b then _ else _) = _ => destruct b
             | match step_start ?x with _ => _ end = _ =>
                 let E := fresh "E" in
                 destruct (step_start x) as [[ts0 m0]|] eqn:E
             end;
      try discriminate H; injection H as _ <-;
      first [exact I | eapply step_start_settled; eassumption].
  - repeat match type of H with
           | (if ?b then _ else _) = _ => destruct b
           end; try discriminate H; injection H as _ <-; exact I.
  - unfold step_escape in H.
    repeat match type of H with
           | (if ?b then _ else _) = _ => destruct b
           end; try discriminate H; injection H as _ <-; exact I.
  - destruct (hex_digit c); [|discriminate H].
    destruct todo as [|[|k]]; injection H as _ <-; exact I.
Qed.

(** A line feed at the end of the text ends the last token, if it can end
    there, and adds nothing. *)
Lemma lex_line_feed (m : lexmode) : settled m -> lex m nl = finish m.
Proof.
  intros Hm. destruct m as [|rest t|st a|acc|acc|acc todo v].
  - reflexivity.
  - destruct rest as [|e rest]; [reflexivity|].
    cbn [settled no_line_feed] in Hm. apply andb_true_iff in Hm. destruct Hm as [He _].
    apply negb_true_iff in He.
    unfold nl. cbn [lex step]. rewrite Ascii.eqb_sym in He. now rewrite He.
  - destruct st; reflexivity.
  - reflexivity.
  - reflexivity.
  - reflexivity.
Qed.

Lemma lex_app_line_feed (s : string) (m : lexmode) :
  settled m -> lex m (s ++ nl) = lex m s.
Proof.
  revert m. induction s as [|c r IH]; intros m Hm.
  - cbn [append]. rewrite (lex_line_feed m Hm). reflexivity.
  - cbn [append lex]. destruct (step m c) as [[ts m']|] eqn:E; [|reflexivity].
    now rewrite (IH m' (step_settled m m' c ts Hm E)).
Qed.

(** [JSON.parse] reads a text followed by a line feed as the text. *)
Lemma JSON_parse_line_feed (s : string) : JSON_parse (s ++ nl) = JSON_parse s.
Proof. unfold JSON_parse. now rewrite (lex_app_line_feed s LStart I). Qed.

Lemma prefix_app_line_feed (p e rest : string) :
  no_line_feed p = true ->
  String.prefix p (e ++ String LF rest) = String.prefix p e.
Proof.
  revert e. induction p as [|a p IH]; intros e Hp.
  - now destruct e.
  - cbn [no_line_feed] in Hp. apply andb_true_iff in Hp. destruct Hp as [Ha Hp].
    destruct e as [|c e]; cbn [append String.prefix].
    + destruct (ascii_dec a LF) as [->|]; [discriminate Ha | reflexivity].
    + destruct (ascii_dec a c); [now apply IH | reflexivity].
Qed.

Lemma drop_app (p e x : string) :
  String.prefix p e = true ->
  drop (String.length p) (e ++ x) = drop (String.length p) e ++ x.
Proof.
  revert e. induction p as [|a p IH]; intros e H; [reflexivity|].
  destruct e as [|c e]; [discriminate H|].
  cbn [String.prefix] in H. destruct (ascii_dec a c); [|discriminate H].
  cbn [String.length append drop]. now apply IH.
Qed.

Lemma cleanData_line_feed (e rest : string) :
  cleanData (e ++ String LF rest) = cleanData e ++ String LF rest.
Proof.
  unfold cleanData, startsWith.
  rewrite (prefix_app_line_feed "data: " e rest eq_refl).
  destruct (String.prefix "data: " e) eqn:E; [|reflexivity].
  exact (drop_app "data: " e (String LF rest) E).
Qed.

(** X4.  The decoder reads an event as the proxy writes it, with its two
    line feeds, exactly as it reads the line alone. *)
Theorem decoder_ignores_event_terminator (line : string) :
  parseStreamingEvent (line ++ nl ++ nl) = parseStreamingEvent line.
Proof.
  rewrite !parseStreamingEvent_spec.
  change (nl ++ nl) with (String LF nl). rewrite cleanData_line_feed.
  change (String LF nl) with (nl ++ nl).
  rewrite <- append_assoc, !JSON_parse_line_feed. reflexivity.
Qed.

End DecoderOnEvents.

Section ErrorEnvelope.

Import Proxy Sse AgentDataParser Json.

(** The scanner, inside a string literal, reads what [JSON.stringify]
    wrote for a character as that character. *)
Lemma lex_quote_char (c : ascii) (acc rest : string) :
  lex (LStr acc) (quote_char c ++ rest) = lex (LStr (acc ++ String c "")) rest.
Proof.
  destruct c as [[] [] [] [] [] [] [] []];
    cbn; destruct (lex _ rest); reflexivity.
Qed.

Lemma lex_quote_body (s acc rest : string) :
  lex (LStr acc) (quote_body s ++ String quotation_mark rest)
  = match lex LStart rest with
    | Some ts => Some (TString (acc ++ s) :: ts)
    | None => None
    end.
Proof.
  revert acc. induction s as [|c r IH]; intros acc.
  - cbn [quote_body append lex step]. rewrite append_empty_r.
    change (quotation_mark =? quotation_mark)%char with true. cbn iota.
    destruct (lex LStart rest); reflexivity.
  - cbn [quote_body]. rewrite append_assoc, lex_quote_char, IH.
    rewrite append_assoc. reflexivity.
Qed.

Lemma no_line_feed_quote_body (s : string) : no_line_feed (quote_body s) = true.
Proof.
  induction s as [|c r IH]; [reflexivity|].
  cbn [quote_body]. rewrite no_line_feed_app, IH, andb_true_r.
  destruct c as [[] [] [] [] [] [] [] []]; reflexivity.
Qed.

(** The error line, with the message's place in it. *)
Lemma error_line_shape (message : string) :
  error_line message
  = dq "data: {'type':'error','errorText':'"
    ++ quote_body message ++ String quotation_mark "}".
Proof.
  unfold error_line, stringify, stringify_members, quote.
  cbn [append quote_body quote_char dq].
  cbn. rewrite !append_assoc. reflexivity.
Qed.

Lemma error_line_decoded (message : string) :
  parseStreamingEvent (error_line message)
  = JObj [("type", JStr "error"); ("errorText", JStr message)].
Proof.
  rewrite parseStreamingEvent_spec, error_line_shape.
  unfold JSON_parse.
  cbn [dq cleanData startsWith String.prefix append drop].
  cbn. rewrite lex_quote_body. reflexivity.
Qed.

Lemma error_line_no_handler (message : string) (c : Clock) (d : Dashboard.t) :
  Dashboard.onString c (error_line message) d = Some d.
Proof.
  unfold Dashboard.onString. rewrite error_line_decoded. reflexivity.
Qed.

(** X5.  For every failure message, with whatever characters, the decoder
    reads the error line of the chat-stream proxy back as the object with
    type [error] and that very message, and the consumer runs no handler
    for it. *)
Theorem error_envelope_round_trip (message : string) (c : Clock) (d : Dashboard.t) :
  parseStreamingEvent (error_line message)
  = JObj [("type", JStr "error"); ("errorText", JStr message)]
  /\ Dashboard.onString c (error_line message) d = Some d.
Proof.
  split; [apply error_line_decoded | apply error_line_no_handler].
Qed.

Lemma no_line_feed_error_line (message : string) : no_line_feed (error_line message) = true.
Proof.
  rewrite error_line_shape, !no_line_feed_app, no_line_feed_quote_body. reflexivity.
Qed.

(** X6.  Whenever the chat-stream route fails before streaming (the
    upstream answers outside 2xx, or anything throws), no line of the body
    it answers with changes a dashboard that consumes it: the error
    envelope reaches no handler, and the blank lines and the terminal
    marker decode to null. *)
Theorem error_response_changes_no_aggregate
    (f : Fetched) (e : option string) (c : Clock) (d : Dashboard.t) :
  attempt f = inr e ->
  exists text,
    body (CargeekStream.POST f) = Text text
    /\ split_lines text = [error_line (message_of e); ""; "data: [DONE]"; ""; ""]
    /\ Forall (fun line => Dashboard.onString c line d = Some d) (split_lines text).
Proof.
  intros H. unfold CargeekStream.POST. rewrite H. cbn [body].
  eexists. split; [reflexivity|].
  assert (E : split_lines
                ("data: " ++ stringify [("type", "error"); ("errorText", message_of e)]
                 ++ nl ++ nl ++ "data: [DONE]" ++ nl ++ nl)
              = [error_line (message_of e); ""; "data: [DONE]"; ""; ""]).
  { change ("data: " ++ stringify [("type", "error"); ("errorText", message_of e)]
            ++ nl ++ nl ++ "data: [DONE]" ++ nl ++ nl)
      with ("data: " ++ (stringify [("type", "error"); ("errorText", message_of e)]
            ++ nl ++ nl ++ "data: [DONE]" ++ nl ++ nl)).
    rewrite <- (append_assoc "data: ").
    fold (error_line (message_of e)).
    rewrite (split_lines_line _ _ (no_line_feed_error_line (message_of e))).
    reflexivity. }
  split; [exact E|]. rewrite E.
  repeat constructor; try reflexivity. apply error_line_no_handler.
Qed.

Lemma error_response_changes_no_aggregate_witness :
  exists text,
    body (CargeekStream.POST (Responded Scenario.unavailable)) = Text text
    /\ split_lines text
       = [error_line "Backend returned 503"; ""; "data: [DONE]"; ""; ""]
    /\ Forall (fun line =>
                 Dashboard.onString Scenario.t1 line Scenario.dashboard_five
                 = Some Scenario.dashboard_five)
              (split_lines text).
Proof.
  apply (error_response_changes_no_aggregate (Responded Scenario.unavailable)
           (Some "Backend returned 503") Scenario.t1 Scenario.dashboard_five).
  reflexivity.
Defined.

End ErrorEnvelope.

(* ================================================================== *)
(** * The listener registry *)
(* ================================================================== *)

Section Registry.

Import AgentDataParser ParserOps.

Lemma filter_all {A} (f : A -> bool) (l : list A) :
  (forall x, In x l -> f x = true) -> filter f l = l.
Proof.
  induction l as [|a l IH]; intros H; [reflexivity|].
  cbn [filter]. rewrite (H a (or_introl eq_refl)).
  f_equal. apply IH. intros x Hx. apply H. now right.
Qed.

Lemma offUpdate_unknown (id : string) (p : t) :
  includes (listeners p) id = false -> offUpdate id p = p.
Proof.
  intros H. apply includes_not_In in H. destruct p as [r ls].
  unfold offUpdate. cbn [agentResults listeners] in *. f_equal.
  apply filter_all. intros k Hk. apply negb_true_iff, String.eqb_neq.
  intros ->. contradiction.
Qed.

Lemma offUpdate_listeners (id k : string) (p : t) :
  In k (listeners (offUpdate id p)) <-> In k (listeners p) /\ k <> id.
Proof.
  unfold offUpdate. cbn [listeners]. rewrite filter_In, negb_true_iff, String.eqb_neq.
  reflexivity.
Qed.

Lemma notify_recipients (p : t) : map to (notifyListeners p) = listeners p.
Proof. unfold notifyListeners. rewrite map_map. cbn [to]. apply map_id. Qed.

Lemma NoDup_snoc (l : list string) (x : string) :
  NoDup l -> ~ In x l -> NoDup (l ++ [x])%list.
Proof.
  intros Hl Hx. apply NoDup_rev in Hl.
  rewrite <- (rev_involutive (l ++ [x])%list). apply NoDup_rev.
  rewrite rev_app_distr. cbn [rev app]. constructor; [|exact Hl].
  now rewrite <- in_rev.
Qed.

Lemma perform_listeners_NoDup (op : Op) (p : t) :
  NoDup (listeners p) -> NoDup (listeners (fst (perform op p))).
Proof.
  intros H. destruct op as [id | id | c e | c e | c]; cbn [perform fst].
  - unfold onUpdate. destruct (includes (listeners p) id) eqn:E; [exact H|].
    cbn [listeners]. apply NoDup_snoc; [exact H | now apply includes_not_In].
  - unfold offUpdate. cbn [listeners]. now apply NoDup_filter.
  - exact H.
  - unfold handleAgentComplete.
    destruct (negb (success e) || negb (truthy (result e))); exact H.
  - exact H.
Qed.

Lemma perform_passes (op : Op) (p : t) :
  Forall (fun pass => map to pass = listeners (fst (perform op p))) (snd (perform op p)).
Proof.
  destruct op as [id | id | c e | c e | c]; cbn [perform fst snd].
  - constructor.
  - constructor.
  - repeat constructor. apply notify_recipients.
  - unfold handleAgentComplete.
    destruct (negb (success e) || negb (truthy (result e))); cbn [fst snd].
    + constructor.
    + repeat constructor. apply notify_recipients.
  - repeat constructor. apply notify_recipients.
Qed.

Lemma perform_all_registry (ops : list Op) (p : t) :
  NoDup (listeners p) ->
  NoDup (listeners (fst (perform_all ops p)))
  /\ Forall (fun pass => NoDup (map to pass)) (snd (perform_all ops p)).
Proof.
  revert p. induction ops as [|op rest IH]; intros p H.
  - split; [exact H | constructor].
  - cbn [perform_all].
    pose proof (perform_listeners_NoDup op p H) as H1.
    pose proof (perform_passes op p) as Hp.
    destruct (perform op p) as [p1 passes1]. cbn [fst snd] in H1, Hp.
    destruct (IH p1 H1) as [H2 Hp2].
    destruct (perform_all rest p1) as [p2 passes2]. cbn [fst snd] in *.
    split; [exact H2|].
    apply Forall_app. split; [|exact Hp2].
    eapply Forall_impl; [|exact Hp]. intros pass E. cbn beta in E. now rewrite E.
Qed.

(** X7.  Whatever calls are made on a new parser (subscriptions,
    unsubscriptions under any keys, spawns, completions, resets), no key
    is ever registered twice and every notification pass calls each
    subscriber once at most: subscribing again under a key never doubles
    its notifications. *)
Theorem registry_never_duplicates (c : Clock) (ops : list Op) :
  NoDup (listeners (fst (perform_all ops (AgentDataParser.new c))))
  /\ Forall (fun pass => NoDup (map to pass))
            (snd (perform_all ops (AgentDataParser.new c))).
Proof. apply perform_all_registry. constructor. Qed.

(** X8.  Subscribing under a key that is not registered and unsubscribing
    it again leaves the parser exactly as it was. *)
Theorem subscribe_unsubscribe_round_trip (id : string) (p : t) :
  includes (listeners p) id = false ->
  offUpdate id (onUpdate id p) = p.
Proof.
  intros H. unfold onUpdate. rewrite H.
  pose proof H as Hnot. apply includes_not_In in Hnot.
  destruct p as [r ls]. unfold offUpdate. cbn [agentResults listeners] in *.
  f_equal. rewrite filter_app. cbn [filter]. rewrite String.eqb_refl. cbn [negb].
  rewrite app_nil_r. apply filter_all.
  intros k Hk. apply negb_true_iff, String.eqb_neq. intros ->. contradiction.
Qed.

Lemma subscribe_unsubscribe_round_trip_witness :
  includes (listeners Scenario.listings_spawned) "chat-1" = false
  /\ offUpdate "chat-1" (onUpdate "chat-1" Scenario.listings_spawned)
     = Scenario.listings_spawned.
Proof.
  split; [reflexivity|].
  apply (subscribe_unsubscribe_round_trip "chat-1" Scenario.listings_spawned).
  reflexivity.
Defined.

(** X9.  After [offUpdate(id)] the key is gone and every other key is
    kept, the aggregate is untouched, and no pass of a later spawn or
    completion calls it; for a key that was never registered the call
    changes nothing at all. *)
Theorem unsubscribed_is_never_called (id : string) (p : t) :
  ~ In id (listeners (offUpdate id p))
  /\ (forall k, k <> id -> (In k (listeners (offUpdate id p)) <-> In k (listeners p)))
  /\ agentResults (offUpdate id p) = agentResults p
  /\ (forall c e, Forall (fun pass => ~ In id (map to pass))
                         (snd (handleAgentSpawn c e (offUpdate id p))))
  /\ (forall c e, Forall (fun pass => ~ In id (map to pass))
                         (snd (handleAgentComplete c e (offUpdate id p))))
  /\ (includes (listeners p) id = false -> offUpdate id p = p).
Proof.
  assert (Hgone : ~ In id (listeners (offUpdate id p))).
  { rewrite offUpdate_listeners. intros [_ H]. now apply H. }
  split; [exact Hgone|]. split; [|split; [reflexivity|split; [|split]]].
  - intros k Hk. rewrite offUpdate_listeners. tauto.
  - intros c e. repeat constructor. rewrite notify_recipients. exact Hgone.
  - intros c e. unfold handleAgentComplete.
    destruct (negb (success e) || negb (truthy (result e))); cbn [snd].
    + constructor.
    + repeat constructor. rewrite notify_recipients. exact Hgone.
  - apply offUpdate_unknown.
Qed.

Lemma unsubscribed_is_never_called_witness :
  offUpdate "chat-1" Scenario.listings_spawned = Scenario.listings_spawned.
Proof.
  apply (proj2 (proj2 (proj2 (proj2 (proj2
           (unsubscribed_is_never_called "chat-1" Scenario.listings_spawned)))))).
  reflexivity.
Defined.

End Registry.

(* ================================================================== *)
(** * The parser's aggregate as the widgets read it *)
(* ================================================================== *)

Section WidgetsOnParser.

Import AgentDataParser ParserOps Widgets.

Lemma completedCount_populated (r : AgentResults) :
  (Z.of_nat (completedCount r) <= populated_slots r)%Z.
Proof.
  unfold completedCount, populated_slots, all_kinds, present.
  destruct r as [l rs se me tot com act upd].
  cbn [slot listings research sentiment media filter].
  destruct l as [vl|], rs as [vr|], se as [vs|], me as [vm|];
    try destruct (truthy vl); try destruct (truthy vr);
    try destruct (truthy vs); try destruct (truthy vm);
    cbn [filter List.length]; lia.
Qed.

Lemma calculateProgress_count (r : AgentResults) :
  calculateProgress r = (25 * Z.of_nat (completedCount r))%Z.
Proof.
  unfold calculateProgress.
  replace (Z.of_nat (completedCount r) * 100)%Z
    with (25 * Z.of_nat (completedCount r) * 4)%Z by lia.
  now rewrite Z.div_mul.
Qed.

Lemma populated_store_result (res : jsval) (r : AgentResults) :
  (populated_slots (store_result res r) <= populated_slots r + 1)%Z.
Proof.
  unfold store_result.
  destruct (isListingsResult res); [exact (populated_set_slot Listings res r)|].
  destruct (isResearchResult res); [exact (populated_set_slot Research res r)|].
  destruct (isSentimentResult res); [exact (populated_set_slot Sentiment res r)|].
  destruct (isMediaResult res); [exact (populated_set_slot Media res r)|].
  lia.
Qed.

Lemma perform_counted (op : Op) (p : t) :
  counted_slots p -> counted_slots (fst (perform op p)).
Proof.
  unfold counted_slots. intros H.
  destruct op as [id | id | c e | c e | c]; cbn [perform].
  - unfold onUpdate. now destruct (includes (listeners p) id).
  - exact H.
  - rewrite spawn_results.
    destruct (includes (active_agents (agentResults p)) (agent e)); exact H.
  - destruct (success e && truthy (result e)) eqn:E.
    + apply andb_true_iff in E. destruct E as [Hs Hr].
      rewrite (complete_results c e p Hs Hr).
      change (populated_slots (set_last_updated ?t ?x)) with (populated_slots x).
      change (completed_agents (set_last_updated ?t ?x)) with (completed_agents x).
      match goal with
      | |- (populated_slots (store_result ?res ?x) <= _)%Z =>
          pose proof (populated_store_result res x) as Hp;
          destruct (store_result_meta res x) as [_ [Ec _]]; rewrite Ec;
          change (populated_slots x) with (populated_slots (agentResults p)) in Hp;
          change (completed_agents x) with (completed_agents (agentResults p) + 1)%Z
      end.
      lia.
    + now rewrite (complete_failed c e p E).
  - cbn. lia.
Qed.

Lemma perform_all_counted (ops : list Op) (p : t) :
  counted_slots p -> counted_slots (fst (perform_all ops p)).
Proof.
  revert p. induction ops as [|op rest IH]; intros p H; [exact H|].
  cbn [perform_all].
  pose proof (perform_counted op p H) as H1.
  destruct (perform op p) as [p1 passes1]. cbn [fst] in H1.
  pose proof (IH p1 H1) as H2.
  now destruct (perform_all rest p1).
Qed.

(** X10.  Whatever calls are made on a new parser, in any order and with
    or without matching spawns, the progress the dashboard header shows
    never runs ahead of the completion counter: it is at most 25 times
    [completed_agents], and never above 100. *)
Theorem progress_never_exceeds_completed (c : Clock) (ops : list Op) :
  let r := agentResults (fst (perform_all ops (AgentDataParser.new c))) in
  (0 <= calculateProgress r <= 25 * completed_agents r)%Z
  /\ (calculateProgress r <= 100)%Z.
Proof.
  cbv zeta.
  assert (H : counted_slots (fst (perform_all ops (AgentDataParser.new c)))).
  { apply perform_all_counted. unfold counted_slots. cbn. lia. }
  unfold counted_slots in H.
  set (r := agentResults (fst (perform_all ops (AgentDataParser.new c)))) in *.
  pose proof (completedCount_populated r) as Hc.
  rewrite calculateProgress_count.
  assert (Hfour : (completedCount r <= 4)%nat).
  { unfold completedCount.
    etransitivity; [apply filter_length_le | reflexivity]. }
  lia.
Qed.

(** X11.  When a completion reports success for a kind with a result of
    that same kind, the kind's status card shows Complete, its widget
    stops loading and the header has data to show, whatever the aggregate
    was before. *)
Theorem successful_completion_shows_complete
    (c : Clock) (e : AgentCompleteEvent) (p : t) (k : AgentType) :
  success e = true ->
  truthy (result e) = true ->
  agent_type e = kind_name k ->
  is_string (get (result e) "agent_type") (kind_name k) = true ->
  let r' := agentResults (fst (handleAgentComplete c e p)) in
  card k r' = Complete
  /\ loading k (getWidgetLoadingStates r') = false
  /\ hasAnyData r' = true
  /\ (25 <= calculateProgress r')%Z.
Proof.
  intros Hs Hr Hk Hg. cbv zeta.
  rewrite (complete_results c e p Hs Hr).
  set (x := set_completed_agents _ _).
  assert (Hslot : slot k (set_last_updated (iso c) (store_result (result e) x))
                  = Some (result e)).
  { transitivity (slot k (store_result (result e) x)); [destruct k; reflexivity|].
    now rewrite store_result_slot, Hg. }
  assert (Hact : active_agents (set_last_updated (iso c) (store_result (result e) x))
                 = filter (fun a => negb (a =? kind_name k))
                          (active_agents (agentResults p))).
  { cbn [set_last_updated active_agents].
    destruct (store_result_meta (result e) x) as [_ [_ [Ea _]]]. rewrite Ea.
    unfold x. cbn [set_completed_agents set_active_agents active_agents].
    now rewrite Hk. }
  assert (Hout : includes (active_agents
                             (set_last_updated (iso c) (store_result (result e) x)))
                          (kind_name k) = false).
  { rewrite Hact. apply includes_not_In. rewrite filter_In.
    intros [_ H]. now rewrite String.eqb_refl in H. }
  assert (Hpresent : present (slot k (set_last_updated (iso c)
                                        (store_result (result e) x))) = true).
  { rewrite Hslot. exact Hr. }
  split; [|split; [|split]].
  - unfold card. rewrite Hout, Hpresent. reflexivity.
  - unfold getWidgetLoadingStates. destruct k; cbn [loading]; exact Hout.
  - unfold hasAnyData. destruct k; cbn [slot] in Hpresent; rewrite Hpresent;
      rewrite ?orb_true_r; reflexivity.
  - rewrite calculateProgress_count.
    assert (1 <= completedCount (set_last_updated (iso c) (store_result (result e) x)))%nat.
    { unfold completedCount.
      destruct k; cbn [slot] in Hpresent; rewrite Hpresent;
        cbn [filter List.length];
        repeat match goal with
               | |- context [if ?b then _ else _] => destruct b
               end; cbn [List.length]; lia. }
    lia.
Qed.

Lemma successful_completion_shows_complete_witness :
  card Listings (agentResults Scenario.listings_spawned) = Processing
  /\ card Listings (agentResults Scenario.listings_completed) = Complete.
Proof.
  split; [reflexivity|].
  apply (successful_completion_shows_complete Scenario.t0
           (mkComplete "listings" true Scenario.five_found)
           Scenario.listings_spawned Listings); reflexivity.
Defined.

Lemma includes_filter_other (l : list string) (x y : string) :
  x <> y ->
  includes (filter (fun a => negb (a =? y)) l) x = includes l x.
Proof.
  intros Hxy. destruct (includes l x) eqn:E.
  - apply includes_In. apply includes_In in E. rewrite filter_In. split; [exact E|].
    now apply negb_true_iff, String.eqb_neq.
  - apply includes_not_In. apply includes_not_In in E. rewrite filter_In.
    intros [H _]. contradiction.
Qed.

Lemma alias_differs (k : AgentType) : kind_name k ++ "_agent" <> kind_name k.
Proof. destruct k; discriminate. Qed.

(** X12.  [getLoadingState] also takes the spelling [<kind>_agent] for a
    kind in flight, but a completion for [<kind>] removes only the plain
    name: after a successful completion the parser's own loading flag of
    the kind is exactly whether the suffixed name is in [active_agents],
    while the widgets' flag, which reads the plain name only, is off. *)
Theorem loading_flag_after_completion
    (c : Clock) (e : AgentCompleteEvent) (p : t) (k : AgentType) :
  success e = true ->
  truthy (result e) = true ->
  agent_type e = kind_name k ->
  let p' := fst (handleAgentComplete c e p) in
  loading k (getLoadingState p')
  = includes (active_agents (agentResults p)) (kind_name k ++ "_agent")
  /\ loading k (getWidgetLoadingStates (agentResults p')) = false.
Proof.
  intros Hs Hr Hk. cbv zeta.
  assert (Hact : active_agents (agentResults (fst (handleAgentComplete c e p)))
                 = filter (fun a => negb (a =? kind_name k))
                          (active_agents (agentResults p))).
  { rewrite (complete_results c e p Hs Hr). cbn [set_last_updated active_agents].
    match goal with
    | |- active_agents (store_result ?res ?x) = _ =>
        destruct (store_result_meta res x) as [_ [_ [Ea _]]]; rewrite Ea
    end.
    cbn [set_completed_agents set_active_agents active_agents]. now rewrite Hk. }
  assert (Hout : includes (active_agents (agentResults (fst (handleAgentComplete c e p))))
                          (kind_name k) = false).
  { rewrite Hact. apply includes_not_In. rewrite filter_In.
    intros [_ H]. now rewrite String.eqb_refl in H. }
  assert (Halias : includes (active_agents (agentResults (fst (handleAgentComplete c e p))))
                            (kind_name k ++ "_agent")
                   = includes (active_agents (agentResults p)) (kind_name k ++ "_agent")).
  { rewrite Hact. apply includes_filter_other, alias_differs. }
  split.
  - unfold getLoadingState.
    destruct k; cbn [loading loading_listings loading_research loading_sentiment
                     loading_media kind_name append] in *;
      rewrite Hout, Halias; reflexivity.
  - unfold getWidgetLoadingStates. destruct k; cbn [loading]; exact Hout.
Qed.

Lemma loading_flag_after_completion_witness :
  loading Listings
    (getLoadingState
       (fst (handleAgentComplete Scenario.t1 (mkComplete "listings" true Scenario.five_found)
               (fst (handleAgentSpawn Scenario.t0 (mkSpawn "listings_agent")
                       Scenario.listings_spawned)))))
  = true.
Proof.
  refine (eq_trans
            (proj1 (loading_flag_after_completion Scenario.t1
                      (mkComplete "listings" true Scenario.five_found)
                      (fst (handleAgentSpawn Scenario.t0 (mkSpawn "listings_agent")
                              Scenario.listings_spawned))
                      Listings eq_refl eq_refl eq_refl))
            _).
  reflexivity.
Defined.

End WidgetsOnParser.

(* ================================================================== *)
(** * The four payload parsers *)
(* ================================================================== *)

Section PayloadParsers.

Import AgentDataParser ParserOps Claimed.

Lemma truthy_not_nullish (v : jsval) : truthy v = true -> nullish v = false.
Proof. destruct v; intros H; first [reflexivity | discriminate H]. Qed.

Lemma or_else_again (a d : jsval) : or_else (or_else a d) d = or_else a d.
Proof.
  unfold or_else. destruct (truthy a) eqn:E; [now rewrite E|].
  now destruct (truthy d).
Qed.

Lemma or_else_truthy_default (a d d' : jsval) :
  truthy d = true -> or_else (or_else a d) d' = or_else a d.
Proof.
  intros H. unfold or_else. destruct (truthy a) eqn:E; [now rewrite E | now rewrite H].
Qed.

Lemma or_else_not_nullish (a d : jsval) : nullish d = false -> nullish (or_else a d) = false.
Proof.
  intros H. unfold or_else. destruct (truthy a) eqn:E; [|exact H].
  now apply truthy_not_nullish.
Qed.

Lemma parse_kind_idempotent (c c' : Clock) (k : AgentType) (d v : jsval) :
  parse_kind c k d = Some v -> parse_kind c' k v = Some v.
Proof.
  destruct k; cbn [parse_kind];
    unfold parseListingsData, parseResearchData, parseSentimentData, parseMediaData;
    (destruct (nullish d); [discriminate|]);
    intros H; injection H as <-;
    cbn -[or_else decimal append];
    rewrite ?or_else_again, ?or_else_truthy_default by reflexivity;
    reflexivity.
Qed.

(** X13.  The four payload parsers normalise: parsing a payload that one
    of them produced, at any later time, gives back that payload. *)
Theorem payload_parsing_is_idempotent (c c' : Clock) (k : AgentType) (d v : jsval) :
  parse_kind c k d = Some v -> parse_kind c' k v = Some v.
Proof. exact (parse_kind_idempotent c c' k d v). Qed.

Lemma payload_parsing_is_idempotent_witness :
  parse_kind Scenario.t1 Listings
    (JObj [("agent_type", JStr "listings"); ("agent_id", JStr "listings_1740823200000");
           ("success", JBool true); ("total_found", JNum 0 0); ("returned_count", JNum 0 0);
           ("listings", JArr []); ("market_intelligence", JUndefined);
           ("search_context", JUndefined); ("recommendations", JUndefined);
           ("executive_summary", JUndefined); ("key_insights", JArr []);
           ("search_duration_ms", JUndefined); ("data_sources", JArr []);
           ("warnings", JArr [])])
  = parse_kind Scenario.t0 Listings (JObj []).
Proof.
  apply (payload_parsing_is_idempotent Scenario.t0 Scenario.t1 Listings (JObj [])).
  reflexivity.
Defined.

(** X14.  A payload parsed for a kind from a state snapshot carries that
    kind's [agent_type] and [success = true]: of the four type guards
    exactly the one of its kind accepts it, so [handleAgentComplete] would
    store it in the slot the snapshot parser puts it in. *)
Theorem parsed_payload_is_recognised
    (c : Clock) (k : AgentType) (d v : jsval) (r : AgentResults) :
  parse_kind c k d = Some v ->
  (forall k', is_string (get v "agent_type") (kind_name k') = true <-> k' = k)
  /\ get v "success" = JBool true
  /\ truthy v = true
  /\ store_result v r = set_slot k (Some v) r.
Proof.
  intros H.
  assert (Ht : get v "agent_type" = JStr (kind_name k)
               /\ get v "success" = JBool true /\ truthy v = true).
  { destruct k; cbn [parse_kind] in H;
      unfold parseListingsData, parseResearchData, parseSentimentData, parseMediaData in H;
      (destruct (nullish d); [discriminate H|]);
      injection H as <-; repeat split. }
  destruct Ht as [Ht [Hs Hv]].
  split; [|split; [exact Hs | split; [exact Hv|]]].
  - intros k'. rewrite Ht. cbn [is_string]. rewrite String.eqb_eq. split.
    + intros E. symmetry. now apply kind_name_inj.
    + now intros ->.
  - unfold store_result, isListingsResult, isResearchResult, isSentimentResult,
      isMediaResult. rewrite Ht. destruct k; reflexivity.
Qed.

Lemma parsed_payload_is_recognised_witness :
  exists v, parse_kind Scenario.t1 Listings Scenario.seven_found = Some v
            /\ store_result v (empty_results Scenario.t0)
               = set_slot Listings (Some v) (empty_results Scenario.t0).
Proof.
  eexists. split; [reflexivity|].
  apply (parsed_payload_is_recognised Scenario.t1 Listings Scenario.seven_found).
  reflexivity.
Defined.

(** X15.  In a parsed payload every field that the parser gives a default
    is neither [null] nor [undefined], whatever the snapshot carried, so a
    reader may take its length or iterate it; the parser itself fails only
    on a payload that is [null] or [undefined]. *)
Theorem defaulted_fields_are_defined (c : Clock) (k : AgentType) (d : jsval) :
  (nullish d = true /\ parse_kind c k d = None)
  \/ (nullish d = false
      /\ exists v, parse_kind c k d = Some v
                   /\ Forall (fun f => nullish (get v f) = false) (defaulted k)).
Proof.
  destruct (nullish d) eqn:E; [left | right]; (split; [reflexivity|]).
  - destruct k; cbn [parse_kind];
      unfold parseListingsData, parseResearchData, parseSentimentData, parseMediaData;
      now rewrite E.
  - destruct k; cbn [parse_kind];
      unfold parseListingsData, parseResearchData, parseSentimentData, parseMediaData;
      rewrite E; eexists; (split; [reflexivity|]);
      cbn [defaulted]; repeat constructor;
      cbn -[or_else decimal append nullish]; now apply or_else_not_nullish.
Qed.

End PayloadParsers.

(* ================================================================== *)
(** * The session manager *)
(* ================================================================== *)

Section Sessions.

Import SessionManager.

Lemma session_of_key_touch (now : N) (key key' : string) (m : t) :
  session_of_key key' (touch now key m)
  = if key' =? key then option_map (set_lastActivity now) (session_of_key key' m)
    else session_of_key key' m.
Proof.
  unfold session_of_key.
  induction m as [|[k s] rest IH]; [now destruct (key' =? key)|].
  cbn [touch]. destruct (k =? key) eqn:Ek.
  - apply String.eqb_eq in Ek. subst k. cbn [find fst snd].
    rewrite (String.eqb_sym key key').
    destruct (key' =? key) eqn:E; reflexivity.
  - cbn [find fst snd]. destruct (k =? key') eqn:Ek'.
    + apply String.eqb_eq in Ek'. subst k. rewrite Ek. reflexivity.
    + exact IH.
Qed.

Lemma session_of_key_snoc (key key' : string) (s : SessionInfo) (m : t) :
  session_of_key key' (m ++ [(key, s)])%list
  = match session_of_key key' m with
    | Some s' => Some s'
    | None => if key =? key' then Some s else None
    end.
Proof.
  unfold session_of_key. induction m as [|[k s0] rest IH]; cbn [app find fst snd].
  - now destruct (key =? key').
  - destruct (k =? key'); [reflexivity | exact IH].
Qed.

Lemma touch_keys (now : N) (key : string) (m : t) : map fst (touch now key m) = map fst m.
Proof.
  induction m as [|[k s] rest IH]; [reflexivity|].
  cbn [touch]. destruct (k =? key); cbn [map fst]; [reflexivity | now rewrite IH].
Qed.

(** What a key resolves to after a call for the same key string. *)
Lemma resolve_known (c : Clock) (v : string) (u : option string) (m : t) (s : SessionInfo) :
  session_of_key (sessionKey v u) m = Some s ->
  getVehicleSession c v u m = (touch (millis c) (sessionKey v u) m, sessionId s).
Proof. intros H. unfold getVehicleSession. now rewrite H. Qed.

Lemma resolve_registers (c : Clock) (v : string) (u : option string) (m : t) :
  exists s,
    session_of_key (sessionKey v u) (fst (getVehicleSession c v u m)) = Some s
    /\ sessionId s = snd (getVehicleSession c v u m)
    /\ lastActivity s = millis c.
Proof.
  unfold getVehicleSession.
  destruct (session_of_key (sessionKey v u) m) as [s|] eqn:E; cbn [fst snd].
  - exists (set_lastActivity (millis c) s).
    rewrite session_of_key_touch, String.eqb_refl, E. repeat split.
  - exists (fresh c v u). rewrite session_of_key_snoc, E, String.eqb_refl. repeat split.
Qed.

(** X16.  [getVehicleSession] is stable: a second call for the same
    vehicle and user, at any later time, returns the session id of the
    first, adds no record, and sets the record's last activity to the
    time of the call. *)
Theorem session_id_is_stable
    (c1 c2 : Clock) (v : string) (u : option string) (m : t) :
  let first := getVehicleSession c1 v u m in
  let second := getVehicleSession c2 v u (fst first) in
  snd second = snd first
  /\ map fst (fst second) = map fst (fst first)
  /\ option_map lastActivity (session_of_key (sessionKey v u) (fst second))
     = Some (millis c2).
Proof.
  cbv zeta.
  destruct (resolve_registers c1 v u m) as [s [Hs [Hid _]]].
  rewrite (resolve_known c2 v u _ s Hs). cbn [fst snd].
  split; [exact Hid|]. split; [apply touch_keys|].
  now rewrite session_of_key_touch, String.eqb_refl, Hs.
Qed.

Lemma sessionKey_shift (u v w : string) :
  u <> "" ->
  sessionKey w (Some (u ++ "-" ++ v)) = sessionKey (v ++ "-" ++ w) (Some u).
Proof.
  intros Hu. unfold sessionKey.
  apply String.eqb_neq in Hu. rewrite Hu.
  replace (u ++ "-" ++ v =? "") with false.
  - rewrite !append_assoc. reflexivity.
  - symmetry. apply String.eqb_neq. destruct u; [|discriminate].
    now apply String.eqb_neq in Hu.
Qed.

(** X17.  Sessions are keyed by the text [userId-vehicleId] alone, so two
    different pairs with the same text share one session: a user [u] asking
    for vehicle [v-w] is given the session that user [u-v] opened for
    vehicle [w], and no session of its own; likewise an empty user id and
    the user id [anonymous] share the session of the anonymous user. *)
Theorem session_keys_collide
    (c1 c2 : Clock) (u v w : string) (m : t) :
  u <> "" ->
  let first := getVehicleSession c1 w (Some (u ++ "-" ++ v)) m in
  (snd (getVehicleSession c2 (v ++ "-" ++ w) (Some u) (fst first)) = snd first
   /\ map fst (fst (getVehicleSession c2 (v ++ "-" ++ w) (Some u) (fst first)))
      = map fst (fst first))
  /\ (forall anon, In anon [None; Some ""; Some "anonymous"] ->
                   sessionKey w anon = "anonymous-" ++ w).
Proof.
  intros Hu. cbv zeta. split.
  - destruct (resolve_registers c1 w (Some (u ++ "-" ++ v)) m) as [s [Hs [Hid _]]].
    rewrite (sessionKey_shift u v w Hu) in Hs.
    rewrite (resolve_known c2 _ _ _ s Hs). cbn [fst snd].
    split; [exact Hid | apply touch_keys].
  - intros anon [<- | [<- | [<- | []]]]; reflexivity.
Qed.

Lemma session_keys_collide_witness :
  snd (getVehicleSession Scenario.t1 "model-3" (Some "tesla")
         (fst (getVehicleSession Scenario.t0 "3" (Some "tesla-model") [])))
  = "session-3-1740823200000".
Proof.
  refine (eq_trans
            (proj1 (proj1 (session_keys_collide Scenario.t0 Scenario.t1
                             "tesla" "model" "3" [] _)))
            _).
  - discriminate.
  - reflexivity.
Defined.

Lemma find_filter {A} (f g : A -> bool) (l : list A) (x : A) :
  find f l = Some x -> g x = true -> find f (filter g l) = Some x.
Proof.
  induction l as [|a l IH]; intros Hf Hg; [discriminate Hf|].
  cbn [find] in Hf. cbn [filter]. destruct (f a) eqn:Efa.
  - injection Hf as ->. rewrite Hg. cbn [find]. now rewrite Efa.
  - destruct (g a); [cbn [find]; rewrite Efa|]; now apply IH.
Qed.

Lemma find_filter_none {A} (f g : A -> bool) (l : list A) :
  (forall x, In x l -> f x = true -> g x = false) -> find f (filter g l) = None.
Proof.
  induction l as [|a l IH]; intros H; [reflexivity|].
  cbn [filter]. destruct (g a) eqn:Eg.
  - cbn [find]. destruct (f a) eqn:Ef.
    + rewrite (H a (or_introl eq_refl) Ef) in Eg. discriminate Eg.
    + apply IH. intros x Hx. apply H. now right.
  - apply IH. intros x Hx. apply H. now right.
Qed.

(** X18.  [cleanupOldSessions] keeps, in order, exactly the sessions
    whose last activity is not more than 24 hours before the sweep, and a
    second sweep at the same time removes nothing more.  A session
    resolved at most 24 hours before the sweep therefore keeps its id at
    the next call. *)
Theorem sweep_keeps_recent_sessions
    (c c' c'' : Clock) (v : string) (u : option string) (m : t) :
  (forall e, In e (cleanupOldSessions c' m)
             <-> In e m /\ (Z.of_N (millis c') - retention
                            <= Z.of_N (lastActivity (snd e)))%Z)
  /\ cleanupOldSessions c' (cleanupOldSessions c' m) = cleanupOldSessions c' m
  /\ ((Z.of_N (millis c') - retention <= Z.of_N (millis c))%Z ->
      snd (getVehicleSession c'' v u
             (cleanupOldSessions c' (fst (getVehicleSession c v u m))))
      = snd (getVehicleSession c v u m)).
Proof.
  split; [|split].
  - intros e. unfold cleanupOldSessions, expired.
    rewrite filter_In, negb_true_iff, Z.ltb_ge. reflexivity.
  - unfold cleanupOldSessions. apply filter_all.
    intros e He. now apply filter_In in He.
  - intros Hrecent.
    destruct (resolve_registers c v u m) as [s [Hs [Hid Hact]]].
    assert (Hkept : session_of_key (sessionKey v u)
                      (cleanupOldSessions c' (fst (getVehicleSession c v u m)))
                    = Some s).
    { unfold session_of_key in *. unfold cleanupOldSessions.
      destruct (find (fun e => fst e =? sessionKey v u) (fst (getVehicleSession c v u m)))
        as [e|] eqn:E; [|discriminate Hs].
      injection Hs as Hs.
      rewrite (find_filter _ (fun e => negb (expired c' (snd e))) _ e E).
      - now rewrite Hs.
      - unfold expired. rewrite Hs, Hact. apply negb_true_iff, Z.ltb_ge. exact Hrecent. }
    rewrite (resolve_known c'' v u _ s Hkept). exact Hid.
Qed.

Lemma sweep_keeps_recent_sessions_witness :
  snd (getVehicleSession Scenario.t1 "tesla-model-3" None
         (cleanupOldSessions Scenario.t1
            (fst (getVehicleSession Scenario.t0 "tesla-model-3" None []))))
  = "session-tesla-model-3-1740823200000".
Proof.
  refine (eq_trans
            (proj2 (proj2 (sweep_keeps_recent_sessions Scenario.t0 Scenario.t1 Scenario.t1
                             "tesla-model-3" None [])) _)
            _).
  - vm_compute. discriminate.
  - reflexivity.
Defined.

(** X19.  A session idle for more than 24 hours at the sweep is removed,
    and the next call for the same vehicle and user opens a new session
    whose id carries the time of that call. *)
Theorem swept_session_gets_new_id
    (c c' c'' : Clock) (v : string) (u : option string) (m : t) :
  NoDup (map fst m) ->
  (Z.of_N (millis c) < Z.of_N (millis c') - retention)%Z ->
  getVehicleSession c'' v u (cleanupOldSessions c' (fst (getVehicleSession c v u m)))
  = ((cleanupOldSessions c' (fst (getVehicleSession c v u m))
      ++ [(sessionKey v u, fresh c'' v u)])%list,
     "session-" ++ v ++ "-" ++ decimal (millis c'')).
Proof.
  intros Hnd Hold.
  assert (Hgone : session_of_key (sessionKey v u)
                    (cleanupOldSessions c' (fst (getVehicleSession c v u m))) = None).
  { unfold session_of_key, cleanupOldSessions.
    rewrite find_filter_none; [reflexivity|].
    intros [k s] Hin Hk. cbn [fst snd] in *. apply String.eqb_eq in Hk. subst k.
    apply negb_false_iff. unfold expired. apply Z.ltb_lt.
    assert (Hact : lastActivity s = millis c); [|now rewrite Hact].
    unfold getVehicleSession in Hin.
    destruct (session_of_key (sessionKey v u) m) as [s0|] eqn:E; cbn [fst] in Hin.
    - clear E. induction m as [|[k0 s1] rest IH]; [contradiction|].
      cbn [map fst] in Hnd. apply NoDup_cons_iff in Hnd. destruct Hnd as [Hnot Hnd].
      cbn [touch] in Hin. destruct (k0 =? sessionKey v u) eqn:Ek.
      + apply String.eqb_eq in Ek. subst k0. destruct Hin as [Hin | Hin].
        * injection Hin as <-. reflexivity.
        * elim Hnot. apply in_map_iff. now exists (sessionKey v u, s).
      + destruct Hin as [Hin | Hin].
        * injection Hin as -> _. now rewrite String.eqb_refl in Ek.
        * now apply IH.
    - apply in_app_or in Hin. destruct Hin as [Hin | [Hin | []]].
      + unfold session_of_key in E.
        destruct (find (fun e => fst e =? sessionKey v u) m) eqn:Ef; [discriminate E|].
        pose proof (find_none _ _ Ef _ Hin) as Hn. cbn [fst] in Hn.
        now rewrite String.eqb_refl in Hn.
      + injection Hin as <-. reflexivity. }
  unfold getVehicleSession at 1. rewrite Hgone. reflexivity.
Qed.

Lemma swept_session_gets_new_id_witness :
  snd (getVehicleSession (mkClock "2025-03-03T10:00:00.000Z" 1740996000000) "tesla-model-3" None
         (cleanupOldSessions (mkClock "2025-03-03T10:00:00.000Z" 1740996000000)
            (fst (getVehicleSession Scenario.t0 "tesla-model-3" None []))))
  = "session-tesla-model-3-1740996000000".
Proof.
  refine (f_equal snd
            (swept_session_gets_new_id Scenario.t0
               (mkClock "2025-03-03T10:00:00.000Z" 1740996000000)
               (mkClock "2025-03-03T10:00:00.000Z" 1740996000000)
               "tesla-model-3" None [] _ _)).
  - constructor.
  - vm_compute. reflexivity.
Defined.

Lemma shareSession_unknown (c : Clock) (sid : string) (i : Interface) (m : t) :
  getSessionInfo sid m = None -> shareSession c sid i m = m.
Proof.
  unfold getSessionInfo. induction m as [|[k s] rest IH]; intros H; [reflexivity|].
  cbn [find snd] in H. cbn [shareSession].
  destruct (sessionId s =? sid); [discriminate H|].
  now rewrite IH.
Qed.

Lemma add_interface_In (i : Interface) (l : list Interface) : In i (add_interface i l).
Proof.
  unfold add_interface. destruct (existsb (Interface_eqb i) l) eqn:E.
  - apply existsb_exists in E. destruct E as [x [Hx E]].
    destruct i, x; first [exact Hx | discriminate E].
  - apply in_or_app. right. now left.
Qed.

(** X20.  [shareSession] attaches the interface to the session with that
    id: afterwards [getSessionInfo] for the id gives the same session with
    the interface among its active ones and the time of the call as its
    last activity, and the map has the same keys.  For an id that no
    session has, the call changes nothing. *)
Theorem share_attaches_interface
    (c : Clock) (sid : string) (i : Interface) (m : t) :
  match getSessionInfo sid m with
  | Some s =>
      exists s',
        getSessionInfo sid (shareSession c sid i m) = Some s'
        /\ sessionId s' = sid /\ vehicleId s' = vehicleId s /\ userId s' = userId s
        /\ createdAt s' = createdAt s
        /\ lastActivity s' = millis c
        /\ In i (activeInterfaces s')
        /\ (forall j, In j (activeInterfaces s) -> In j (activeInterfaces s'))
        /\ map fst (shareSession c sid i m) = map fst m
  | None => shareSession c sid i m = m
  end.
Proof.
  destruct (getSessionInfo sid m) as [s|] eqn:E; [|now apply shareSession_unknown].
  unfold getSessionInfo in *. induction m as [|[k s0] rest IH]; [discriminate E|].
  cbn [find snd] in E. cbn [shareSession].
  destruct (sessionId s0 =? sid) eqn:Es.
  - injection E as ->. eexists. cbn [find snd sessionId]. rewrite Es.
    split; [reflexivity|]. cbn.
    split; [now apply String.eqb_eq|]. repeat split.
    + apply add_interface_In.
    + intros j Hj. unfold add_interface.
      destruct (existsb (Interface_eqb i) (activeInterfaces s)); [exact Hj|].
      apply in_or_app. now left.
  - destruct (IH E) as [s' [H1 H2]]. exists s'. cbn [find snd]. rewrite Es.
    split; [exact H1|].
    destruct H2 as [? [? [? [? [? [? [? Hk]]]]]]]. repeat split; try assumption.
    cbn [map fst]. now rewrite Hk.
Qed.

End Sessions.

(* ================================================================== *)
(** * The effect of [chat.tsx] on the message parts *)
(* ================================================================== *)

Section ChatEffect.

Import Widgets Components Components.Chat.

Lemma process_parts_app (st : AgentResults * bool) (ps qs : list Part) :
  process_parts st (ps ++ qs)%list
  = match process_parts st ps with
    | Some st' => process_parts st' qs
    | None => None
    end.
Proof.
  revert st. induction ps as [|p ps IH]; intros st; [reflexivity|].
  cbn [process_parts app]. destruct (process_part st p); [apply IH | reflexivity].
Qed.

(** The two nested [forEach] meet the parts one after the other. *)
Lemma process_messages_flat (st : AgentResults * bool) (messages : list Message) :
  process_messages st messages = process_parts st (all_parts messages).
Proof.
  revert st. induction messages as [|m ms IH]; intros st; [reflexivity|].
  unfold all_parts. cbn [process_messages flat_map]. fold (all_parts ms).
  rewrite process_parts_app.
  destruct (parts m) as [ps|]; [|apply IH].
  destruct (process_parts st ps); [apply IH | reflexivity].
Qed.

Lemma process_parts_inv (P : AgentResults * bool -> Prop) :
  (forall st part st', P st -> process_part st part = Some st' -> P st') ->
  forall ps st st', P st -> process_parts st ps = Some st' -> P st'.
Proof.
  intros Hstep. induction ps as [|p ps IH]; intros st st' H E.
  - injection E as <-. exact H.
  - cbn [process_parts] in E. destruct (process_part st p) as [st1|] eqn:E1; [|discriminate].
    exact (IH st1 st' (Hstep st p st1 H E1) E).
Qed.

Lemma status_type (t : string) :
  startsWith t "data-" = true ->
  (drop 5 t =? "agent-status") = (t =? "data-agent-status").
Proof.
  intros H. apply prefix_drop in H. cbn [String.length] in H.
  rewrite <- H at 2.
  change ("data-agent-status") with ("data-" ++ "agent-status").
  destruct (drop 5 t =? "agent-status") eqn:E.
  - apply String.eqb_eq in E. rewrite E. symmetry. apply String.eqb_refl.
  - symmetry. apply String.eqb_neq. intros E'. apply String.eqb_neq in E. apply E.
    cbn in E'. now injection E'.
Qed.

Lemma kind_of_dataType_not_status (d : string) (k : AgentType) :
  kind_of_dataType d = Some k -> (d =? "agent-status") = false.
Proof.
  unfold kind_of_dataType. intros H.
  destruct (d =? "agent-status") eqn:E; [|reflexivity].
  apply String.eqb_eq in E. subst d. discriminate H.
Qed.

Lemma process_part_branch (st : AgentResults * bool) (part : Part) :
  Branch st part (process_part st part).
Proof.
  unfold process_part.
  destruct (startsWith (part_type part) "data-") eqn:Es.
  - pose proof (status_type _ Es) as Et.
    destruct (part_type part =? "") eqn:E0.
    { apply String.eqb_eq in E0. rewrite E0 in Es. discriminate Es. }
    cbn [negb andb].
    destruct (kind_of_dataType (drop 5 (part_type part))) as [k|] eqn:Ek.
    + apply OnPayload; [|exact Es].
      rewrite <- Et. exact (kind_of_dataType_not_status _ _ Ek).
    + destruct (drop 5 (part_type part) =? "agent-status") eqn:Ea.
      * apply OnStatus. now rewrite <- Et.
      * apply OnOther. now rewrite <- Et.
  - rewrite andb_false_r.
    assert (En : (part_type part =? "data-agent-status") = false).
    { apply String.eqb_neq. intros E. rewrite E in Es. discriminate Es. }
    destruct (part_type part =? "data") eqn:Ed; cbn [andb].
    + destruct (truthy (part_data part)).
      * now apply OnCustom.
      * now apply OnOther.
    + now apply OnOther.
Qed.

(** ** What one branch does to a property of the state *)

(** A property that neither a payload written nor a status part
    breaks is kept by every part. *)
Lemma process_part_keeps (P : AgentResults * bool -> Prop) :
  (forall k data st, P st -> P (payload_part k data st)) ->
  (forall k data st, P st -> P (custom_field k data st)) ->
  (forall data st st', P st -> status_part data st = Some st' -> P st') ->
  forall st part st', P st -> process_part st part = Some st' -> P st'.
Proof.
  intros Hp Hc Hs st part st' H E.
  revert E. destruct (process_part_branch st part) as [k _ _ | _ | _ _ | _]; intros E.
  - injection E as <-. now apply Hp.
  - now apply (Hs (part_data part) st).
  - injection E as <-. now repeat apply Hc.
  - now injection E as <-.
Qed.

Lemma effect_keeps (P : AgentResults -> Prop) (c : Clock) (r : AgentResults)
                   (messages : list Message) :
  (forall t r, P r -> P (set_last_updated t r)) ->
  (forall st part st', P (fst st) -> process_part st part = Some st' -> P (fst st')) ->
  P r ->
  forall r', state_after r (effect c r messages) = Some r' -> P r'.
Proof.
  intros Ht Hstep H r' E. unfold effect in E.
  rewrite process_messages_flat in E.
  destruct (process_parts (r, false) (all_parts messages)) as [[u h]|] eqn:Ep;
    [|discriminate].
  pose proof (process_parts_inv (fun st => P (fst st)) Hstep _ (r, false) _ H Ep) as Hu.
  cbn [fst] in Hu.
  destruct h; cbn [state_after] in E; injection E as <-; [now apply Ht | exact H].
Qed.

(** ** First write wins *)

Lemma payload_part_slot (k k' : AgentType) (data : jsval) (st : AgentResults * bool) :
  present (slot k (fst st)) = true ->
  slot k (fst (payload_part k' data st)) = slot k (fst st).
Proof.
  destruct st as [r h]. cbn [fst]. intros H. unfold payload_part.
  destruct (truthy data && negb (present (slot k' r))) eqn:E; [|reflexivity].
  apply andb_prop in E as [_ E]. apply negb_true_iff in E.
  destruct k, k'; cbn in *; try reflexivity; congruence.
Qed.

Lemma custom_field_slot (k k' : AgentType) (data : jsval) (st : AgentResults * bool) :
  present (slot k (fst st)) = true ->
  slot k (fst (custom_field k' data st)) = slot k (fst st).
Proof.
  destruct st as [r h]. cbn [fst]. intros H. unfold custom_field.
  destruct (truthy (get data (kind_name k')) && negb (present (slot k' r))) eqn:E;
    [|reflexivity].
  apply andb_prop in E as [_ E]. apply negb_true_iff in E.
  destruct k, k'; cbn in *; try reflexivity; congruence.
Qed.

Lemma status_part_fields (data : jsval) (st st' : AgentResults * bool) :
  status_part data st = Some st' ->
  (forall k, slot k (fst st') = slot k (fst st))
  /\ completed_agents (fst st') = completed_agents (fst st).
Proof.
  destruct st as [r h]. unfold status_part.
  destruct (truthy data && truthy (get data "agent")); [|now intros [= <-]].
  destruct (is_string (get data "status") "started").
  - destruct (get data "agent"); try discriminate.
    destruct (negb (includes (active_agents r) s)); intros [= <-];
      (split; [intros []|]; reflexivity).
  - destruct (is_string (get data "status") "completed"); intros [= <-];
      (split; [intros []|]; reflexivity).
Qed.

Lemma process_part_slot (k : AgentType) (v : option jsval)
                        (st : AgentResults * bool) (part : Part)
                        (st' : AgentResults * bool) :
  present v = true ->
  slot k (fst st) = v -> process_part st part = Some st' -> slot k (fst st') = v.
Proof.
  intros Hv. revert st part st'.
  apply (process_part_keeps (fun st => slot k (fst st) = v)).
  - intros k' data st H. rewrite payload_part_slot; [exact H | now rewrite H].
  - intros k' data st H. rewrite custom_field_slot; [exact H | now rewrite H].
  - intros data st st' H E. apply status_part_fields in E as [E _]. now rewrite E.
Qed.

(** X21. In the chat component a payload slot is written at most once:
    whatever parts the messages hold, a slot that holds a payload when the
    effect starts holds the same payload when it ends. *)
Theorem chat_slot_written_once (c : Clock) (r : AgentResults) (messages : list Message)
                               (k : AgentType) (r' : AgentResults) :
  present (slot k r) = true ->
  state_after r (effect c r messages) = Some r' ->
  slot k r' = slot k r.
Proof.
  intros Hp E.
  apply (effect_keeps (fun u => slot k u = slot k r) c r messages); try assumption.
  - intros t u H. rewrite <- H. now destruct k.
  - intros st part st'. now apply process_part_slot.
  - reflexivity.
Qed.

Lemma chat_slot_written_once_witness :
  let r := set_research (Some Scenario.five_found) (AgentDataParser.empty_results Scenario.t0) in
  slot Research
       (set_last_updated (iso Scenario.t1)
          (set_completed_agents 1 (set_listings (Some Scenario.seven_found) r)))
  = slot Research r.
Proof.
  cbv zeta.
  apply (chat_slot_written_once Scenario.t1 _
           [mkMessage (Some [mkPart "data-research" (JArr [Scenario.seven_found]);
                             mkPart "data-listings" (JArr [Scenario.seven_found])])]).
  - reflexivity.
  - vm_compute. reflexivity.
Defined.

(** ** The counter and the slots *)

Lemma completedCount_set_slot (k : AgentType) (v : option jsval) (r : AgentResults) :
  (completedCount (set_slot k v r) <= completedCount r + 1)%nat.
Proof.
  unfold completedCount. destruct r as [l rs se me tot com act upd].
  destruct k; cbn [set_slot set_listings set_research set_sentiment set_media
                   listings research sentiment media];
    destruct (present l), (present rs), (present se), (present me), (present v);
    cbn; lia.
Qed.

Lemma payload_part_covered (k : AgentType) (data : jsval) (st : AgentResults * bool) :
  covered st -> covered (payload_part k data st).
Proof.
  destruct st as [r h]. unfold covered, payload_part. cbn [fst]. intros H.
  destruct (truthy data && negb (present (slot k r))); [|exact H]. cbn [fst].
  pose proof (completedCount_set_slot k (assign (first_or_self data)) r) as Hc.
  replace (completedCount (set_completed_agents (completed_agents r + 1)
                             (set_slot k (assign (first_or_self data)) r)))
    with (completedCount (set_slot k (assign (first_or_self data)) r))
    by now destruct k.
  replace (completed_agents (set_completed_agents (completed_agents r + 1)
                               (set_slot k (assign (first_or_self data)) r)))
    with (completed_agents r + 1)%Z by now destruct k.
  lia.
Qed.

Lemma custom_field_covered (k : AgentType) (data : jsval) (st : AgentResults * bool) :
  covered st -> covered (custom_field k data st).
Proof.
  destruct st as [r h]. unfold covered, custom_field. cbn [fst]. intros H.
  destruct (truthy (get data (kind_name k)) && negb (present (slot k r))); [|exact H].
  cbn [fst].
  pose proof (completedCount_set_slot k (assign (get data (kind_name k))) r) as Hc.
  replace (completedCount (set_completed_agents (completed_agents r + 1)
                             (set_slot k (assign (get data (kind_name k))) r)))
    with (completedCount (set_slot k (assign (get data (kind_name k))) r))
    by now destruct k.
  replace (completed_agents (set_completed_agents (completed_agents r + 1)
                               (set_slot k (assign (get data (kind_name k))) r)))
    with (completed_agents r + 1)%Z by now destruct k.
  lia.
Qed.

Lemma completedCount_slots (r r' : AgentResults) :
  (forall k, slot k r' = slot k r) -> completedCount r' = completedCount r.
Proof.
  intros H. unfold completedCount.
  pose proof (H Listings) as H1. pose proof (H Research) as H2.
  pose proof (H Sentiment) as H3. pose proof (H Media) as H4.
  cbn [slot] in H1, H2, H3, H4. now rewrite H1, H2, H3, H4.
Qed.

Lemma status_part_covered (data : jsval) (st st' : AgentResults * bool) :
  covered st -> status_part data st = Some st' -> covered st'.
Proof.
  unfold covered. intros H E. apply status_part_fields in E as [Es Ec].
  now rewrite (completedCount_slots _ _ Es), Ec.
Qed.

(** X22. The chat component's effect keeps the counter above the slots:
    when [completed_agents] is at least the number of slots that hold a
    payload before the effect runs, it is so afterwards, so the progress
    bar never shows more than 25 per counted completion. *)
Theorem chat_counter_covers_slots (c : Clock) (r : AgentResults) (messages : list Message)
                                  (r' : AgentResults) :
  (Z.of_nat (completedCount r) <= completed_agents r)%Z ->
  state_after r (effect c r messages) = Some r' ->
  (Z.of_nat (completedCount r') <= completed_agents r')%Z
  /\ (calculateProgress r' <= 25 * completed_agents r')%Z.
Proof.
  intros H E.
  assert (Hc : (Z.of_nat (completedCount r') <= completed_agents r')%Z).
  { apply (effect_keeps (fun u => covered (u, false)) c r messages); try assumption.
    - intros t u Hu. unfold covered in *. cbn [fst] in *.
      now replace (completedCount (set_last_updated t u)) with (completedCount u)
        by reflexivity.
    - intros st part st' Hst. 
      apply (process_part_keeps covered).
      + exact payload_part_covered.
      + exact custom_field_covered.
      + exact status_part_covered.
      + exact Hst. }
  split; [exact Hc|]. rewrite calculateProgress_count. lia.
Qed.

Lemma chat_counter_covers_slots_witness :
  let r' := set_last_updated (iso Scenario.t1)
              (set_completed_agents 2
                 (set_research (Some Scenario.five_found)
                    (AgentDataParser.empty_results Scenario.t0))) in
  (Z.of_nat (completedCount r') <= completed_agents r')%Z
  /\ (calculateProgress r' <= 25 * completed_agents r')%Z.
Proof.
  cbv zeta.
  apply (chat_counter_covers_slots Scenario.t1 (AgentDataParser.empty_results Scenario.t0)
           [mkMessage (Some [mkPart "data-research" (JArr []);
                             mkPart "data-research" (JArr [Scenario.five_found])])]).
  - vm_compute. discriminate.
  - vm_compute. reflexivity.
Defined.

(** ** Parts that set no state *)

Lemma plain_part (st : AgentResults * bool) (part : Part) :
  plain part = true -> process_part st part = Some st.
Proof.
  unfold plain, process_part. intros H. apply andb_prop in H as [H1 H2].
  apply negb_true_iff in H1, H2. now rewrite H1, H2, andb_false_r.
Qed.

Lemma saturated_slot (r : AgentResults) (k : AgentType) :
  saturated r = true -> present (slot k r) = true.
Proof.
  unfold saturated, all_kinds. cbn [forallb]. rewrite !andb_true_iff.
  intros (H1 & H2 & H3 & H4 & _). now destruct k.
Qed.

Lemma inert_part (r : AgentResults) (part : Part) :
  inert r part = true -> process_part (r, false) part = Some (r, false).
Proof.
  unfold inert. intros H. apply orb_prop in H as [H|H]; [now apply plain_part|].
  apply andb_prop in H as [Hs Hn]. apply negb_true_iff in Hn.
  assert (Hp : forall k data, payload_part k data (r, false) = (r, false)).
  { intros k data. unfold payload_part.
    now rewrite (saturated_slot r k Hs), andb_false_r. }
  assert (Hc : forall k data, custom_field k data (r, false) = (r, false)).
  { intros k data. unfold custom_field.
    now rewrite (saturated_slot r k Hs), andb_false_r. }
  destruct (process_part_branch (r, false) part) as [k _ _ | E | _ _ | _].
  - now rewrite Hp.
  - congruence.
  - now rewrite !Hc.
  - reflexivity.
Qed.

(** X23. The chat component's effect sets no state when no part can
    change it: parts that are no data parts never do, and once all four
    slots hold a payload only a status part does.  The state is then left
    as it is, [last_updated] included. *)
Theorem chat_inert_parts_set_no_state (c : Clock) (r : AgentResults)
                                      (messages : list Message) :
  forallb (inert r) (all_parts messages) = true ->
  effect c r messages = Unchanged.
Proof.
  intros H. unfold effect. rewrite process_messages_flat.
  assert (E : process_parts (r, false) (all_parts messages) = Some (r, false)).
  { induction (all_parts messages) as [|p ps IH]; [reflexivity|].
    cbn [forallb] in H. apply andb_prop in H as [Hp Hps].
    cbn [process_parts]. rewrite (inert_part r p Hp). exact (IH Hps). }
  now rewrite E.
Qed.

Lemma chat_inert_parts_set_no_state_witness :
  effect Scenario.t1 (AgentDataParser.empty_results Scenario.t0)
         [mkMessage None;
          mkMessage (Some [mkPart "text" JUndefined; mkPart "step-start" JUndefined])]
  = Unchanged.
Proof.
  apply chat_inert_parts_set_no_state. vm_compute. reflexivity.
Defined.

End ChatEffect.

(* ================================================================== *)
(** * The effect of [chat.tsx] run again on the same parts *)
(* ================================================================== *)

Section ChatRerun.

Import Widgets Components Components.Chat.

Variable a : string.
Hypothesis a_named : a <> "".

Lemma includes_snoc (l : list string) (x : string) :
  includes (l ++ [x])%list a = includes l a || (a =? x).
Proof.
  unfold includes. rewrite existsb_app. cbn [existsb]. now rewrite orb_false_r.
Qed.

Lemma includes_filter_differs (l : list string) (agent : jsval) :
  includes (filter (fun x => differs x agent) l) a = includes l a && differs a agent.
Proof.
  induction l as [|y l IH]; [reflexivity|].
  cbn [filter]. destruct (differs y agent) eqn:Ey.
  - unfold includes in *. cbn [existsb]. rewrite IH.
    destruct (a =? y) eqn:Ea; [|reflexivity].
    apply String.eqb_eq in Ea. subst y. now rewrite Ey.
  - rewrite IH. unfold includes. cbn [existsb].
    destruct (a =? y) eqn:Ea; [|reflexivity].
    apply String.eqb_eq in Ea. subst y. rewrite Ey. now rewrite !andb_false_r.
Qed.

Lemma is_status_off (s : string) (part : Part) :
  (part_type part =? "data-agent-status") = false -> is_status a s part = false.
Proof. unfold is_status. now intros ->. Qed.

Lemma payload_part_counts (k : AgentType) (data : jsval) (st : AgentResults * bool) :
  active_agents (fst (payload_part k data st)) = active_agents (fst st)
  /\ total_agents (fst (payload_part k data st)) = total_agents (fst st).
Proof.
  destruct st as [r h]. unfold payload_part.
  destruct (truthy data && negb (present (slot k r))); [|now split].
  now destruct k.
Qed.

Lemma custom_field_counts (k : AgentType) (data : jsval) (st : AgentResults * bool) :
  active_agents (fst (custom_field k data st)) = active_agents (fst st)
  /\ total_agents (fst (custom_field k data st)) = total_agents (fst st).
Proof.
  destruct st as [r h]. unfold custom_field.
  destruct (truthy (get data (kind_name k)) && negb (present (slot k r))); [|now split].
  now destruct k.
Qed.

Lemma status_part_counts (part : Part) (st st' : AgentResults * bool) :
  (part_type part =? "data-agent-status") = true ->
  status_part (part_data part) st = Some st' ->
  is_active a st' = status_after a part (is_active a st)
  /\ (spare_total a st <= spare_total a st')%Z /\ (running_total st <= running_total st')%Z.
Proof.
  intros Ht. unfold status_after, is_status, spare_total, running_total, is_active.
  rewrite Ht. cbn [andb].
  destruct st as [r h]. unfold status_part. cbn [fst].
  set (data := part_data part).
  destruct (truthy data && truthy (get data "agent")) eqn:Eg.
  - apply andb_prop in Eg as [_ Eg].
    destruct (is_string (get data "status") "started") eqn:Es.
    + destruct (get data "agent") as [| |?|? ?|s| |] eqn:Ea; try discriminate.
      cbn [is_string]. rewrite andb_true_r.
      destruct (includes (active_agents r) s) eqn:Ei; cbn [negb]; intros [= <-]; cbn [fst].
      * destruct (s =? a) eqn:E.
        -- apply String.eqb_eq in E. subst s. rewrite Ei. repeat split; lia.
        -- rewrite andb_false_l.
           destruct (includes (active_agents r) a); repeat split; lia.
      * replace (active_agents (set_total_agents (total_agents r + 1)
                   (set_active_agents (active_agents r ++ [s])%list r)))
          with (active_agents r ++ [s])%list by reflexivity.
        replace (total_agents (set_total_agents (total_agents r + 1)
                   (set_active_agents (active_agents r ++ [s])%list r)))
          with (total_agents r + 1)%Z by reflexivity.
        rewrite includes_snoc, (String.eqb_sym a s).
        destruct (s =? a) eqn:E.
        -- rewrite orb_true_r. cbn [Z.b2z].
           destruct (includes (active_agents r) a); cbn [Z.b2z]; repeat split; lia.
        -- rewrite orb_false_r, andb_false_l.
           destruct (includes (active_agents r) a); cbn [Z.b2z]; repeat split; lia.
    + rewrite andb_false_r.
      destruct (is_string (get data "status") "completed") eqn:Ec.
      * intros [= <-]. cbn [fst].
        replace (active_agents (set_active_agents
                   (filter (fun x => differs x (get data "agent")) (active_agents r)) r))
          with (filter (fun x => differs x (get data "agent")) (active_agents r))
          by reflexivity.
        replace (total_agents (set_active_agents
                   (filter (fun x => differs x (get data "agent")) (active_agents r)) r))
          with (total_agents r) by reflexivity.
        rewrite includes_filter_differs, andb_true_r.
        destruct (is_string (get data "agent") a) eqn:Ea.
        -- destruct (get data "agent") as [| |?|? ?|s| |]; try discriminate.
           cbn [is_string] in Ea. apply String.eqb_eq in Ea. subst s.
           cbn [differs]. rewrite String.eqb_refl. cbn [negb]. rewrite andb_false_r.
           cbn [Z.b2z]. destruct (includes (active_agents r) a); cbn [Z.b2z];
             repeat split; lia.
        -- assert (Hd : differs a (get data "agent") = true).
           { destruct (get data "agent") as [| |?|? ?|s| |]; try reflexivity.
             cbn [is_string] in Ea. cbn [differs].
             now rewrite String.eqb_sym, Ea. }
           rewrite Hd, andb_true_r. repeat split; lia.
      * rewrite andb_false_r. intros [= <-]. cbn [fst]. repeat split; lia.
  - intros [= <-]. cbn [fst].
    assert (Hn : is_string (get data "agent") a = false).
    { destruct (is_string (get data "agent") a) eqn:Ea; [|reflexivity].
      destruct (get data "agent") as [| |?|? ?|s| |] eqn:Eag; try discriminate.
      cbn [is_string] in Ea. apply String.eqb_eq in Ea. subst s.
      assert (Hd : truthy data = true).
      { destruct data; try discriminate Eag. reflexivity. }
      rewrite Hd in Eg. cbn [andb truthy] in Eg.
      apply negb_false_iff, String.eqb_eq in Eg. contradiction. }
    rewrite Hn. cbn [andb]. repeat split; lia.
Qed.

(** One part: [a] is active afterwards as the part says, and neither the
    total nor the spare goes down. *)
Lemma process_part_counts (st : AgentResults * bool) (part : Part)
                          (st' : AgentResults * bool) :
  process_part st part = Some st' ->
  is_active a st' = status_after a part (is_active a st)
  /\ (spare_total a st <= spare_total a st')%Z /\ (running_total st <= running_total st')%Z.
Proof.
  intros E. revert E.
  destruct (process_part_branch st part) as [k Hn _ | Hs | Hn _ | Hn]; intros E.
  - injection E as <-. unfold status_after, spare_total, running_total, is_active.
    rewrite !(is_status_off _ _ Hn).
    destruct (payload_part_counts k (part_data part) st) as [-> ->].
    repeat split; lia.
  - now apply status_part_counts.
  - injection E as <-. unfold status_after, spare_total, running_total, is_active.
    rewrite !(is_status_off _ _ Hn).
    destruct (custom_field_counts Media (part_data part)
                (custom_field Sentiment (part_data part)
                   (custom_field Listings (part_data part)
                      (custom_field Research (part_data part) st)))) as [-> ->].
    destruct (custom_field_counts Sentiment (part_data part)
                (custom_field Listings (part_data part)
                   (custom_field Research (part_data part) st))) as [-> ->].
    destruct (custom_field_counts Listings (part_data part)
                (custom_field Research (part_data part) st)) as [-> ->].
    destruct (custom_field_counts Research (part_data part) st) as [-> ->].
    repeat split; lia.
  - injection E as <-. unfold status_after. rewrite !(is_status_off _ _ Hn).
    repeat split; lia.
Qed.

Lemma process_parts_counts (ps : list Part) (st st' : AgentResults * bool) :
  process_parts st ps = Some st' ->
  is_active a st' = open_after a (is_active a st) ps
  /\ (spare_total a st <= spare_total a st')%Z /\ (running_total st <= running_total st')%Z.
Proof.
  revert st. induction ps as [|p ps IH]; intros st E.
  - injection E as <-. repeat split; lia.
  - cbn [process_parts] in E.
    destruct (process_part st p) as [st1|] eqn:E1; [|discriminate].
    apply process_part_counts in E1 as (Ha & Hs & Ht).
    apply IH in E as (Ha' & Hs' & Ht').
    cbn [open_after]. unfold status_after in Ha. rewrite <- Ha.
    repeat split; [exact Ha' | lia | lia].
Qed.

(** A run that meets a part starting [a], from a state in which [a] is
    not active, ends with a total above the one it began with. *)
Lemma process_parts_recounts (ps : list Part) (st st' : AgentResults * bool) :
  is_active a st = false ->
  existsb (is_status a "started") ps = true ->
  process_parts st ps = Some st' ->
  (running_total st + 1 <= running_total st')%Z.
Proof.
  intros Ha Hex E.
  apply existsb_exists in Hex as (p & Hin & Hp).
  apply in_split in Hin as (pre & post & ->).
  rewrite process_parts_app in E.
  destruct (process_parts st pre) as [s1|] eqn:E1; [|discriminate].
  cbn [process_parts] in E.
  destruct (process_part s1 p) as [s2|] eqn:E2; [|discriminate].
  apply process_parts_counts in E1 as (_ & Hs1 & _).
  apply process_part_counts in E2 as (Ha2 & Hs2 & _).
  apply process_parts_counts in E as (_ & _ & Ht).
  unfold status_after in Ha2. rewrite Hp in Ha2.
  unfold spare_total, running_total in *. rewrite Ha in Hs1. rewrite Ha2 in Hs2. cbn [Z.b2z] in *. lia.
Qed.

(** While [hasUpdates] is false nothing has been written. *)
Lemma process_parts_flag (r : AgentResults) (ps : list Part) (u : AgentResults) :
  process_parts (r, false) ps = Some (u, false) -> u = r.
Proof.
  intros E.
  refine (process_parts_inv (fun st => snd st = false -> fst st = r) _
            ps (r, false) (u, false) (fun _ => eq_refl) E eq_refl).
  apply (process_part_keeps (fun st => snd st = false -> fst st = r)).
  - intros k data [r0 h0] H. unfold payload_part.
    destruct (truthy data && negb (present (slot k r0)));
      [cbn [snd]; discriminate | exact H].
  - intros k data [r0 h0] H. unfold custom_field.
    destruct (truthy (get data (kind_name k)) && negb (present (slot k r0)));
      [cbn [snd]; discriminate | exact H].
  - intros data [r0 h0] st' H. unfold status_part.
    destruct (truthy data && truthy (get data "agent")); [|now intros [= <-]].
    destruct (is_string (get data "status") "started").
    + destruct (get data "agent"); try discriminate.
      destruct (negb (includes (active_agents r0) s)); intros [= <-];
        [cbn [snd]; discriminate | exact H].
    + destruct (is_string (get data "status") "completed"); intros [= <-];
        [cbn [snd]; discriminate | exact H].
Qed.

Lemma typed_part_runs (st : AgentResults * bool) (part : Part) :
  typed_part part = true -> process_part st part <> None.
Proof.
  unfold typed_part. intros H.
  destruct (process_part_branch st part) as [k _ _ | Hs | _ _ | _]; try discriminate.
  rewrite Hs in H. cbn [andb] in H.
  destruct st as [r h]. unfold status_part.
  destruct (truthy (part_data part) && truthy (get (part_data part) "agent")) eqn:Eg;
    [|discriminate].
  apply andb_prop in Eg as [_ Eg]. rewrite Eg in H. cbn [andb] in H.
  destruct (is_string (get (part_data part) "status") "started").
  - cbn [negb orb] in H.
    destruct (get (part_data part) "agent"); try discriminate H.
    destruct (negb (includes (active_agents r) s)); discriminate.
  - destruct (is_string (get (part_data part) "status") "completed"); discriminate.
Qed.

Lemma typed_runs (ps : list Part) (st : AgentResults * bool) :
  forallb typed_part ps = true -> process_parts st ps <> None.
Proof.
  revert st. induction ps as [|p ps IH]; intros st H; [discriminate|].
  cbn [forallb] in H. apply andb_prop in H as [Hp Hps].
  cbn [process_parts]. destruct (process_part st p) as [st1|] eqn:E.
  - now apply IH.
  - now apply typed_part_runs in E.
Qed.

(** One run of the effect on messages that start [a] and leave it
    completed, from a state in which [a] is not active. *)
Lemma effect_recounts (c : Clock) (r : AgentResults) (messages : list Message) :
  typed messages = true ->
  includes (active_agents r) a = false ->
  announces a messages = true ->
  open_after a false (all_parts messages) = false ->
  exists r', state_after r (effect c r messages) = Some r'
             /\ includes (active_agents r') a = false
             /\ (total_agents r + 1 <= total_agents r')%Z.
Proof.
  intros Ht Ha Hex Hop. unfold effect. rewrite process_messages_flat.
  destruct (process_parts (r, false) (all_parts messages)) as [[u h]|] eqn:E;
    [|now apply typed_runs in E].
  pose proof (process_parts_recounts _ (r, false) _ Ha Hex E) as Hrec.
  pose proof (process_parts_counts _ _ _ E) as (Hact & _ & _).
  unfold is_active, running_total in *. cbn [fst] in *. rewrite Ha, Hop in Hact.
  destruct h.
  - exists (set_last_updated (iso c) u). repeat split; assumption.
  - apply process_parts_flag in E. subst u. lia.
Qed.

(** X24. The chat component counts an agent again on every run of its
    effect: when the message parts say that agent [a] started and leave it
    completed, every run from a state in which [a] is not active adds at
    least one to [total_agents] and ends with [a] not active, so running
    the effect once per clock reading on the same parts raises
    [total_agents] by at least the number of runs. *)
Theorem chat_rerun_recounts (clocks : list Clock) (r : AgentResults)
                            (messages : list Message) :
  typed messages = true ->
  includes (active_agents r) a = false ->
  announces a messages = true ->
  open_after a false (all_parts messages) = false ->
  exists r', rerun clocks r messages = Some r'
             /\ includes (active_agents r') a = false
             /\ (total_agents r + Z.of_nat (List.length clocks) <= total_agents r')%Z.
Proof.
  intros Ht Ha Hex Hop. revert r Ha.
  induction clocks as [|c clocks IH]; intros r Ha.
  - exists r. cbn [rerun List.length]. repeat split; [exact Ha | lia].
  - destruct (effect_recounts c r messages Ht Ha Hex Hop) as (r1 & E1 & Ha1 & Ht1).
    destruct (IH r1 Ha1) as (r' & E' & Ha' & Ht').
    exists r'. cbn [rerun]. rewrite E1. repeat split; [exact E' | exact Ha' |].
    cbn [List.length]. lia.
Qed.

End ChatRerun.

Lemma chat_rerun_recounts_witness :
  exists r',
    Components.Chat.rerun [Scenario.t0; Scenario.t1]
      (AgentDataParser.empty_results Scenario.t0)
      [Components.mkMessage
         (Some [Components.mkPart "data-agent-status"
                  (JObj [("agent", JStr "research"); ("status", JStr "started")]);
                Components.mkPart "text" JUndefined;
                Components.mkPart "data-agent-status"
                  (JObj [("agent", JStr "research"); ("status", JStr "completed")])])]
    = Some r'
    /\ includes (active_agents r') "research" = false
    /\ (total_agents (AgentDataParser.empty_results Scenario.t0)
        + Z.of_nat (List.length [Scenario.t0; Scenario.t1]) <= total_agents r')%Z.
Proof.
  apply (chat_rerun_recounts "research"); try reflexivity. discriminate.
Defined.

(* ================================================================== *)
(** * [onData] of [vehicle-profile-dashboard.tsx] *)
(* ================================================================== *)

Section ProfileOnData.

Import Widgets Components Components.VehicleProfile.

Lemma kind_of_dataType_name (d : string) (k : AgentType) :
  kind_of_dataType d = Some k -> d = kind_name k.
Proof.
  unfold kind_of_dataType.
  destruct (d =? "research") eqn:E1; [apply String.eqb_eq in E1; now intros [= <-]|].
  destruct (d =? "listings") eqn:E2; [apply String.eqb_eq in E2; now intros [= <-]|].
  destruct (d =? "sentiment") eqn:E3; [apply String.eqb_eq in E3; now intros [= <-]|].
  destruct (d =? "media") eqn:E4; [apply String.eqb_eq in E4; now intros [= <-]|].
  discriminate.
Qed.

Lemma kind_of_dataType_kind (k : AgentType) : kind_of_dataType (kind_name k) = Some k.
Proof. now destruct k. Qed.

Lemma payload_fields (k : AgentType) (agentData : jsval) (r : AgentResults) :
  total_agents (payload k agentData r) = total_agents r
  /\ completed_agents (payload k agentData r) = completed_agents r
  /\ active_agents (payload k agentData r) = active_agents r
  /\ forall k', k' <> k -> slot k' (payload k agentData r) = slot k' r.
Proof.
  unfold payload. destruct agentData as [| | | | |[|x items]|]; try now repeat split.
  repeat split; try now destruct k.
  intros k' Hk. rewrite slot_set_slot.
  destruct (kind_name k =? kind_name k') eqn:E; [|reflexivity].
  apply String.eqb_eq, kind_name_inj in E. congruence.
Qed.

(** X25. The profile dashboard's [onData] never counts: whenever it sets
    the state, [total_agents] and [completed_agents] are what they were,
    [last_updated] is the current time, and every slot but the one the
    part's type names ([data-<kind>]) is what it was. *)
Theorem profile_onData_keeps_counters (c : Clock) (r : AgentResults)
                                      (type : option string) (agentData : jsval)
                                      (r' : AgentResults) :
  onData c r type agentData = Updated r' ->
  total_agents r' = total_agents r
  /\ completed_agents r' = completed_agents r
  /\ last_updated r' = iso c
  /\ forall k, type <> Some ("data-" ++ kind_name k) -> slot k r' = slot k r.
Proof.
  unfold onData. destruct type as [ty|]; [|discriminate].
  destruct (startsWith ty "data-") eqn:Es; [|discriminate].
  pose proof (prefix_drop _ _ Es) as Hty. cbn [String.length] in Hty.
  destruct (kind_of_dataType (drop 5 ty)) as [k|] eqn:Ek.
  - apply kind_of_dataType_name in Ek. rewrite Ek in Hty. intros [= <-].
    destruct (payload_fields k agentData r) as (Ht & Hc & _ & Hs).
    repeat split; try assumption.
    intros k' Hk. transitivity (slot k' (payload k agentData r)); [now destruct k'|].
    apply Hs. intros ->. apply Hk. now rewrite Hty.
  - destruct (drop 5 ty =? "agent-status").
    + destruct (negb (nullish agentData) && truthy (get agentData "agents")).
      * destruct (get agentData "agents"); try discriminate.
        destruct (agent_names items) as [[names|]|]; try discriminate.
        intros [= <-]. repeat split; intros k _; now destruct k.
      * intros [= <-]. repeat split; intros k _; now destruct k.
    + intros [= <-]. repeat split; intros k _; now destruct k.
Qed.

Lemma profile_onData_keeps_counters_witness :
  let r := set_completed_agents 1
             (set_research (Some Scenario.five_found)
                (AgentDataParser.empty_results Scenario.t0)) in
  let r' := set_last_updated (iso Scenario.t1)
              (set_research (Some Scenario.seven_found) r) in
  total_agents r' = total_agents r
  /\ completed_agents r' = completed_agents r
  /\ last_updated r' = iso Scenario.t1
  /\ forall k, Some "data-research" <> Some ("data-" ++ kind_name k) ->
               slot k r' = slot k r.
Proof.
  cbv zeta.
  apply (profile_onData_keeps_counters Scenario.t1 _ (Some "data-research")
           (JArr [Scenario.seven_found; Scenario.five_found])).
  reflexivity.
Defined.

(** X26. The two components disagree on a second payload: for a slot that
    already holds a payload, the part [data-<kind>] carrying a non-empty
    array makes the chat component's effect set no state at all, while the
    profile dashboard's [onData] replaces the payload by the array's first
    item. *)
Theorem components_disagree_on_second_payload
        (c : Clock) (r : AgentResults) (k : AgentType) (x : jsval) (items : list jsval) :
  present (slot k r) = true ->
  x <> JUndefined ->
  Chat.effect c r [mkMessage (Some [mkPart ("data-" ++ kind_name k) (JArr (x :: items))])]
  = Unchanged
  /\ exists r', onData c r (Some ("data-" ++ kind_name k)) (JArr (x :: items)) = Updated r'
                /\ slot k r' = Some x.
Proof.
  intros Hp Hx. split.
  - unfold Chat.effect. cbn [Chat.process_messages parts Chat.process_parts].
    assert (E : Chat.process_part (r, false) (mkPart ("data-" ++ kind_name k) (JArr (x :: items)))
                = Some (r, false)).
    { unfold Chat.process_part. cbn [part_type part_data].
      replace (negb ("data-" ++ kind_name k =? "") && startsWith ("data-" ++ kind_name k) "data-")
        with true by now destruct k.
      replace (drop 5 ("data-" ++ kind_name k)) with (kind_name k) by reflexivity.
      rewrite kind_of_dataType_kind. unfold Chat.payload_part.
      now rewrite Hp, andb_false_r. }
    now rewrite E.
  - unfold onData.
    replace (startsWith ("data-" ++ kind_name k) "data-") with true by now destruct k.
    replace (drop 5 ("data-" ++ kind_name k)) with (kind_name k) by reflexivity.
    rewrite kind_of_dataType_kind. cbn [payload].
    eexists. split; [reflexivity|].
    destruct x; now destruct k.
Qed.

Lemma components_disagree_on_second_payload_witness :
  let r := set_listings (Some Scenario.five_found)
             (AgentDataParser.empty_results Scenario.t0) in
  Chat.effect Scenario.t1 r
    [mkMessage (Some [mkPart ("data-" ++ kind_name Listings) (JArr [Scenario.seven_found])])]
  = Unchanged
  /\ exists r', onData Scenario.t1 r (Some ("data-" ++ kind_name Listings))
                       (JArr [Scenario.seven_found]) = Updated r'
                /\ slot Listings r' = Some Scenario.seven_found.
Proof.
  cbv zeta. apply components_disagree_on_second_payload.
  - reflexivity.
  - discriminate.
Defined.

End ProfileOnData.

(* ================================================================== *)
(** * What reaches the backend *)
(* ================================================================== *)

Section Upstream.

Import Requests ChatClient.

Lemma lookup_field_app (k : string) (l1 l2 : list (string * jsval)) :
  lookup_field k (l1 ++ l2)%list
  = match lookup_field k l2 with
    | Some w => Some w
    | None => lookup_field k l1
    end.
Proof.
  induction l1 as [|[k' v] l1 IH]; cbn [app lookup_field].
  - now destruct (lookup_field k l2).
  - rewrite IH. destruct (lookup_field k l2); [reflexivity|].
    now destruct (lookup_field k l1).
Qed.

(** X27. The vehicle route lets the caller override its own tags: when
    the posted [user_context] is an object with an own property [k], the
    [user_context] sent upstream holds the caller's value under [k], also
    for [request_type], [vehicle_query] and [ui_format]. *)
Theorem caller_context_overrides_tags (c : Clock) (body : jsval) (b : BackendBody)
                                      (fs : list (string * jsval)) (k : string) (v : jsval) :
  Vehicle.prepare c body = Ready b ->
  get body "user_context" = JObj fs ->
  lookup_field k fs = Some v ->
  get (user_context b) k = v.
Proof.
  unfold Vehicle.prepare. intros E Hu Hk.
  destruct (nullish body); [discriminate|].
  destruct (Vehicle.extract body) as [m| |]; try discriminate.
  rewrite Hu in E. unfold Vehicle.context in E. cbn [or_else truthy] in E.
  injection E as <-. cbn [user_context get lookup_field].
  now rewrite Hk.
Qed.

Lemma caller_context_overrides_tags_witness :
  get (JObj [("request_type", JStr "vehicle_profile");
             ("vehicle_query", JStr "tesla");
             ("ui_format", JStr "generative");
             ("request_type", JStr "chat")]) "request_type"
  = JStr "chat".
Proof.
  apply (caller_context_overrides_tags Scenario.t0
           (JObj [("message", JStr "tesla");
                  ("user_context", JObj [("request_type", JStr "chat")])])
           (mkBody (Vehicle.vehicleQuery "tesla")
                   (JStr "vehicle-1740823200000")
                   (JObj [("request_type", JStr "vehicle_profile");
                          ("vehicle_query", JStr "tesla");
                          ("ui_format", JStr "generative");
                          ("request_type", JStr "chat")]))
           [("request_type", JStr "chat")]).
  - vm_compute. reflexivity.
  - reflexivity.
  - reflexivity.
Defined.

Lemma filter_text_parts (ps : list (string * string)) :
  filter_text (map ui_part ps)
  = Some (map ui_part (filter (fun p => fst p =? "text") ps)).
Proof.
  induction ps as [|[ty tx] ps IH]; [reflexivity|].
  cbn [map filter_text]. rewrite IH.
  change (nullish (ui_part (ty, tx))) with false. cbv iota.
  change (get (ui_part (ty, tx)) "type") with (JStr ty).
  cbn [is_string filter fst]. now destruct (ty =? "text").
Qed.

Lemma strings_text_of (ps : list (string * string)) :
  strings (map text_of (map ui_part ps)) = Some (map snd ps).
Proof.
  induction ps as [|[ty tx] ps IH]; [reflexivity|].
  cbn [map]. 
  assert (E : text_of (ui_part (ty, tx)) = JStr tx).
  { unfold text_of, ui_part. cbn [fst snd].
    change (get (JObj [("type", JStr ty); ("text", JStr tx)]) "text") with (JStr tx).
    unfold or_else. cbn [truthy]. destruct tx; reflexivity. }
  rewrite E. cbn [strings]. now rewrite IH.
Qed.

(** X28. What the user typed is what the backend is sent: for the body
    the chat component posts, with a last message whose parts are typed
    text, the chat route sends upstream the texts of the [text] parts
    joined by single spaces, under the chat's own id as [session_id]. *)
Theorem typed_text_reaches_backend
        (c : Clock) (id model visibility : string)
        (others extra : list (string * jsval)) (ps : list (string * string)) :
  id <> "" ->
  lookup_field "id" extra = None ->
  lookup_field "message" extra = None ->
  exists b,
    Cargeek.prepare c (request id (ui_message others ps) model visibility extra) = Ready b
    /\ message b = join (texts ps)
    /\ session_id b = JStr id.
Proof.
  intros Hid Hi Hm.
  unfold Cargeek.prepare, request. cbn [nullish].
  set (body := JObj _).
  assert (Hmsg : get body "message" = ui_message others ps).
  { unfold body. cbn [get]. rewrite lookup_field_app, Hm. reflexivity. }
  assert (Hbid : get body "id" = JStr id).
  { unfold body. cbn [get]. rewrite lookup_field_app, Hi. reflexivity. }
  assert (Hparts : get (ui_message others ps) "parts" = JArr (map ui_part ps)).
  { unfold ui_message. cbn [get]. rewrite lookup_field_app. reflexivity. }
  unfold Cargeek.extract. rewrite Hmsg, Hparts.
  change (truthy (ui_message others ps) && is_object (ui_message others ps)
          && truthy (JArr (map ui_part ps))) with true. cbv iota.
  unfold from_parts. rewrite filter_text_parts, strings_text_of.
  eexists. split; [reflexivity|]. split; [reflexivity|].
  cbn [session_id]. unfold session_of. rewrite Hbid. unfold or_else. cbn [truthy].
  destruct (id =? "") eqn:E; [|reflexivity].
  apply String.eqb_eq in E. contradiction.
Qed.

Lemma typed_text_reaches_backend_witness :
  exists b,
    Cargeek.prepare Scenario.t0
      (request "chat-1"
         (ui_message [("id", JStr "m1"); ("role", JStr "user")]
                     [("text", "compare"); ("file", "spec.pdf"); ("text", "prices")])
         "chat-model" "private" [])
    = Ready b
    /\ message b = join (texts [("text", "compare"); ("file", "spec.pdf"); ("text", "prices")])
    /\ session_id b = JStr "chat-1".
Proof.
  apply typed_text_reaches_backend; [discriminate | reflexivity | reflexivity].
Defined.

End Upstream.
